(** * Driving-simulator loop: a shallow embedding and its properties

    The repository holds several builds of one React/three.js component,
    [DrivingSimulator].  The development below embeds

    - the notification-gated, fixed-timestep build (second document of
      [src/unnamed/part_000], TRACK_LENGTH = 6500): the definitions at top
      level;
    - the time-based score bookkeeping of the 45-second build
      ([src/unnamed/part_001]): module [Timed];
    - the lateral dynamics of the earliest build, which has the blind-zone
      jitter (first document of [src/unnamed/part_000]): module [Legacy];
    - the instruments of the fixed-timestep build (speedometer, progress
      value, stage scale, countdown) as functions of their own, and its
      bookkeeping of the open sessions of a notification: module
      [Sessions];
    - the frame counter of the variable-step build
      ([src/src/driving_simulator.tsx]): module [Scaled].

    Conventions of the embedding.
    - JavaScript numbers that hold positions, speeds and times are exact
      rationals ([Q]); integer-valued counters (score, tick index, distance
      units, [Date.now()] milliseconds) are [Z] or [nat].  Rounding of
      IEEE doubles is not modelled.
    - Closure variables and React refs of the effect become fields of one
      state record, [World]; every callback the host can run (animation
      frame, interval timer, key handlers, buttons, React effects) is a
      function [World -> World].
    - Rendering, camera, road recycling, colour flashes, the speedometer,
      the progress bar, console output and the survey export are left out
      of [World]: they never feed back into the fields kept here.
    - Fields marked "ghost" are not in the source; they only name things
      (obstacle identity, tick of an event) so that properties can be stated. *)

From Stdlib Require Import ZArith QArith Qabs Qround Qminmax Lia Lqa List Bool.
From stdpp Require Import base gmap list.
Import ListNotations.

Local Open Scope Q_scope.

(** ** Numbers *)

Definition Qltb (x y : Q) : bool := negb (Qle_bool y x).
Definition Qleb (x y : Q) : bool := Qle_bool x y.

(** [Infinity] as used for [nearestObstacle]. *)
Inductive QInf := Fin (q : Q) | Infinity.

(** [a < b] where [b] may be [Infinity]. *)
Definition lt_inf (a : Q) (b : QInf) : bool :=
  match b with Fin q => Qltb a q | Infinity => true end.

(** [a > c] for a possibly infinite [a] and a finite [c]. *)
Definition inf_gt (a : QInf) (c : Q) : bool :=
  match a with Fin q => Qltb c q | Infinity => true end.

(** [a < c] for a possibly infinite [a] and a finite [c]. *)
Definition inf_lt (a : QInf) (c : Q) : bool :=
  match a with Fin q => Qltb q c | Infinity => false end.

(** [a > b], both possibly infinite ([Infinity > Infinity] is false). *)
Definition inf_gt_inf (a b : QInf) : bool :=
  match a, b with
  | Fin x, Fin y => Qltb y x
  | Fin _, Infinity => false
  | Infinity, Fin _ => true
  | Infinity, Infinity => false
  end.

(** ** Data *)

Inductive Mode := Copilot | Manual.          (* labelCondition.toLowerCase() / 'manual' *)
Inductive ObstacleType := TrafficHit | BlockHit.   (* 'traffic' / 'block' *)
Inductive Key := ArrowUp | ArrowDown | ArrowLeft | ArrowRight.

(** A three.js mesh, reduced to the plane of motion. *)
Record Mesh := {
  mx : Q;                 (* position.x *)
  mz : Q;                 (* position.z *)
  isBlindLane : bool;     (* userData.isBlindLane, never set in this build *)
  mid : nat               (* ghost: identity of the object *)
}.

Record CollisionEvent := {
  ev_unit : Z;
  ev_mode : Mode;
  ev_lane : nat;
  ev_z : Q;
  ev_type : ObstacleType;
  ev_isBlindLane : bool;
  ev_tick : Z;            (* ghost: frameCount when recorded *)
  ev_obstacle : nat       (* ghost: [mid] of the obstacle hit *)
}.

Record Notification := {
  n_id : nat;
  n_seen : bool;
  arrivalSecond : option Z;    (* milliseconds since start; the source keeps seconds with 3 decimals *)
  clickedSecond : option Z
}.

Record ModeBySecond := { second : Z; mbs_mode : Mode }.

Record LaneInfo := { safe : bool; nearestObstacle : QInf }.

(** Keyed like the source's single [Map]: a number for ambient traffic
    ([inl index]) and the string [block_<i>] for spawned blocks ([inr i]). *)
Abbreviation CooldownKey := (nat + nat)%type.

(** A JavaScript array that may have holes. *)
Definition JsArray (A : Type) := list (option A).

Definition js_set {A} (arr : JsArray A) (i : nat) (v : A) : JsArray A :=
  if (i <? length arr)%nat then <[i := Some v]> arr
  else arr ++ replicate (i - length arr) None ++ [Some v].

(** ** State *)

(** The controlled vehicle: [carGroup.position] and the closure variables of the effect. *)
Record Car := {
  posX : Q;   (* carGroup.position.x *)
  posZ : Q;   (* carGroup.position.z *)
  carVelocity : Q;
  carLaneOffset : Q;
  targetLane : Q;
  currentLaneIndex : nat;
  wasAutopilot : bool
}.

(** The [keys] object. *)
Record Keys := {
  kArrowUp : bool;
  kArrowDown : bool;
  kArrowLeft : bool;
  kArrowRight : bool
}.

(** Spawned blocks and the spawn cadence. *)
Record Spawner := {
  finalBlocks : list Mesh;
  lastBlockSpawnZ : Q;
  lastLateBlockSpawnZ : Q;
  lastFinishBurstSpawnZ : Q;
  blockSpawnCount : nat;
  nextMeshId : nat   (* ghost: next fresh [mid] *)
}.

(** Variables of the animation loop. *)
Record Loop := {
  frameCount : Z;
  accumulatedTime : Q;   (* seconds *)
  lastAnimationTime : option Q;   (* performance.now(), ms *)
  autopilotTimer : Q;
  autopilotDecision : nat   (* autopilotDecision.lane *)
}.

(** Variables of the interval timer. *)
Record TimerVars := {
  lastScoreDeduction : Z;   (* Date.now() ms, 0 = unset *)
  lastSecondLogged : Z;
  notificationsShown : list nat;   (* the Set of indices already triggered *)
  timerCleared : bool;   (* clearInterval(timerInterval) was called *)
  shuffledIds : list nat   (* constant: the order drawn when the effect was set up *)
}.

(** [simulationDataRef.current]. *)
Record SimulationData := {
  modeBySecond : list ModeBySecond;
  whiteBlocksHit : Z;
  failureLaneHits : Z;
  modeByUnit : JsArray Mode;
  collisionEvents : list CollisionEvent;
  finalScore : Z;
  sd_notifications : list Notification;   (* notifications *)
  notificationsSeen : nat;
  notificationsTotal : nat;
  finishLineCrossSecond : option Z   (* ms since start *)
}.

(** React refs read and written by the callbacks. *)
Record Refs := {
  isCompleteRef : bool;
  gameStartedRef : bool;
  startTimeRef : option Z;
  autopilotRef : bool;
  autopilotPendingRef : bool;
  scoreRef : Z;
  failureLaneHitsRef : Z;
  lastDistanceUnitLoggedRef : Z;
  notificationsRef : list Notification
}.

(** React state that the callbacks set; refs follow it when effects run. *)
Record Ui := {
  isAutopilot : bool;
  isComplete : bool;
  showInstructions : bool;
  showViewAllNotificationsPopup : bool
}.

(** Everything one mounted simulator owns. *)
Record World := {
  car : Car;
  keys : Keys;
  spawner : Spawner;
  otherCars : list Mesh;
  collisionCooldown : gmap CooldownKey Z;
  finishLineCrossed : bool;
  finishLineCrossTime : option Z;
  loop : Loop;
  timerVars : TimerVars;
  data : SimulationData;
  refs : Refs;
  ui : Ui
}.

(** Field updates.  [set_f v r] is [r] with field [f] replaced by [v];
    [with_g f w] applies [f] to component [g] of the world. *)

Definition set_posX (v : Q) (r : Car) : Car :=
  {| posX := v; posZ := posZ r; carVelocity := carVelocity r; carLaneOffset := carLaneOffset r; targetLane := targetLane r; currentLaneIndex := currentLaneIndex r; wasAutopilot := wasAutopilot r |}.
Definition set_posZ (v : Q) (r : Car) : Car :=
  {| posX := posX r; posZ := v; carVelocity := carVelocity r; carLaneOffset := carLaneOffset r; targetLane := targetLane r; currentLaneIndex := currentLaneIndex r; wasAutopilot := wasAutopilot r |}.
Definition set_carVelocity (v : Q) (r : Car) : Car :=
  {| posX := posX r; posZ := posZ r; carVelocity := v; carLaneOffset := carLaneOffset r; targetLane := targetLane r; currentLaneIndex := currentLaneIndex r; wasAutopilot := wasAutopilot r |}.
Definition set_carLaneOffset (v : Q) (r : Car) : Car :=
  {| posX := posX r; posZ := posZ r; carVelocity := carVelocity r; carLaneOffset := v; targetLane := targetLane r; currentLaneIndex := currentLaneIndex r; wasAutopilot := wasAutopilot r |}.
Definition set_targetLane (v : Q) (r : Car) : Car :=
  {| posX := posX r; posZ := posZ r; carVelocity := carVelocity r; carLaneOffset := carLaneOffset r; targetLane := v; currentLaneIndex := currentLaneIndex r; wasAutopilot := wasAutopilot r |}.
Definition set_currentLaneIndex (v : nat) (r : Car) : Car :=
  {| posX := posX r; posZ := posZ r; carVelocity := carVelocity r; carLaneOffset := carLaneOffset r; targetLane := targetLane r; currentLaneIndex := v; wasAutopilot := wasAutopilot r |}.
Definition set_wasAutopilot (v : bool) (r : Car) : Car :=
  {| posX := posX r; posZ := posZ r; carVelocity := carVelocity r; carLaneOffset := carLaneOffset r; targetLane := targetLane r; currentLaneIndex := currentLaneIndex r; wasAutopilot := v |}.

Definition set_kArrowUp (v : bool) (r : Keys) : Keys :=
  {| kArrowUp := v; kArrowDown := kArrowDown r; kArrowLeft := kArrowLeft r; kArrowRight := kArrowRight r |}.
Definition set_kArrowDown (v : bool) (r : Keys) : Keys :=
  {| kArrowUp := kArrowUp r; kArrowDown := v; kArrowLeft := kArrowLeft r; kArrowRight := kArrowRight r |}.
Definition set_kArrowLeft (v : bool) (r : Keys) : Keys :=
  {| kArrowUp := kArrowUp r; kArrowDown := kArrowDown r; kArrowLeft := v; kArrowRight := kArrowRight r |}.
Definition set_kArrowRight (v : bool) (r : Keys) : Keys :=
  {| kArrowUp := kArrowUp r; kArrowDown := kArrowDown r; kArrowLeft := kArrowLeft r; kArrowRight := v |}.

Definition set_finalBlocks (v : list Mesh) (r : Spawner) : Spawner :=
  {| finalBlocks := v; lastBlockSpawnZ := lastBlockSpawnZ r; lastLateBlockSpawnZ := lastLateBlockSpawnZ r; lastFinishBurstSpawnZ := lastFinishBurstSpawnZ r; blockSpawnCount := blockSpawnCount r; nextMeshId := nextMeshId r |}.
Definition set_lastBlockSpawnZ (v : Q) (r : Spawner) : Spawner :=
  {| finalBlocks := finalBlocks r; lastBlockSpawnZ := v; lastLateBlockSpawnZ := lastLateBlockSpawnZ r; lastFinishBurstSpawnZ := lastFinishBurstSpawnZ r; blockSpawnCount := blockSpawnCount r; nextMeshId := nextMeshId r |}.
Definition set_lastLateBlockSpawnZ (v : Q) (r : Spawner) : Spawner :=
  {| finalBlocks := finalBlocks r; lastBlockSpawnZ := lastBlockSpawnZ r; lastLateBlockSpawnZ := v; lastFinishBurstSpawnZ := lastFinishBurstSpawnZ r; blockSpawnCount := blockSpawnCount r; nextMeshId := nextMeshId r |}.
Definition set_lastFinishBurstSpawnZ (v : Q) (r : Spawner) : Spawner :=
  {| finalBlocks := finalBlocks r; lastBlockSpawnZ := lastBlockSpawnZ r; lastLateBlockSpawnZ := lastLateBlockSpawnZ r; lastFinishBurstSpawnZ := v; blockSpawnCount := blockSpawnCount r; nextMeshId := nextMeshId r |}.
Definition set_blockSpawnCount (v : nat) (r : Spawner) : Spawner :=
  {| finalBlocks := finalBlocks r; lastBlockSpawnZ := lastBlockSpawnZ r; lastLateBlockSpawnZ := lastLateBlockSpawnZ r; lastFinishBurstSpawnZ := lastFinishBurstSpawnZ r; blockSpawnCount := v; nextMeshId := nextMeshId r |}.
Definition set_nextMeshId (v : nat) (r : Spawner) : Spawner :=
  {| finalBlocks := finalBlocks r; lastBlockSpawnZ := lastBlockSpawnZ r; lastLateBlockSpawnZ := lastLateBlockSpawnZ r; lastFinishBurstSpawnZ := lastFinishBurstSpawnZ r; blockSpawnCount := blockSpawnCount r; nextMeshId := v |}.

Definition set_frameCount (v : Z) (r : Loop) : Loop :=
  {| frameCount := v; accumulatedTime := accumulatedTime r; lastAnimationTime := lastAnimationTime r; autopilotTimer := autopilotTimer r; autopilotDecision := autopilotDecision r |}.
Definition set_accumulatedTime (v : Q) (r : Loop) : Loop :=
  {| frameCount := frameCount r; accumulatedTime := v; lastAnimationTime := lastAnimationTime r; autopilotTimer := autopilotTimer r; autopilotDecision := autopilotDecision r |}.
Definition set_lastAnimationTime (v : option Q) (r : Loop) : Loop :=
  {| frameCount := frameCount r; accumulatedTime := accumulatedTime r; lastAnimationTime := v; autopilotTimer := autopilotTimer r; autopilotDecision := autopilotDecision r |}.
Definition set_autopilotTimer (v : Q) (r : Loop) : Loop :=
  {| frameCount := frameCount r; accumulatedTime := accumulatedTime r; lastAnimationTime := lastAnimationTime r; autopilotTimer := v; autopilotDecision := autopilotDecision r |}.
Definition set_autopilotDecision (v : nat) (r : Loop) : Loop :=
  {| frameCount := frameCount r; accumulatedTime := accumulatedTime r; lastAnimationTime := lastAnimationTime r; autopilotTimer := autopilotTimer r; autopilotDecision := v |}.

Definition set_lastScoreDeduction (v : Z) (r : TimerVars) : TimerVars :=
  {| lastScoreDeduction := v; lastSecondLogged := lastSecondLogged r; notificationsShown := notificationsShown r; timerCleared := timerCleared r; shuffledIds := shuffledIds r |}.
Definition set_lastSecondLogged (v : Z) (r : TimerVars) : TimerVars :=
  {| lastScoreDeduction := lastScoreDeduction r; lastSecondLogged := v; notificationsShown := notificationsShown r; timerCleared := timerCleared r; shuffledIds := shuffledIds r |}.
Definition set_notificationsShown (v : list nat) (r : TimerVars) : TimerVars :=
  {| lastScoreDeduction := lastScoreDeduction r; lastSecondLogged := lastSecondLogged r; notificationsShown := v; timerCleared := timerCleared r; shuffledIds := shuffledIds r |}.
Definition set_timerCleared (v : bool) (r : TimerVars) : TimerVars :=
  {| lastScoreDeduction := lastScoreDeduction r; lastSecondLogged := lastSecondLogged r; notificationsShown := notificationsShown r; timerCleared := v; shuffledIds := shuffledIds r |}.

Definition set_modeBySecond (v : list ModeBySecond) (r : SimulationData) : SimulationData :=
  {| modeBySecond := v; whiteBlocksHit := whiteBlocksHit r; failureLaneHits := failureLaneHits r; modeByUnit := modeByUnit r; collisionEvents := collisionEvents r; finalScore := finalScore r; sd_notifications := sd_notifications r; notificationsSeen := notificationsSeen r; notificationsTotal := notificationsTotal r; finishLineCrossSecond := finishLineCrossSecond r |}.
Definition set_whiteBlocksHit (v : Z) (r : SimulationData) : SimulationData :=
  {| modeBySecond := modeBySecond r; whiteBlocksHit := v; failureLaneHits := failureLaneHits r; modeByUnit := modeByUnit r; collisionEvents := collisionEvents r; finalScore := finalScore r; sd_notifications := sd_notifications r; notificationsSeen := notificationsSeen r; notificationsTotal := notificationsTotal r; finishLineCrossSecond := finishLineCrossSecond r |}.
Definition set_failureLaneHits (v : Z) (r : SimulationData) : SimulationData :=
  {| modeBySecond := modeBySecond r; whiteBlocksHit := whiteBlocksHit r; failureLaneHits := v; modeByUnit := modeByUnit r; collisionEvents := collisionEvents r; finalScore := finalScore r; sd_notifications := sd_notifications r; notificationsSeen := notificationsSeen r; notificationsTotal := notificationsTotal r; finishLineCrossSecond := finishLineCrossSecond r |}.
Definition set_modeByUnit (v : JsArray Mode) (r : SimulationData) : SimulationData :=
  {| modeBySecond := modeBySecond r; whiteBlocksHit := whiteBlocksHit r; failureLaneHits := failureLaneHits r; modeByUnit := v; collisionEvents := collisionEvents r; finalScore := finalScore r; sd_notifications := sd_notifications r; notificationsSeen := notificationsSeen r; notificationsTotal := notificationsTotal r; finishLineCrossSecond := finishLineCrossSecond r |}.
Definition set_collisionEvents (v : list CollisionEvent) (r : SimulationData) : SimulationData :=
  {| modeBySecond := modeBySecond r; whiteBlocksHit := whiteBlocksHit r; failureLaneHits := failureLaneHits r; modeByUnit := modeByUnit r; collisionEvents := v; finalScore := finalScore r; sd_notifications := sd_notifications r; notificationsSeen := notificationsSeen r; notificationsTotal := notificationsTotal r; finishLineCrossSecond := finishLineCrossSecond r |}.
Definition set_finalScore (v : Z) (r : SimulationData) : SimulationData :=
  {| modeBySecond := modeBySecond r; whiteBlocksHit := whiteBlocksHit r; failureLaneHits := failureLaneHits r; modeByUnit := modeByUnit r; collisionEvents := collisionEvents r; finalScore := v; sd_notifications := sd_notifications r; notificationsSeen := notificationsSeen r; notificationsTotal := notificationsTotal r; finishLineCrossSecond := finishLineCrossSecond r |}.
Definition set_sd_notifications (v : list Notification) (r : SimulationData) : SimulationData :=
  {| modeBySecond := modeBySecond r; whiteBlocksHit := whiteBlocksHit r; failureLaneHits := failureLaneHits r; modeByUnit := modeByUnit r; collisionEvents := collisionEvents r; finalScore := finalScore r; sd_notifications := v; notificationsSeen := notificationsSeen r; notificationsTotal := notificationsTotal r; finishLineCrossSecond := finishLineCrossSecond r |}.
Definition set_notificationsSeen (v : nat) (r : SimulationData) : SimulationData :=
  {| modeBySecond := modeBySecond r; whiteBlocksHit := whiteBlocksHit r; failureLaneHits := failureLaneHits r; modeByUnit := modeByUnit r; collisionEvents := collisionEvents r; finalScore := finalScore r; sd_notifications := sd_notifications r; notificationsSeen := v; notificationsTotal := notificationsTotal r; finishLineCrossSecond := finishLineCrossSecond r |}.
Definition set_notificationsTotal (v : nat) (r : SimulationData) : SimulationData :=
  {| modeBySecond := modeBySecond r; whiteBlocksHit := whiteBlocksHit r; failureLaneHits := failureLaneHits r; modeByUnit := modeByUnit r; collisionEvents := collisionEvents r; finalScore := finalScore r; sd_notifications := sd_notifications r; notificationsSeen := notificationsSeen r; notificationsTotal := v; finishLineCrossSecond := finishLineCrossSecond r |}.
Definition set_finishLineCrossSecond (v : option Z) (r : SimulationData) : SimulationData :=
  {| modeBySecond := modeBySecond r; whiteBlocksHit := whiteBlocksHit r; failureLaneHits := failureLaneHits r; modeByUnit := modeByUnit r; collisionEvents := collisionEvents r; finalScore := finalScore r; sd_notifications := sd_notifications r; notificationsSeen := notificationsSeen r; notificationsTotal := notificationsTotal r; finishLineCrossSecond := v |}.

Definition set_isCompleteRef (v : bool) (r : Refs) : Refs :=
  {| isCompleteRef := v; gameStartedRef := gameStartedRef r; startTimeRef := startTimeRef r; autopilotRef := autopilotRef r; autopilotPendingRef := autopilotPendingRef r; scoreRef := scoreRef r; failureLaneHitsRef := failureLaneHitsRef r; lastDistanceUnitLoggedRef := lastDistanceUnitLoggedRef r; notificationsRef := notificationsRef r |}.
Definition set_gameStartedRef (v : bool) (r : Refs) : Refs :=
  {| isCompleteRef := isCompleteRef r; gameStartedRef := v; startTimeRef := startTimeRef r; autopilotRef := autopilotRef r; autopilotPendingRef := autopilotPendingRef r; scoreRef := scoreRef r; failureLaneHitsRef := failureLaneHitsRef r; lastDistanceUnitLoggedRef := lastDistanceUnitLoggedRef r; notificationsRef := notificationsRef r |}.
Definition set_startTimeRef (v : option Z) (r : Refs) : Refs :=
  {| isCompleteRef := isCompleteRef r; gameStartedRef := gameStartedRef r; startTimeRef := v; autopilotRef := autopilotRef r; autopilotPendingRef := autopilotPendingRef r; scoreRef := scoreRef r; failureLaneHitsRef := failureLaneHitsRef r; lastDistanceUnitLoggedRef := lastDistanceUnitLoggedRef r; notificationsRef := notificationsRef r |}.
Definition set_autopilotRef (v : bool) (r : Refs) : Refs :=
  {| isCompleteRef := isCompleteRef r; gameStartedRef := gameStartedRef r; startTimeRef := startTimeRef r; autopilotRef := v; autopilotPendingRef := autopilotPendingRef r; scoreRef := scoreRef r; failureLaneHitsRef := failureLaneHitsRef r; lastDistanceUnitLoggedRef := lastDistanceUnitLoggedRef r; notificationsRef := notificationsRef r |}.
Definition set_autopilotPendingRef (v : bool) (r : Refs) : Refs :=
  {| isCompleteRef := isCompleteRef r; gameStartedRef := gameStartedRef r; startTimeRef := startTimeRef r; autopilotRef := autopilotRef r; autopilotPendingRef := v; scoreRef := scoreRef r; failureLaneHitsRef := failureLaneHitsRef r; lastDistanceUnitLoggedRef := lastDistanceUnitLoggedRef r; notificationsRef := notificationsRef r |}.
Definition set_scoreRef (v : Z) (r : Refs) : Refs :=
  {| isCompleteRef := isCompleteRef r; gameStartedRef := gameStartedRef r; startTimeRef := startTimeRef r; autopilotRef := autopilotRef r; autopilotPendingRef := autopilotPendingRef r; scoreRef := v; failureLaneHitsRef := failureLaneHitsRef r; lastDistanceUnitLoggedRef := lastDistanceUnitLoggedRef r; notificationsRef := notificationsRef r |}.
Definition set_failureLaneHitsRef (v : Z) (r : Refs) : Refs :=
  {| isCompleteRef := isCompleteRef r; gameStartedRef := gameStartedRef r; startTimeRef := startTimeRef r; autopilotRef := autopilotRef r; autopilotPendingRef := autopilotPendingRef r; scoreRef := scoreRef r; failureLaneHitsRef := v; lastDistanceUnitLoggedRef := lastDistanceUnitLoggedRef r; notificationsRef := notificationsRef r |}.
Definition set_lastDistanceUnitLoggedRef (v : Z) (r : Refs) : Refs :=
  {| isCompleteRef := isCompleteRef r; gameStartedRef := gameStartedRef r; startTimeRef := startTimeRef r; autopilotRef := autopilotRef r; autopilotPendingRef := autopilotPendingRef r; scoreRef := scoreRef r; failureLaneHitsRef := failureLaneHitsRef r; lastDistanceUnitLoggedRef := v; notificationsRef := notificationsRef r |}.
Definition set_notificationsRef (v : list Notification) (r : Refs) : Refs :=
  {| isCompleteRef := isCompleteRef r; gameStartedRef := gameStartedRef r; startTimeRef := startTimeRef r; autopilotRef := autopilotRef r; autopilotPendingRef := autopilotPendingRef r; scoreRef := scoreRef r; failureLaneHitsRef := failureLaneHitsRef r; lastDistanceUnitLoggedRef := lastDistanceUnitLoggedRef r; notificationsRef := v |}.

Definition set_isAutopilot (v : bool) (r : Ui) : Ui :=
  {| isAutopilot := v; isComplete := isComplete r; showInstructions := showInstructions r; showViewAllNotificationsPopup := showViewAllNotificationsPopup r |}.
Definition set_isComplete (v : bool) (r : Ui) : Ui :=
  {| isAutopilot := isAutopilot r; isComplete := v; showInstructions := showInstructions r; showViewAllNotificationsPopup := showViewAllNotificationsPopup r |}.
Definition set_showInstructions (v : bool) (r : Ui) : Ui :=
  {| isAutopilot := isAutopilot r; isComplete := isComplete r; showInstructions := v; showViewAllNotificationsPopup := showViewAllNotificationsPopup r |}.
Definition set_showViewAllNotificationsPopup (v : bool) (r : Ui) : Ui :=
  {| isAutopilot := isAutopilot r; isComplete := isComplete r; showInstructions := showInstructions r; showViewAllNotificationsPopup := v |}.

Definition set_car (v : Car) (r : World) : World :=
  {| car := v; keys := keys r; spawner := spawner r; otherCars := otherCars r; collisionCooldown := collisionCooldown r; finishLineCrossed := finishLineCrossed r; finishLineCrossTime := finishLineCrossTime r; loop := loop r; timerVars := timerVars r; data := data r; refs := refs r; ui := ui r |}.
Definition set_keys (v : Keys) (r : World) : World :=
  {| car := car r; keys := v; spawner := spawner r; otherCars := otherCars r; collisionCooldown := collisionCooldown r; finishLineCrossed := finishLineCrossed r; finishLineCrossTime := finishLineCrossTime r; loop := loop r; timerVars := timerVars r; data := data r; refs := refs r; ui := ui r |}.
Definition set_spawner (v : Spawner) (r : World) : World :=
  {| car := car r; keys := keys r; spawner := v; otherCars := otherCars r; collisionCooldown := collisionCooldown r; finishLineCrossed := finishLineCrossed r; finishLineCrossTime := finishLineCrossTime r; loop := loop r; timerVars := timerVars r; data := data r; refs := refs r; ui := ui r |}.
Definition set_otherCars (v : list Mesh) (r : World) : World :=
  {| car := car r; keys := keys r; spawner := spawner r; otherCars := v; collisionCooldown := collisionCooldown r; finishLineCrossed := finishLineCrossed r; finishLineCrossTime := finishLineCrossTime r; loop := loop r; timerVars := timerVars r; data := data r; refs := refs r; ui := ui r |}.
Definition set_collisionCooldown (v : gmap CooldownKey Z) (r : World) : World :=
  {| car := car r; keys := keys r; spawner := spawner r; otherCars := otherCars r; collisionCooldown := v; finishLineCrossed := finishLineCrossed r; finishLineCrossTime := finishLineCrossTime r; loop := loop r; timerVars := timerVars r; data := data r; refs := refs r; ui := ui r |}.
Definition set_finishLineCrossed (v : bool) (r : World) : World :=
  {| car := car r; keys := keys r; spawner := spawner r; otherCars := otherCars r; collisionCooldown := collisionCooldown r; finishLineCrossed := v; finishLineCrossTime := finishLineCrossTime r; loop := loop r; timerVars := timerVars r; data := data r; refs := refs r; ui := ui r |}.
Definition set_finishLineCrossTime (v : option Z) (r : World) : World :=
  {| car := car r; keys := keys r; spawner := spawner r; otherCars := otherCars r; collisionCooldown := collisionCooldown r; finishLineCrossed := finishLineCrossed r; finishLineCrossTime := v; loop := loop r; timerVars := timerVars r; data := data r; refs := refs r; ui := ui r |}.
Definition set_loop (v : Loop) (r : World) : World :=
  {| car := car r; keys := keys r; spawner := spawner r; otherCars := otherCars r; collisionCooldown := collisionCooldown r; finishLineCrossed := finishLineCrossed r; finishLineCrossTime := finishLineCrossTime r; loop := v; timerVars := timerVars r; data := data r; refs := refs r; ui := ui r |}.
Definition set_timerVars (v : TimerVars) (r : World) : World :=
  {| car := car r; keys := keys r; spawner := spawner r; otherCars := otherCars r; collisionCooldown := collisionCooldown r; finishLineCrossed := finishLineCrossed r; finishLineCrossTime := finishLineCrossTime r; loop := loop r; timerVars := v; data := data r; refs := refs r; ui := ui r |}.
Definition set_data (v : SimulationData) (r : World) : World :=
  {| car := car r; keys := keys r; spawner := spawner r; otherCars := otherCars r; collisionCooldown := collisionCooldown r; finishLineCrossed := finishLineCrossed r; finishLineCrossTime := finishLineCrossTime r; loop := loop r; timerVars := timerVars r; data := v; refs := refs r; ui := ui r |}.
Definition set_refs (v : Refs) (r : World) : World :=
  {| car := car r; keys := keys r; spawner := spawner r; otherCars := otherCars r; collisionCooldown := collisionCooldown r; finishLineCrossed := finishLineCrossed r; finishLineCrossTime := finishLineCrossTime r; loop := loop r; timerVars := timerVars r; data := data r; refs := v; ui := ui r |}.
Definition set_ui (v : Ui) (r : World) : World :=
  {| car := car r; keys := keys r; spawner := spawner r; otherCars := otherCars r; collisionCooldown := collisionCooldown r; finishLineCrossed := finishLineCrossed r; finishLineCrossTime := finishLineCrossTime r; loop := loop r; timerVars := timerVars r; data := data r; refs := refs r; ui := v |}.

Definition with_car (f : Car -> Car) (w : World) : World := set_car (f (car w)) w.
Definition with_keys (f : Keys -> Keys) (w : World) : World := set_keys (f (keys w)) w.
Definition with_spawner (f : Spawner -> Spawner) (w : World) : World := set_spawner (f (spawner w)) w.
Definition with_loop (f : Loop -> Loop) (w : World) : World := set_loop (f (loop w)) w.
Definition with_timerVars (f : TimerVars -> TimerVars) (w : World) : World := set_timerVars (f (timerVars w)) w.
Definition with_data (f : SimulationData -> SimulationData) (w : World) : World := set_data (f (data w)) w.
Definition with_refs (f : Refs -> Refs) (w : World) : World := set_refs (f (refs w)) w.
Definition with_ui (f : Ui -> Ui) (w : World) : World := set_ui (f (ui w)) w.

(** ** Configuration (module-level constants of the build) *)

Definition AUTOPILOT_BLIND_DISTANCE : Q := 1000.
Definition TRACK_LENGTH : Z := 6500.
Definition AUTOPILOT_SPEED_UNITS : Q := 16 # 10.
Definition AUTOPILOT_MAX_MPH : Q := 120.
Definition MANUAL_MAX_MPH : Q := 75.
Definition CAR_UNITS_TO_MPH : Q := AUTOPILOT_MAX_MPH / AUTOPILOT_SPEED_UNITS.
Definition MANUAL_MAX_VELOCITY : Q := MANUAL_MAX_MPH / CAR_UNITS_TO_MPH.
Definition notificationTimes : list Z := [9; 18; 27; 36; 45]%Z.

Definition lanes : list Q := [-2; 0; 2].
Definition finishLineZ : Q := - inject_Z TRACK_LENGTH.
Definition baseBlockSpawnDistance : Q := 140.
Definition FIXED_FPS : Q := 60.
Definition FIXED_DELTA : Q := 1 / FIXED_FPS.
Definition COOLDOWN_TICKS : Z := 60.
Definition TIME_PENALTY : Z := 5.
Definition COLLISION_PENALTY : Z := 10.
Definition INITIAL_SCORE : Z := 1000.

(** [arr[i]] for the small constant tables; every index the code uses is
    in range (a remainder, or a lane index kept below 3). *)
Definition at_index (arr : list Q) (i : nat) : Q := nth i arr 0.
Definition at_cyclic (arr : list Q) (n : nat) : Q := at_index arr (n mod length arr).

Definition modeLabel (w : World) : Mode :=
  if autopilotRef (refs w) then Copilot else Manual.

(** [startTimeRef.current && gameStartedRef.current] *)
Definition clockRunning (w : World) : option Z :=
  match startTimeRef (refs w) with
  | Some t => if negb (t =? 0)%Z && gameStartedRef (refs w) then Some t else None
  | None => None
  end.

(** [elapsed] as computed at the top of a tick and of the timer callback:
    whole seconds since the start, or -1 before the start. *)
Definition elapsedSeconds (dateNow : Z) (w : World) : Z :=
  match clockRunning w with
  | Some t => ((dateNow - t) / 1000)%Z
  | None => (-1)%Z
  end.

(** ** Telemetry helpers *)

(** [for (unit = from; ...; unit++) modeByUnit[unit] = label], [n] iterations. *)
Fixpoint fillUnits (label : Mode) (unit : Z) (n : nat) (arr : JsArray Mode) : JsArray Mode :=
  match n with
  | O => arr
  | S n' => fillUnits label (unit + 1) n' (js_set arr (Z.to_nat unit) label)
  end.

Definition currentDistanceUnit (w : World) : Z :=
  Z.min (Qfloor (Qabs (posZ (car w)))) TRACK_LENGTH.

(** Per-tick logging of the distance units crossed since the last tick. *)
Definition logDistanceUnits (w : World) : World :=
  let cur := currentDistanceUnit w in
  let last := lastDistanceUnitLoggedRef (refs w) in
  if (last <? cur)%Z && (0 <=? cur)%Z then
    with_refs (set_lastDistanceUnitLoggedRef cur)
      (with_data (fun d => set_modeByUnit
         (fillUnits (modeLabel w) (last + 1) (Z.to_nat (cur - last)) (modeByUnit d)) d) w)
  else w.

Definition ensureModeByUnitComplete (w : World) : World :=
  let last := lastDistanceUnitLoggedRef (refs w) in
  if (TRACK_LENGTH <=? last)%Z then w
  else
    with_refs (set_lastDistanceUnitLoggedRef TRACK_LENGTH)
      (with_data (fun d => set_modeByUnit
         (fillUnits (modeLabel w) (last + 1) (Z.to_nat (TRACK_LENGTH - last)) (modeByUnit d)) d) w).

Definition countSeen (ns : list Notification) : nat :=
  length (filter (fun n => n_seen n = true) ns).

Definition captureNotifications (w : World) : World :=
  let ns := notificationsRef (refs w) in
  with_data (fun d =>
    set_notificationsSeen (countSeen ns)
      (set_notificationsTotal (length ns) (set_sd_notifications ns d))) w.

(** First block of the tick body: once the line is crossed, remaining
    blocks are dropped and, if nothing was captured yet, the notification
    summary is taken. *)
Definition clearBlocksAfterFinish (w : World) : World :=
  if finishLineCrossed w && (0 <? length (finalBlocks (spawner w)))%nat then
    let w1 := with_spawner (set_finalBlocks []) w in
    if (notificationsTotal (data w1) =? 0)%nat then captureNotifications w1 else w1
  else w.

(** ** Obstacle spawner *)

Definition pushBlock (x z : Q) (s : Spawner) : Spawner :=
  set_nextMeshId (S (nextMeshId s))
    (set_finalBlocks
       (finalBlocks s ++ [{| mx := x; mz := z; isBlindLane := false; mid := nextMeshId s |}]) s).

Definition distanceTravelled (w : World) : Q := Qabs (posZ (car w)).
Definition distanceToFinish (w : World) : Q := posZ (car w) - finishLineZ.

Definition spawnFar (w : World) : World :=
  let z := posZ (car w) in
  let s := spawner w in
  if Qltb AUTOPILOT_BLIND_DISTANCE (distanceToFinish w) then
    let distanceSinceLastSpawn := Qabs (z - lastBlockSpawnZ s) in
    let dynamicInterval := baseBlockSpawnDistance in
    if Qltb 80 (distanceTravelled w) && Qleb dynamicInterval distanceSinceLastSpawn then
      let spawnDistance := 80 in
      let laneIndex := nth (blockSpawnCount s mod 3) [0; 2; 1]%nat 0%nat in
      let offset := at_cyclic [3; 5; 4; 6; 35 # 10; 55 # 10] (blockSpawnCount s) in
      with_spawner (fun s =>
        set_blockSpawnCount (S (blockSpawnCount s))
          (pushBlock (at_index lanes laneIndex) (z - spawnDistance - offset)
             (set_lastBlockSpawnZ z s))) w
    else w
  else w.

Definition spawnLate (w : World) : World :=
  let z := posZ (car w) in
  let s := spawner w in
  if Qleb (distanceToFinish w) AUTOPILOT_BLIND_DISTANCE && Qltb 300 (distanceToFinish w) then
    let distanceSinceLastLateSpawn := Qabs (z - lastLateBlockSpawnZ s) in
    let dynamicLateInterval := baseBlockSpawnDistance in
    if Qleb dynamicLateInterval distanceSinceLastLateSpawn then
      let spawnDistance := 70 in
      (* possibleLanes = [0, 1, 2]; the lane index itself is used as x *)
      let selectedLane := nth (blockSpawnCount s mod 3) [0; 1; 2]%nat 0%nat in
      let offset := at_cyclic [35 # 10; 5; 45 # 10; 6; 4; 55 # 10] (blockSpawnCount s) in
      with_spawner (fun s =>
        set_blockSpawnCount (S (blockSpawnCount s))
          (pushBlock (inject_Z (Z.of_nat selectedLane)) (z - spawnDistance - offset)
             (set_lastLateBlockSpawnZ z s))) w
    else w
  else w.

Definition spawnBurst (elapsed : Z) (w : World) : World :=
  let z := posZ (car w) in
  let s := spawner w in
  if negb (finishLineCrossed w) && Qltb 0 (distanceToFinish w)
     && Qltb (distanceToFinish w) 300 && (0 <=? elapsed)%Z then
    let distanceSinceLastBurst := Qabs (z - lastFinishBurstSpawnZ s) in
    let dynamicBurstInterval := baseBlockSpawnDistance in
    if Qleb dynamicBurstInterval distanceSinceLastBurst then
      let spawnDistance := 80 in
      (* availableLanes = [0, 1, 2]; numLanesToSpawn = 1 *)
      let laneIndex := nth (blockSpawnCount s mod 3) [0; 1; 2]%nat 0%nat in
      let offset := at_cyclic [3; 5; 4; 6; 35 # 10; 55 # 10] (blockSpawnCount s) in
      with_spawner (fun s =>
        set_blockSpawnCount (S (blockSpawnCount s))
          (pushBlock (at_index lanes laneIndex) (z - spawnDistance - offset)
             (set_lastFinishBurstSpawnZ z s))) w
    else w
  else w.

Definition spawnBlocks (elapsed : Z) (w : World) : World :=
  let w1 :=
    if negb (finishLineCrossed w) && (0 <=? elapsed)%Z
    then spawnLate (spawnFar w) else w in
  spawnBurst elapsed w1.

(** ** Autopilot policy *)

Definition allObstacles (w : World) : list Mesh := otherCars w ++ finalBlocks (spawner w).

Definition relativeZ (w : World) (o : Mesh) : Q := mz o - posZ (car w).
Definition relativeX (w : World) (o : Mesh) : Q := Qabs (mx o - posX (car w)).

(** Engagement of a requested autopilot waits until no obstacle is near. *)
Definition obstacleTooClose (w : World) : bool :=
  existsb (fun o => Qltb (relativeZ w o) 15 && Qltb (-60) (relativeZ w o)
                    && Qltb (relativeX w o) (15 # 10)) (allObstacles w).

Definition autopilotPendingStep (elapsed : Z) (w : World) : World :=
  if negb (autopilotRef (refs w)) && autopilotPendingRef (refs w) && (0 <=? elapsed)%Z then
    if negb (obstacleTooClose w) then
      with_ui (set_isAutopilot true) (with_refs (set_autopilotPendingRef false) w)
    else w
  else w.

Definition initialLaneInfo : list LaneInfo :=
  replicate 3 {| safe := true; nearestObstacle := Infinity |}.

Definition laneAt (info : list LaneInfo) (i : nat) : LaneInfo :=
  nth i info {| safe := true; nearestObstacle := Infinity |}.

(** Body of [for (let i = 0; i < 3; i++)] inside the obstacle scan. *)
Definition scanLane (obstacleX distance : Q) (info : list LaneInfo) (i : nat) : list LaneInfo :=
  let laneCenterX := at_index lanes i in
  let distanceFromLaneCenter := Qabs (obstacleX - laneCenterX) in
  if Qltb distanceFromLaneCenter 2 then
    let li := laneAt info i in
    let li1 := if lt_inf distance (nearestObstacle li)
               then {| safe := safe li; nearestObstacle := Fin distance |} else li in
    let li2 := if Qltb distance 1000
               then {| safe := false; nearestObstacle := nearestObstacle li1 |} else li1 in
    <[i := li2]> info
  else info.

Definition scanObstacle (w : World) (info : list LaneInfo) (o : Mesh) : list LaneInfo :=
  let rz := relativeZ w o in
  if Qltb rz 300 && Qltb (-1200) rz then
    fold_left (scanLane (mx o) (Qabs rz)) [0; 1; 2]%nat info
  else info.

Definition scanObstacles (w : World) : list LaneInfo :=
  fold_left (scanObstacle w) (allObstacles w) initialLaneInfo.

(** "Find the lane with the most clearance". *)
Definition mostClearance (info : list LaneInfo) (current : nat) : nat :=
  fst (fold_left
         (fun (acc : nat * QInf) i =>
            if inf_gt_inf (nearestObstacle (laneAt info i)) (snd acc)
            then (i, nearestObstacle (laneAt info i)) else acc)
         [0; 1; 2]%nat (current, nearestObstacle (laneAt info current))).

(** "If current lane is unsafe, switch immediately to safest lane":
    the first safe lane, if there is one. *)
Definition firstSafe (info : list LaneInfo) : option nat :=
  find (fun i => safe (laneAt info i)) [0; 1; 2]%nat.

Definition chooseLane (info : list LaneInfo) (current : nat) : nat :=
  let bestLane := mostClearance info current in
  let bestLane :=
    if negb (safe (laneAt info current)) then
      match firstSafe info with Some i => i | None => bestLane end
    else bestLane in
  if inf_gt (nearestObstacle (laneAt info 1)) 800
     && inf_gt (nearestObstacle (laneAt info bestLane)) 800
  then 1%nat else bestLane.

Definition immediateObstacleAhead (w : World) : bool :=
  existsb (fun o => Qltb (relativeZ w o) 30 && Qltb (-80) (relativeZ w o)
                    && Qltb (relativeX w o) (15 # 10)) (allObstacles w).

(** The two braking updates and the cruise update of the autopilot. *)
Definition emergencyBrake (v : Q) : Q := Qmax (v - (6 # 100) * 1) (2 # 10).
Definition lightBrake (v : Q) : Q := Qmax (v - (2 # 100) * 1) (4 # 10).
Definition cruise (v : Q) : Q :=
  let autopilotSpeed := AUTOPILOT_SPEED_UNITS in
  if Qltb v autopilotSpeed then Qmin (v + (5 # 100) * 1) autopilotSpeed
  else if Qltb autopilotSpeed v then Qmax (v - (5 # 100) * 1) autopilotSpeed
  else v.

Inductive SpeedDecision := EmergencyBrake | LightBrake | Cruise.

Definition speedDecision (w : World) (info : list LaneInfo) (bestLane : nat) : SpeedDecision :=
  let emergencyStop := false in
  let bestLaneInfo := laneAt info bestLane in
  let shouldEmergencyBrake :=
    emergencyStop || (negb (safe bestLaneInfo) && inf_lt (nearestObstacle bestLaneInfo) 60) in
  if shouldEmergencyBrake then EmergencyBrake
  else if immediateObstacleAhead w then LightBrake
  else Cruise.

Definition applySpeed (d : SpeedDecision) (v : Q) : Q :=
  match d with
  | EmergencyBrake => emergencyBrake v
  | LightBrake => lightBrake v
  | Cruise => cruise v
  end.

Definition autopilotControl (w : World) : World :=
  let info := scanObstacles w in
  let bestLane := chooseLane info (currentLaneIndex (car w)) in
  let d := speedDecision w info bestLane in
  let w1 := with_loop (fun l =>
              set_autopilotDecision bestLane
                (set_autopilotTimer (autopilotTimer l + FIXED_DELTA) l)) w in
  with_car (fun c =>
    let c1 := set_carVelocity (applySpeed d (carVelocity c)) (set_wasAutopilot true c) in
    if negb (bestLane =? currentLaneIndex c1)%nat
    then set_targetLane (at_index lanes bestLane) (set_currentLaneIndex bestLane c1)
    else c1) w1.

(** ** Manual input mapper *)

Definition manualControl (w : World) : World :=
  if gameStartedRef (refs w) then
    let c := car w in
    let k := keys w in
    let v0 := carVelocity c in
    let v1 := if wasAutopilot c then Qmin v0 MANUAL_MAX_VELOCITY else v0 in
    let v2 := if Qltb v1 MANUAL_MAX_VELOCITY
              then Qmin (v1 + (5 # 1000) * 1) MANUAL_MAX_VELOCITY else v1 in
    let v3 := if kArrowUp k then Qmin (v2 + (8 # 1000) * 1) MANUAL_MAX_VELOCITY else v2 in
    let v4 := if kArrowDown k then Qmax (v3 - (25 # 1000) * 1) 0 else v3 in
    let c1 := set_carVelocity v4 (set_wasAutopilot false c) in
    let goLeft := kArrowLeft k && (0 <? currentLaneIndex c1)%nat in
    let c2 := if goLeft
              then set_targetLane (at_index lanes (currentLaneIndex c1 - 1))
                     (set_currentLaneIndex (currentLaneIndex c1 - 1) c1)
              else c1 in
    let k1 := if goLeft then set_kArrowLeft false k else k in
    let goRight := kArrowRight k1 && (currentLaneIndex c2 <? 2)%nat in
    let c3 := if goRight
              then set_targetLane (at_index lanes (currentLaneIndex c2 + 1))
                     (set_currentLaneIndex (currentLaneIndex c2 + 1) c2)
              else c2 in
    let k2 := if goRight then set_kArrowRight false k1 else k1 in
    set_keys k2 (set_car c3 w)
  else with_car (set_carVelocity 0) w.

Definition control (elapsed : Z) (w : World) : World :=
  if autopilotRef (refs w) && (0 <=? elapsed)%Z && negb (finishLineCrossed w)
  then autopilotControl w
  else manualControl w.

(** ** Motion integrator *)

Definition laneChangeFactor (w : World) : Q :=
  let laneChangeEase := if autopilotRef (refs w) then 2 # 10 else 1 # 10 in
  Qmin (laneChangeEase * 1) 1.

Definition move (w : World) : World :=
  let f := laneChangeFactor w in
  with_car (fun c =>
    let offset := carLaneOffset c + (targetLane c - carLaneOffset c) * f in
    set_posZ (posZ c - carVelocity c * 1) (set_posX offset (set_carLaneOffset offset c))) w.

(** ** Collision detector *)

(** [!collisionCooldown.has(key) || frameCount - collisionCooldown.get(key) > 60] *)
Definition cooldownExpired (key : CooldownKey) (w : World) : bool :=
  match collisionCooldown w !! key with
  | None => true
  | Some t => (COOLDOWN_TICKS <? frameCount (loop w) - t)%Z
  end.

Definition collisionUnit (w : World) : Z :=
  Z.min (Qfloor (Qabs (posZ (car w)))) TRACK_LENGTH.

Definition deductCollision (w : World) : World :=
  with_refs (fun r => set_scoreRef (Z.max 0 (scoreRef r - COLLISION_PENALTY)) r) w.

Definition pushCollisionEvent (ty : ObstacleType) (o : Mesh) (w : World) : World :=
  with_data (fun d => set_collisionEvents
    (collisionEvents d ++
       [{| ev_unit := collisionUnit w; ev_mode := modeLabel w;
           ev_lane := currentLaneIndex (car w); ev_z := posZ (car w);
           ev_type := ty;
           ev_isBlindLane := match ty with BlockHit => isBlindLane o | TrafficHit => false end;
           ev_tick := frameCount (loop w); ev_obstacle := mid o |}]) d) w.

Definition setCooldown (key : CooldownKey) (w : World) : World :=
  set_collisionCooldown (<[key := frameCount (loop w)]> (collisionCooldown w)) w.

(** Body of [otherCars.forEach((car, index) => ...)]: the updated mesh and
    the world after the callback. *)
Definition trafficStep (index : nat) (o : Mesh) (w : World) : Mesh * World :=
  let o1 := {| mx := mx o; mz := mz o + (3 # 100) * 1; isBlindLane := isBlindLane o; mid := mid o |} in
  let respawn := Qltb (posZ (car w) + 150) (mz o1) in
  let o2 := if respawn
            then {| mx := at_index lanes (nth (index mod 3) [0; 2; 1]%nat 0%nat);
                    mz := posZ (car w) - 800 - inject_Z (Z.of_nat index) * 500;
                    isBlindLane := isBlindLane o1; mid := mid o1 |}
            else o1 in
  let w1 := if respawn
            then set_collisionCooldown (delete (inl index) (collisionCooldown w)) w
            else w in
  if finishLineCrossed w1 then (o2, w1)
  else
    let dx := Qabs (mx o2 - posX (car w1)) in
    let dz := Qabs (mz o2 - posZ (car w1)) in
    if Qltb dx (13 # 10) && Qltb dz (25 # 10) && cooldownExpired (inl index) w1
    then (o2, setCooldown (inl index) (pushCollisionEvent TrafficHit o2 (deductCollision w1)))
    else (o2, w1).

Fixpoint trafficLoop (index : nat) (cars : list Mesh) (w : World) : list Mesh * World :=
  match cars with
  | [] => ([], w)
  | o :: rest =>
      let '(o', w1) := trafficStep index o w in
      let '(rest', w2) := trafficLoop (S index) rest w1 in
      (o' :: rest', w2)
  end.

Definition traffic (w : World) : World :=
  let '(cars, w1) := trafficLoop 0 (otherCars w) w in
  set_otherCars cars w1.

Definition blockHit (i : nat) (b : Mesh) (w : World) : World :=
  let w1 := pushCollisionEvent BlockHit b (deductCollision w) in
  let w2 := with_data (fun d => set_whiteBlocksHit (whiteBlocksHit d + 1)%Z d) w1 in
  let w3 := if isBlindLane b
            then let n := (failureLaneHitsRef (refs w2) + 1)%Z in
                 with_data (set_failureLaneHits n) (with_refs (set_failureLaneHitsRef n) w2)
            else w2 in
  setCooldown (inr i) w3.

(** [for (let i = finalBlocks.length - 1; i >= 0; i--)], on the array
    reversed: the head is the element at index [length rest].  A block far
    behind is spliced out, which leaves the indices still to be visited as
    they were.  Returns the surviving blocks, reversed. *)
Fixpoint blocksLoop (reversed : list Mesh) (w : World) : list Mesh * World :=
  match reversed with
  | [] => ([], w)
  | b :: rest =>
      let i := length rest in
      if Qltb (posZ (car w) + 200) (mz b) then blocksLoop rest w
      else
        let dx := Qabs (mx b - posX (car w)) in
        let dz := Qabs (mz b - posZ (car w)) in
        let w1 := if Qltb dx (18 # 10) && Qltb dz 3 && cooldownExpired (inr i) w
                  then blockHit i b w else w in
        let '(kept, w2) := blocksLoop rest w1 in
        (b :: kept, w2)
  end.

Definition blocks (w : World) : World :=
  if negb (finishLineCrossed w) then
    let '(kept, w1) := blocksLoop (rev (finalBlocks (spawner w))) w in
    with_spawner (set_finalBlocks (rev kept)) w1
  else w.

(** ** Completion detector *)

Definition allNotificationsSeen (w : World) : bool :=
  let currentNotifications := notificationsRef (refs w) in
  (0 <? length currentNotifications)%nat && forallb n_seen currentNotifications.

(** The body shared by both "complete the simulation" branches. *)
Definition completeSimulation (w : World) : World :=
  let w1 := with_data (fun d =>
              set_failureLaneHits (failureLaneHitsRef (refs w))
                (set_finalScore (scoreRef (refs w)) d)) w in
  let w2 := captureNotifications (ensureModeByUnitComplete w1) in
  let w3 := with_spawner (set_finalBlocks []) w2 in
  with_ui (fun u => set_showViewAllNotificationsPopup false (set_isComplete true u))
    (with_timerVars (set_timerCleared true) w3).

(** "Check finish line crossing". *)
Definition crossLine (dateNow : Z) (w : World) : World :=
  if Qleb (posZ (car w)) finishLineZ && negb (isCompleteRef (refs w))
     && negb (finishLineCrossed w) then
    let w' := set_finishLineCrossTime (Some dateNow) (set_finishLineCrossed true w) in
    let w' := with_data (set_finishLineCrossSecond
                           (match clockRunning w with
                            | Some t => Some (dateNow - t)%Z
                            | None => None
                            end)) w' in
    if allNotificationsSeen w' then completeSimulation w'
    else with_ui (set_showViewAllNotificationsPopup true) w'
  else w.

(** "Check if all notifications are now seen (after finish line crossed)". *)
Definition completeWhenSeen (w : World) : World :=
  if finishLineCrossed w && negb (isCompleteRef (refs w)) then
    if allNotificationsSeen w then completeSimulation w else w
  else w.

Definition finishLine (dateNow : Z) (w : World) : World :=
  completeWhenSeen (crossLine dateNow w).

(** "Stop car after 5 seconds of coasting past finish line". *)
Definition coast (dateNow : Z) (w : World) : World :=
  match finishLineCrossTime w with
  | Some t =>
      if finishLineCrossed w && negb (t =? 0)%Z && isCompleteRef (refs w)
         && (5000 <=? dateNow - t)%Z
      then with_car (set_carVelocity 0) w else w
  | None => w
  end.

(** ** The fixed-step loop *)

Definition endOfStep (w : World) : World :=
  with_loop (fun l => set_accumulatedTime (accumulatedTime l - FIXED_DELTA) l) w.

(** One iteration of [while (accumulatedTime >= FIXED_DELTA)]; [dateNow] is
    what [Date.now()] returns during the iteration. *)
Definition tick (dateNow : Z) (w : World) : World :=
  let w := with_loop (fun l => set_frameCount (frameCount l + 1)%Z l) w in
  let elapsed := elapsedSeconds dateNow w in
  if negb (gameStartedRef (refs w)) then
    endOfStep (with_car (set_carVelocity 0) w)
  else
    let w := clearBlocksAfterFinish w in
    let w := logDistanceUnits w in
    let w := spawnBlocks elapsed w in
    let w := autopilotPendingStep elapsed w in
    let w := control elapsed w in
    let w := move w in
    let w := traffic w in
    let w := blocks w in
    let w := finishLine dateNow w in
    let w := coast dateNow w in
    endOfStep w.

(** The [while] loop with a bound on the number of iterations; [clock k] is
    the reading of [Date.now()] in the iteration that makes [frameCount]
    equal to [k]. *)
Fixpoint drain (fuel : nat) (clock : Z -> Z) (w : World) : World :=
  match fuel with
  | O => w
  | S fuel' =>
      if Qleb FIXED_DELTA (accumulatedTime (loop w))
      then drain fuel' clock (tick (clock (frameCount (loop w) + 1)%Z) w)
      else w
  end.

(** Iterations the loop needs from a given accumulator. *)
Definition ticksDue (acc : Q) : nat := Z.to_nat (Qfloor (acc / FIXED_DELTA)).

(** The [requestAnimationFrame] callback; [now] is [performance.now()]. *)
Definition animate (now : Q) (clock : Z -> Z) (w : World) : World :=
  match lastAnimationTime (loop w) with
  | None => with_loop (set_lastAnimationTime (Some now)) w
  | Some last =>
      let realDeltaMs := now - last in
      let w1 := with_loop (fun l =>
                  set_accumulatedTime (accumulatedTime l + realDeltaMs / 1000)
                    (set_lastAnimationTime (Some now) l)) w in
      drain (ticksDue (accumulatedTime (loop w1))) clock w1
  end.

(** ** The interval timer (every 100 ms while the host lets it run) *)

Definition newNotification (id : nat) (arrival : option Z) : Notification :=
  {| n_id := id; n_seen := false; arrivalSecond := arrival; clickedSecond := None |}.

(** Body of [notificationTimes.forEach((notifTime, index) => ...)]. *)
Definition triggerNotification (dateNow elapsed : Z) (w : World) (entry : nat * Z) : World :=
  let '(index, notifTime) := entry in
  if (elapsed =? notifTime)%Z && negb (existsb (Nat.eqb index) (notificationsShown (timerVars w))) then
    let notifId := nth index (shuffledIds (timerVars w)) 0%nat in
    let arrival := match startTimeRef (refs w) with
                   | Some t => if (t =? 0)%Z then None else Some (dateNow - t)%Z
                   | None => None
                   end in
    with_refs (fun r => set_notificationsRef
                 (notificationsRef r ++ [newNotification notifId arrival]) r)
      (with_timerVars (fun t => set_notificationsShown (index :: notificationsShown t) t) w)
  else w.

Definition indexed {A} (l : list A) : list (nat * A) := combine (seq 0 (length l)) l.

(** "Time-based score deduction: -5 points per second". *)
Definition timeDeduction (dateNow : Z) (w : World) : World :=
  let now := dateNow in
  let w1 := if (lastScoreDeduction (timerVars w) =? 0)%Z
            then with_timerVars (set_lastScoreDeduction now) w else w in
  if (1000 <=? now - lastScoreDeduction (timerVars w1))%Z then
    with_timerVars (set_lastScoreDeduction now)
      (with_refs (fun r => set_scoreRef (Z.max 0 (scoreRef r - TIME_PENALTY)) r) w1)
  else w1.

Definition logSecond (elapsed : Z) (w : World) : World :=
  if negb (elapsed =? lastSecondLogged (timerVars w))%Z then
    with_timerVars (set_lastSecondLogged elapsed)
      (with_data (fun d => set_modeBySecond
         (modeBySecond d ++ [{| second := elapsed; mbs_mode := modeLabel w |}]) d) w)
  else w.

Definition timerInterval (dateNow : Z) (w : World) : World :=
  if timerCleared (timerVars w) then w
  else
    match clockRunning w with
    | None => w
    | Some t =>
        if isCompleteRef (refs w) then w
        else
          let elapsed := ((dateNow - t) / 1000)%Z in
          let w1 := fold_left (triggerNotification dateNow elapsed) (indexed notificationTimes) w in
          let w2 := logSecond elapsed w1 in
          timeDeduction dateNow w2
    end.

(** ** Handlers of the user interface and of React *)

Definition setKey (k : Key) (v : bool) (ks : Keys) : Keys :=
  match k with
  | ArrowUp => set_kArrowUp v ks
  | ArrowDown => set_kArrowDown v ks
  | ArrowLeft => set_kArrowLeft v ks
  | ArrowRight => set_kArrowRight v ks
  end.

Definition handleKeyDown (k : Key) (w : World) : World := with_keys (setKey k true) w.
Definition handleKeyUp (k : Key) (w : World) : World := with_keys (setKey k false) w.

Definition emptyData : SimulationData :=
  {| modeBySecond := []; whiteBlocksHit := 0; failureLaneHits := 0; modeByUnit := [];
     collisionEvents := []; finalScore := 0; sd_notifications := [];
     notificationsSeen := 0; notificationsTotal := 0; finishLineCrossSecond := None |}.

(** [startGame]: the button of the instruction screen, which is on screen
    only while [showInstructions] holds. *)
Definition startGame (w : World) : World :=
  if showInstructions (ui w) then
    let w1 := with_ui (fun u =>
                set_showViewAllNotificationsPopup false
                  (set_isAutopilot true (set_showInstructions false u))) w in
    let w2 := with_refs (fun r =>
                set_lastDistanceUnitLoggedRef (-1)
                  (set_failureLaneHitsRef 0
                     (set_notificationsRef []
                        (set_autopilotPendingRef false (set_autopilotRef true r))))) w1 in
    set_data emptyData w2
  else w.

(** The end of the 3-2-1-Go countdown: the run starts and the score is
    reset.  The countdown is set up by [startGame], so this callback exists
    only once the instruction screen is gone. *)
Definition countdownDone (dateNow : Z) (w : World) : World :=
  if showInstructions (ui w) then w
  else
    with_refs (fun r =>
      set_scoreRef INITIAL_SCORE
        (set_startTimeRef (Some dateNow) (set_gameStartedRef true r))) w.

(** [handleToggleAutopilot]: its button is on screen while
    [!isComplete && gameStarted]. *)
Definition handleToggleAutopilot (w : World) : World :=
  if negb (isComplete (ui w)) && gameStartedRef (refs w) then
    if isAutopilot (ui w) || autopilotPendingRef (refs w) then
      with_ui (set_isAutopilot false)
        (with_refs (fun r => set_autopilotPendingRef false (set_autopilotRef false r)) w)
    else with_refs (set_autopilotPendingRef true) w
  else w.

(** Click on a notification icon: the first click marks it seen. *)
Definition markSeen (dateNow : Z) (id : nat) (w : World) (n : Notification) : Notification :=
  if (n_id n =? id)%nat && negb (n_seen n) then
    {| n_id := n_id n; n_seen := true; arrivalSecond := arrivalSecond n;
       clickedSecond := match clockRunning w with
                        | Some t => Some (dateNow - t)%Z
                        | None => None
                        end |}
  else n.

Definition clickNotification (dateNow : Z) (id : nat) (w : World) : World :=
  if gameStartedRef (refs w) then
    with_refs (fun r => set_notificationsRef (map (markSeen dateNow id w) (notificationsRef r)) r) w
  else w.

(** The effects [autopilotRef.current = isAutopilot] and
    [isCompleteRef.current = isComplete], run after a render. *)
Definition runEffects (w : World) : World :=
  with_refs (fun r =>
    set_isCompleteRef (isComplete (ui w)) (set_autopilotRef (isAutopilot (ui w)) r)) w.

(** ** Runs *)

Inductive Event :=
| Frame (now : Q) (dateNow : Z)      (* animation frame *)
| Timer (dateNow : Z)                (* interval timer *)
| KeyDown (k : Key)
| KeyUp (k : Key)
| StartGame
| CountdownDone (dateNow : Z)
| ToggleAutopilot
| ClickNotification (dateNow : Z) (id : nat)
| Effects.

Definition step (w : World) (e : Event) : World :=
  match e with
  | Frame now dateNow => animate now (fun _ => dateNow) w
  | Timer dateNow => timerInterval dateNow w
  | KeyDown k => handleKeyDown k w
  | KeyUp k => handleKeyUp k w
  | StartGame => startGame w
  | CountdownDone dateNow => countdownDone dateNow w
  | ToggleAutopilot => handleToggleAutopilot w
  | ClickNotification dateNow id => clickNotification dateNow id w
  | Effects => runEffects w
  end.

Definition run (es : list Event) (w : World) : World := fold_left step es w.

(** The state right after mounting, once the mount effects have run. *)
Definition mounted (ids : list nat) : World :=
  {| car := {| posX := 0; posZ := 0; carVelocity := 0; carLaneOffset := 0; targetLane := 0;
               currentLaneIndex := 1; wasAutopilot := false |};
     keys := {| kArrowUp := false; kArrowDown := false; kArrowLeft := false; kArrowRight := false |};
     spawner := {| finalBlocks := []; lastBlockSpawnZ := 0; lastLateBlockSpawnZ := 0;
                   lastFinishBurstSpawnZ := 0; blockSpawnCount := 0; nextMeshId := 2 |};
     otherCars := [ {| mx := at_index lanes 0; mz := -400; isBlindLane := false; mid := 0 |};
                    {| mx := at_index lanes 2; mz := -1200; isBlindLane := false; mid := 1 |} ];
     collisionCooldown := ∅;
     finishLineCrossed := false;
     finishLineCrossTime := None;
     loop := {| frameCount := 0; accumulatedTime := 0; lastAnimationTime := None;
                autopilotTimer := 0; autopilotDecision := 1 |};
     timerVars := {| lastScoreDeduction := 0; lastSecondLogged := -1; notificationsShown := [];
                     timerCleared := false; shuffledIds := ids |};
     data := emptyData;
     refs := {| isCompleteRef := false; gameStartedRef := false; startTimeRef := None;
                autopilotRef := true; autopilotPendingRef := false; scoreRef := 1000;
                failureLaneHitsRef := 0; lastDistanceUnitLoggedRef := -1; notificationsRef := [] |};
     ui := {| isAutopilot := true; isComplete := false; showInstructions := true;
              showViewAllNotificationsPopup := false |} |}.

(** ** Other builds *)

(** The 45-second build ([src/unnamed/part_001]): its timer catches up on
    every whole second that went by since the last deduction. *)
Module Timed.

Definition TIME_PENALTY : Z := 10.

(** The score bookkeeping at the end of its [timerInterval], on the pair
    ([lastScoreDeduction], [scoreRef.current]). *)
Definition timeDeduction (now : Z) (st : Z * Z) : Z * Z :=
  let '(lastScoreDeduction, score) := st in
  let lastScoreDeduction := if (lastScoreDeduction =? 0)%Z then now else lastScoreDeduction in
  let timeSinceLastDeduction := (now - lastScoreDeduction)%Z in
  if (1000 <=? timeSinceLastDeduction)%Z then
    let secondsPassed := (timeSinceLastDeduction / 1000)%Z in
    let pointsToDeduct := (TIME_PENALTY * secondsPassed)%Z in
    ((now - timeSinceLastDeduction mod 1000)%Z, Z.max 0 (score - pointsToDeduct))
  else (lastScoreDeduction, score).

End Timed.

(** The earliest build (first document of [src/unnamed/part_000]): one
    update per animation frame, random spawns, and a "blind zone" before
    the finish line in which the autopilot swerves.  Only what moves the
    vehicle sideways is kept: the lane the clearance policy picks outside
    the blind zone is an input (the policy always yields 0, 1 or 2), and so
    are the two [Math.random()] draws of a blind frame. *)
Module Legacy.

Record Lateral := {
  carLaneOffset : Q;
  targetLane : Q;
  currentLaneIndex : nat;
  autopilotTimer : nat
}.

Record Input := {
  autopilot : bool;          (* autopilotRef.current *)
  elapsedOk : bool;          (* elapsed >= 0 *)
  approachingFinish : bool;
  laneDraw : Q;              (* Math.random() for the lane, in [0, 1) *)
  driftDraw : Q;             (* Math.random() for the drift, in [0, 1) *)
  bestLane : nat;            (* the lane chosen outside the blind zone *)
  keyA : bool;               (* keys.a *)
  keyD : bool                (* keys.d *)
}.

Definition validInput (i : Input) : Prop :=
  0 <= laneDraw i /\ laneDraw i < 1 /\ 0 <= driftDraw i /\ driftDraw i < 1
  /\ (bestLane i <= 2)%nat.

Definition toLane (index : nat) (s : Lateral) : Lateral :=
  {| carLaneOffset := carLaneOffset s; targetLane := at_index lanes index;
     currentLaneIndex := index; autopilotTimer := autopilotTimer s |}.

Definition setOffset (o : Q) (s : Lateral) : Lateral :=
  {| carLaneOffset := o; targetLane := targetLane s;
     currentLaneIndex := currentLaneIndex s; autopilotTimer := autopilotTimer s |}.

(** The blind-zone branch: a random lane every 45 frames, and a random
    drift clamped to [-2.5, 2.5] on every frame. *)
Definition blindDrift (i : Input) (s : Lateral) : Lateral :=
  let s1 := if (autopilotTimer s mod 45 =? 0)%nat
            then toLane (Z.to_nat (Qfloor (laneDraw i * 3))) s else s in
  let randomDrift := (driftDraw i - (1 # 2)) * (8 # 100) in
  setOffset (Qmax (Qmin (carLaneOffset s1 + randomDrift) (25 # 10)) (- (25 # 10))) s1.

Definition autopilotLane (i : Input) (s : Lateral) : Lateral :=
  let s0 := {| carLaneOffset := carLaneOffset s; targetLane := targetLane s;
               currentLaneIndex := currentLaneIndex s;
               autopilotTimer := S (autopilotTimer s) |} in
  let s1 := if approachingFinish i then blindDrift i s0 else s0 in
  let decision := if approachingFinish i then currentLaneIndex s1 else bestLane i in
  if negb (decision =? currentLaneIndex s1)%nat then toLane decision s1 else s1.

Definition manualLane (i : Input) (s : Lateral) : Lateral :=
  let s1 := if keyA i && (0 <? currentLaneIndex s)%nat
            then toLane (currentLaneIndex s - 1) s else s in
  if keyD i && (currentLaneIndex s1 <? 2)%nat
  then toLane (currentLaneIndex s1 + 1) s1 else s1.

(** The sideways part of one animation frame. *)
Definition lateralStep (s : Lateral) (i : Input) : Lateral :=
  let s1 := if autopilot i && elapsedOk i then autopilotLane i s else manualLane i s in
  let laneChangeEase := if autopilot i then 2 # 10 else 1 # 10 in
  setOffset (carLaneOffset s1 + (targetLane s1 - carLaneOffset s1) * laneChangeEase) s1.

Definition initial : Lateral :=
  {| carLaneOffset := 0; targetLane := 0; currentLaneIndex := 1; autopilotTimer := 0 |}.

Definition bounded (s : Lateral) : Prop :=
  - (25 # 10) <= carLaneOffset s /\ carLaneOffset s <= 25 # 10
  /\ -2 <= targetLane s /\ targetLane s <= 2
  /\ (currentLaneIndex s <= 2)%nat.

(** What one blind-zone frame with a drift draw of 0.99 makes of a lower
    bound on the offset, for a vehicle heading for lane 2 (used to follow
    a concrete run without computing its exact fractions). *)
Definition driftFloor (lo : Q) : Q :=
  (8 # 10) * (lo + ((99 # 100) - (1 # 2)) * (8 # 100)) + (4 # 10).

(** An autopilot frame outside the blind zone that settles on lane 2. *)
Definition pickRight : Input :=
  {| autopilot := true; elapsedOk := true; approachingFinish := false;
     laneDraw := 0; driftDraw := 0; bestLane := 2; keyA := false; keyD := false |}.

(** A blind-zone frame whose drift draw is 0.99. *)
Definition blindRight : Input :=
  {| autopilot := true; elapsedOk := true; approachingFinish := true;
     laneDraw := 0; driftDraw := 99 # 100; bestLane := 1; keyA := false; keyD := false |}.

End Legacy.

(** ** Notions used to state the properties *)

(** The world as [control] finds it inside a tick. *)
Definition beforeControl (dateNow : Z) (w : World) : World :=
  let w := with_loop (fun l => set_frameCount (frameCount l + 1)%Z l) w in
  let elapsed := elapsedSeconds dateNow w in
  autopilotPendingStep elapsed
    (spawnBlocks elapsed (logDistanceUnits (clearBlocksAfterFinish w))).

(** The tick runs the autopilot branch. *)
Definition autopilotDrives (dateNow : Z) (w : World) : bool :=
  let wc := beforeControl dateNow w in
  gameStartedRef (refs w) && autopilotRef (refs wc)
  && (0 <=? elapsedSeconds dateNow w)%Z && negb (finishLineCrossed wc).

(** The speed decision the autopilot takes in that tick. *)
Definition decisionOf (dateNow : Z) (w : World) : SpeedDecision :=
  let wc := beforeControl dateNow w in
  let info := scanObstacles wc in
  speedDecision wc info (chooseLane info (currentLaneIndex (car wc))).

(** A started run with one block placed by hand. *)
Definition started (ids : list nat) (dateNow : Z) : World :=
  run [StartGame; CountdownDone dateNow] (mounted ids).

Definition withBlocks (bs : list Mesh) (w : World) : World :=
  with_spawner (set_finalBlocks bs) w.

Definition completeRef (w : World) : bool := isCompleteRef (refs w).

(** The three loop variables that only [animate] and the loop head and
    tail touch. *)
Definition stepper (w : World) : Z * Q * option Q :=
  (frameCount (loop w), accumulatedTime (loop w), lastAnimationTime (loop w)).

(** A started run in autopilot with a block 20 units ahead in the
    vehicle's lane. *)
Definition brakingScene : World :=
  withBlocks [{| mx := 0; mz := -20; isBlindLane := false; mid := 2 |}]
    (started [1; 2; 3; 4; 5]%nat 1000).

(** Ticks executed by one animation callback. *)
Definition ticksRun (now : Q) (clock : Z -> Z) (w : World) : Z :=
  (frameCount (loop (animate now clock w)) - frameCount (loop w))%Z.

(** The accumulator as the [while] loop of a callback finds it. *)
Definition accumulatedAt (now : Q) (w : World) : Q :=
  match lastAnimationTime (loop w) with
  | None => accumulatedTime (loop w)
  | Some last => accumulatedTime (loop w) + (now - last) / 1000
  end.

(** A mounted simulator whose first (baseline) animation frame came at
    time 0. *)
Definition baseline : World := animate 0 (fun _ => 0%Z) (mounted [1; 2; 3; 4; 5]%nat).

Definition scoreOf (w : World) : Z := scoreRef (refs w).

(** From [w] to [w'] the score did not go up and did not go below zero. *)
Definition scoreDecays (w w' : World) : Prop :=
  (0 <= scoreOf w -> 0 <= scoreOf w' <= scoreOf w)%Z.

(** Events other than the start of the run (the end of the countdown). *)
Definition isRunStart (e : Event) : bool :=
  match e with CountdownDone _ => true | _ => false end.

(** The fields that gate completion. *)
Definition gate (w : World) : bool * list Notification * bool * bool * bool :=
  (isComplete (ui w), notificationsRef (refs w), timerCleared (timerVars w),
   isCompleteRef (refs w), finishLineCrossed w).

(** The vehicle is at or past the finish line, or was so at an earlier tick. *)
Definition distanceReached (w : World) : bool :=
  finishLineCrossed w || Qleb (posZ (car w)) finishLineZ.

(** "Every notification that has arrived is marked seen". *)
Definition everyArrivedSeen (w : World) : bool := forallb n_seen (notificationsRef (refs w)).

(** A started run whose vehicle stands one tick before the finish line,
    with the distance log written up to there. *)
Definition nearFinish (ns : list Notification) : World :=
  let w := started [1; 2; 3; 4; 5]%nat 1000 in
  with_refs (fun r => set_notificationsRef ns (set_lastDistanceUnitLoggedRef 6499 r))
    (with_data (set_modeByUnit (replicate (Z.to_nat 6500) (Some Copilot)))
       (with_car (fun c => set_carVelocity (16 # 10) (set_posZ (-(64995 # 10)) c)) w)).

Definition seenNotification : Notification :=
  {| n_id := 1; n_seen := true; arrivalSecond := Some 9000%Z; clickedSecond := Some 12000%Z |}.

Definition unseenNotification : Notification :=
  {| n_id := 2; n_seen := false; arrivalSecond := Some 18000%Z; clickedSecond := None |}.

(** The fields that the distance log and its completeness depend on. *)
Definition logGate (w : World) : Z * JsArray Mode * bool * bool * bool :=
  (lastDistanceUnitLoggedRef (refs w), modeByUnit (data w), isComplete (ui w),
   showInstructions (ui w), gameStartedRef (refs w)).

Definition noHoles {A} (arr : JsArray A) : Prop := Forall (fun x => x <> None) arr.

(** The distance log is written without gaps up to the last logged unit;
    a completed run has it up to the track length; and nothing has started
    while the instruction screen is still shown. *)
Definition LogOk (g : Z * JsArray Mode * bool * bool * bool) : Prop :=
  let '(last, log, done, instr, started) := g in
  (-1 <= last <= TRACK_LENGTH)%Z
  /\ length log = Z.to_nat (last + 1)
  /\ noHoles log
  /\ (done = true -> last = TRACK_LENGTH)
  /\ (instr = true -> started = false /\ done = false).

Definition LogInv (w : World) : Prop := LogOk (logGate w).

(** Which screen is up and whether the run has started. *)
Definition flags (w : World) : bool * bool := (showInstructions (ui w), gameStartedRef (refs w)).

(** The vehicle is between the outer lane centres, heading for a lane
    centre, in one of the three lanes. *)
Definition LaneOk (c : Car) : Prop :=
  -2 <= carLaneOffset c /\ carLaneOffset c <= 2
  /\ -2 <= targetLane c /\ targetLane c <= 2
  /\ (currentLaneIndex c <= 2)%nat.

Definition lateral (c : Car) : Q * Q * nat :=
  (carLaneOffset c, targetLane c, currentLaneIndex c).

(** ** Runs at the grain of single ticks *)

(** [w] with the accumulator and the timestamp of the stepper replaced. *)
Definition restep (acc : Q) (last : option Q) (w : World) : World :=
  with_loop (fun l => set_lastAnimationTime last (set_accumulatedTime acc l)) w.









(** ** Notions used to state further properties *)

(** The speed is between standstill and the autopilot's cruising speed. *)
Definition SpeedOk (c : Car) : Prop :=
  0 <= carVelocity c /\ carVelocity c <= AUTOPILOT_SPEED_UNITS.

(** Every ambient car is on a lane centre, at most 150 units behind the
    vehicle and at most 1300 ahead of it. *)
Definition trafficInWindow (w : World) : Prop :=
  Forall (fun o => posZ (car w) - 1300 <= mz o /\ mz o <= posZ (car w) + 150
                   /\ In (mx o) lanes) (otherCars w).

(** Every block is at most 86 units ahead of the vehicle and at most 200
    behind it. *)
Definition blocksInWindow (w : World) : Prop :=
  Forall (fun b => posZ (car w) - 86 <= mz b /\ mz b <= posZ (car w) + 200)
    (finalBlocks (spawner w)).

(** The test of the cleanup loop, for a vehicle at [z]. *)
Definition farBehind (z : Q) (b : Mesh) : bool := Qltb (z + 200) (mz b).

(** From [w] to [w'] one block was pushed, between 73.5 and 86 units ahead
    of the vehicle, and nothing else changed in what the spawner looks at. *)
Definition Spawned (w w' : World) : Prop :=
  car w' = car w /\ finishLineCrossed w' = finishLineCrossed w
  /\ otherCars w' = otherCars w
  /\ exists b, finalBlocks (spawner w') = finalBlocks (spawner w) ++ [b]
               /\ posZ (car w) - 86 <= mz b /\ mz b <= posZ (car w) - (735 # 10)
               /\ isBlindLane b = false.

Definition SceneOk (w : World) : Prop :=
  SpeedOk (car w) /\ length (otherCars w) = 2%nat /\ trafficInWindow w /\ blocksInWindow w.

(** Unless the last control tick was the autopilot's, the speed is within
    the manual maximum. *)
Definition ManualCapped (c : Car) : Prop :=
  wasAutopilot c = false -> carVelocity c <= MANUAL_MAX_VELOCITY.

(** Collision events of type ['block']. *)
Definition isBlockEvent (e : CollisionEvent) : bool :=
  match ev_type e with BlockHit => true | TrafficHit => false end.

Definition countBlockHits (evs : list CollisionEvent) : nat :=
  length (List.filter isBlockEvent evs).

(** One collision penalty, as the loop applies it. *)
Definition penalty (score : Z) : Z := Z.max 0 (score - COLLISION_PENALTY).

(** From [w] to [w'] the collision log grew by the events [k], the block
    counter by the block events among them, and the score took one penalty
    for each of them. *)
Definition Booked (w w' : World) : Prop :=
  exists k, collisionEvents (data w') = collisionEvents (data w) ++ k
            /\ whiteBlocksHit (data w') = (whiteBlocksHit (data w) + Z.of_nat (countBlockHits k))%Z
            /\ scoreOf w' = Nat.iter (length k) penalty (scoreOf w).

(** The part of the state the collision bookkeeping is about. *)
Definition ledger (w : World) : list CollisionEvent * Z * Z :=
  (collisionEvents (data w), whiteBlocksHit (data w), scoreOf w).

(** The block counter of the telemetry agrees with the collision log. *)
Definition TelemetryOk (w : World) : Prop :=
  whiteBlocksHit (data w) = Z.of_nat (countBlockHits (collisionEvents (data w))).

(** A started run in autopilot with a block one unit ahead in the
    vehicle's lane. *)
Definition collisionScene : World :=
  withBlocks [{| mx := 0; mz := -1; isBlindLane := false; mid := 2 |}]
    (started [1; 2; 3; 4; 5]%nat 1000).

(** No block and no collision event is flagged as being in the blind lane,
    and the failure-lane counters stand at zero. *)
Definition FailureLaneIdle (w : World) : Prop :=
  failureLaneHitsRef (refs w) = 0%Z /\ failureLaneHits (data w) = 0%Z
  /\ Forall (fun b => isBlindLane b = false) (finalBlocks (spawner w))
  /\ Forall (fun e => ev_isBlindLane e = false) (collisionEvents (data w)).

(** The failure-lane counters and the collision log. *)
Definition failureView (w : World) : Z * Z * list CollisionEvent :=
  (failureLaneHitsRef (refs w), failureLaneHits (data w), collisionEvents (data w)).

Definition failureViewIdle (v : Z * Z * list CollisionEvent) : Prop :=
  let '(ref, hits, evs) := v in
  ref = 0%Z /\ hits = 0%Z /\ Forall (fun e => ev_isBlindLane e = false) evs.

(** The telemetry as the completion branch leaves it: the final score is
    the live score, the notification summary is the live list with every
    one of its (at least one) notifications seen, the timer is cleared and
    the blocks are gone. *)
Definition Exported (w : World) : Prop :=
  finalScore (data w) = scoreOf w
  /\ failureLaneHits (data w) = failureLaneHitsRef (refs w)
  /\ sd_notifications (data w) = notificationsRef (refs w)
  /\ notificationsTotal (data w) = length (notificationsRef (refs w))
  /\ notificationsSeen (data w) = notificationsTotal (data w)
  /\ (0 < notificationsTotal (data w))%nat
  /\ timerCleared (timerVars w) = true
  /\ finalBlocks (spawner w) = []
  /\ (TRACK_LENGTH <= lastDistanceUnitLoggedRef (refs w))%Z.

(** What [Exported] reads. *)
Definition exportView (w : World) : SimulationData * Refs * TimerVars * Spawner :=
  (data w, refs w, timerVars w, spawner w).

(** The state after the line is crossed and the completion branch has run,
    as far as later ticks can see it. *)
Definition Frozen (w : World) : Prop :=
  finishLineCrossed w = true
  /\ finalBlocks (spawner w) = []
  /\ (TRACK_LENGTH <= lastDistanceUnitLoggedRef (refs w))%Z
  /\ finalScore (data w) = scoreRef (refs w)
  /\ failureLaneHits (data w) = failureLaneHitsRef (refs w)
  /\ sd_notifications (data w) = notificationsRef (refs w)
  /\ notificationsTotal (data w) = length (notificationsRef (refs w))
  /\ notificationsSeen (data w) = countSeen (notificationsRef (refs w)).

(** What [Frozen] reads, and the telemetry. *)
Definition frozenView (w : World) : SimulationData * Z * Z * list Notification * Z * list Mesh * bool :=
  (data w, scoreRef (refs w), failureLaneHitsRef (refs w), notificationsRef (refs w),
   lastDistanceUnitLoggedRef (refs w), finalBlocks (spawner w), finishLineCrossed w).

(** The autopilot switch: the React state, the ref the loop reads, and the
    pending request. *)
Definition autopilotSwitch (w : World) : bool * bool * bool :=
  (isAutopilot (ui w), autopilotRef (refs w), autopilotPendingRef (refs w)).

(** The state in which the tick tests whether a requested autopilot may
    engage: after the blocks of this tick are spawned. *)
Definition beforePending (dateNow : Z) (w : World) : World :=
  let w := with_loop (fun l => set_frameCount (frameCount l + 1)%Z l) w in
  spawnBlocks (elapsedSeconds dateNow w) (logDistanceUnits (clearBlocksAfterFinish w)).

(** A run in which the driver has switched to manual and React has
    rendered. *)
Definition manualRun : World :=
  run [StartGame; CountdownDone 1000; ToggleAutopilot; Effects] (mounted [1; 2; 3; 4; 5]%nat).

(** The notifications delivered so far are those of the indices recorded
    as shown, in the order of delivery, each index once; and nothing is
    delivered before the instruction screen is left. *)
Definition NotificationsOk (w : World) : Prop :=
  NoDup (notificationsShown (timerVars w))
  /\ Forall (fun i => (i < length notificationTimes)%nat) (notificationsShown (timerVars w))
  /\ map n_id (notificationsRef (refs w))
     = map (fun i => nth i (shuffledIds (timerVars w)) 0%nat)
         (rev (notificationsShown (timerVars w)))
  /\ (showInstructions (ui w) = true ->
      gameStartedRef (refs w) = false /\ notificationsShown (timerVars w) = []).

(** What [NotificationsOk] reads. *)
Definition notificationView (w : World) : list nat * list nat * list nat * bool * bool :=
  (notificationsShown (timerVars w), shuffledIds (timerVars w),
   map n_id (notificationsRef (refs w)), showInstructions (ui w), gameStartedRef (refs w)).




(** The 45-second build: the score bookkeeping over the timer callbacks at
    the [Date.now()] readings [ts]. *)
Definition Timed_deductions (ts : list Z) (st : Z * Z) : Z * Z :=
  fold_left (fun st now => Timed.timeDeduction now st) ts st.

Fixpoint ascendingZ (t : Z) (ts : list Z) : Prop :=
  match ts with
  | [] => True
  | t' :: rest => (t <= t')%Z /\ ascendingZ t' rest
  end.

(** ** The instruments (not fed back into the simulation) *)





(** [calculateScale]: the factor that fits the 1067 x 600 stage into the
    wrapper, with a margin of two percent. *)
Definition calculateScale (availableWidth availableHeight : Q) : Q :=
  let baseWidth := 1067 in
  let baseHeight := 600 in
  let scaleX := (availableWidth * (98 # 100)) / baseWidth in
  let scaleY := (availableHeight * (98 # 100)) / baseHeight in
  Qmin scaleX scaleY.

(** The countdown of [startGame]: the callback of its one-second interval,
    on the counter, the number on screen and the number of times the start
    of the run has been scheduled. *)
Record Countdown := {
  count : Z;
  countdown : option Z;
  startsScheduled : nat
}.

Definition countdownStart : Countdown :=
  {| count := 3; countdown := Some 3%Z; startsScheduled := 0 |}.

Definition countdownInterval (c : Countdown) : Countdown :=
  let count' := (count c - 1)%Z in
  if (0 <? count')%Z then
    {| count := count'; countdown := Some count'; startsScheduled := startsScheduled c |}
  else if (count' =? 0)%Z then
    {| count := count'; countdown := Some 0%Z; startsScheduled := S (startsScheduled c) |}
  else {| count := count'; countdown := countdown c; startsScheduled := startsScheduled c |}.

(** The variable-step build ([src/src/driving_simulator.tsx]): its frame
    counter advances by the length of the frame in sixtieths of a second. *)
Module Scaled.

Record Stepper := { frameCount : Q; lastAnimationTime : Q }.

Definition deltaFactor (deltaMs : Q) : Q := Qmax (deltaMs / (1000 / 60)) (1 # 10000).

Definition scaledDelta (deltaMs : Q) : Q := Qmin (deltaFactor deltaMs) 1.

Definition animate (s : Stepper) (now : Q) : Stepper :=
  let deltaMs := now - lastAnimationTime s in
  {| frameCount := frameCount s + deltaFactor deltaMs; lastAnimationTime := now |}.


End Scaled.

(** The per-second log of the mode: no two neighbours in the list carry
    the same value. *)
Fixpoint noRepeat (l : list Z) : Prop :=
  match l with
  | a :: (b :: _) as rest => a <> b /\ noRepeat rest
  | _ => True
  end.

(** The log and the second the timer remembers having logged. *)
Definition secondsView (w : World) : list ModeBySecond * Z :=
  (modeBySecond (data w), lastSecondLogged (timerVars w)).

Definition SecondsOk (w : World) : Prop :=
  noRepeat (map second (modeBySecond (data w)))
  /\ (modeBySecond (data w) = []
      \/ List.last (map second (modeBySecond (data w))) 0%Z = lastSecondLogged (timerVars w)).

(** The effect on [selectedNotification] that keeps, per notification, the
    sessions during which it was open.  Times are in milliseconds since
    the start, as for [arrivalSecond]. *)
Module Sessions.

Record Session := { openTime : Z; closeTime : option Z; mode : Mode }.

Record Notification := {
  id : nat;
  openSessions : list Session;
  totalOpenDuration : Z
}.

(** The two fields as a notification arrives with them. *)
Definition arrived (i : nat) : Notification :=
  {| id := i; openSessions := []; totalOpenDuration := 0 |}.

(** [n.openSessions.length > 0 && n.openSessions[length - 1].closeTime === null] *)
Definition hasOpenSession (n : Notification) : bool :=
  match List.last (map Some (openSessions n)) None with
  | Some s => match closeTime s with None => true | Some _ => false end
  | None => false
  end.

Definition openOne (selected : nat) (currentTime : Z) (currentMode : Mode)
    (n : Notification) : Notification :=
  if (id n =? selected)%nat && negb (hasOpenSession n) then
    {| id := id n;
       openSessions := openSessions n
         ++ [{| openTime := currentTime; closeTime := None; mode := currentMode |}];
       totalOpenDuration := totalOpenDuration n |}
  else n.

Definition closeOne (clock : option Z) (dateNow : Z) (n : Notification) : Notification :=
  match List.last (map Some (openSessions n)) None, clock with
  | Some lastSession, Some t =>
      match closeTime lastSession with
      | None =>
          let currentTime := (dateNow - t)%Z in
          let sessionDuration := (currentTime - openTime lastSession)%Z in
          {| id := id n;
             openSessions := removelast (openSessions n)
               ++ [{| openTime := openTime lastSession; closeTime := Some currentTime;
                      mode := mode lastSession |}];
             totalOpenDuration := (totalOpenDuration n + sessionDuration)%Z |}
      | Some _ => n
      end
  | _, _ => n
  end.

(** [gameStartedRef.current && startTimeRef.current], with the start. *)
Definition running (gameStarted : bool) (startTime : option Z) : option Z :=
  match startTime with
  | Some t => if gameStarted && negb (t =? 0)%Z then Some t else None
  | None => None
  end.

(** One run of the effect. *)
Definition effect (selected : option nat) (gameStarted : bool) (startTime : option Z)
    (autopilot : bool) (dateNow : Z) (ns : list Notification) : list Notification :=
  match selected with
  | Some i =>
      match running gameStarted startTime with
      | Some t => map (openOne i (dateNow - t)%Z (if autopilot then Copilot else Manual)) ns
      | None => ns
      end
  | None => map (closeOne (running gameStarted startTime) dateNow) ns
  end.

Inductive Event :=
| Arrive (i : nat)
| Effect (selected : option nat) (gameStarted : bool) (startTime : option Z)
         (autopilot : bool) (dateNow : Z).

Definition step (ns : list Notification) (e : Event) : list Notification :=
  match e with
  | Arrive i => ns ++ [arrived i]
  | Effect sel g t a d => effect sel g t a d ns
  end.



End Sessions.


(* ------------------------------------------------------------------ *)
(** * Properties *)

(** ** Comparisons on rationals *)

Lemma Qleb_le x y : Qleb x y = true <-> x <= y.
Proof. unfold Qleb. apply Qle_bool_iff. Qed.

Lemma Qltb_lt x y : Qltb x y = true <-> x < y.
Proof.
  unfold Qltb. rewrite negb_true_iff. split; intro H.
  - apply Qnot_le_lt. intro H1. apply Qle_bool_iff in H1. congruence.
  - destruct (Qle_bool y x) eqn:E; [|reflexivity].
    apply Qle_bool_iff in E. exfalso. exact (Qlt_not_le _ _ H E).
Qed.

Lemma Qltb_ge x y : Qltb x y = false <-> y <= x.
Proof.
  unfold Qltb. rewrite negb_false_iff. apply Qle_bool_iff.
Qed.

Lemma Qleb_gt x y : Qleb x y = false <-> y < x.
Proof.
  rewrite <- Qltb_lt. unfold Qltb, Qleb.
  destruct (Qle_bool x y); simpl; split; congruence.
Qed.


(** ** What each phase of a tick leaves alone *)

Ltac break_if :=
  match goal with
  | |- context [if ?c then _ else _] => destruct c eqn:?
  | |- context [match ?c with Some _ => _ | None => _ end] => destruct c eqn:?
  end.

(** Reduce projections of updated records, and nothing else. *)
Ltac fields :=
  cbn [mx mz isBlindLane mid ev_unit ev_mode ev_lane ev_z ev_type ev_isBlindLane ev_tick
    ev_obstacle n_id n_seen arrivalSecond clickedSecond second safe posX posZ carVelocity
    carLaneOffset targetLane currentLaneIndex wasAutopilot set_posX set_posZ
    set_carVelocity set_carLaneOffset set_targetLane set_currentLaneIndex set_wasAutopilot
    kArrowUp kArrowDown kArrowLeft kArrowRight set_kArrowUp set_kArrowDown set_kArrowLeft
    set_kArrowRight finalBlocks lastBlockSpawnZ lastLateBlockSpawnZ lastFinishBurstSpawnZ
    blockSpawnCount nextMeshId set_finalBlocks set_lastBlockSpawnZ set_lastLateBlockSpawnZ
    set_lastFinishBurstSpawnZ set_blockSpawnCount set_nextMeshId frameCount
    accumulatedTime lastAnimationTime autopilotTimer autopilotDecision set_frameCount
    set_accumulatedTime set_lastAnimationTime set_autopilotTimer set_autopilotDecision
    lastScoreDeduction lastSecondLogged notificationsShown timerCleared shuffledIds
    set_lastScoreDeduction set_lastSecondLogged set_notificationsShown set_timerCleared
    modeBySecond whiteBlocksHit failureLaneHits modeByUnit collisionEvents
    finalScore sd_notifications notificationsSeen notificationsTotal finishLineCrossSecond
    set_modeBySecond set_whiteBlocksHit set_failureLaneHits set_modeByUnit
    set_collisionEvents set_finalScore set_sd_notifications set_notificationsSeen
    set_notificationsTotal set_finishLineCrossSecond isCompleteRef gameStartedRef
    startTimeRef autopilotRef autopilotPendingRef scoreRef failureLaneHitsRef
    lastDistanceUnitLoggedRef notificationsRef set_isCompleteRef set_gameStartedRef
    set_startTimeRef set_autopilotRef set_autopilotPendingRef set_scoreRef
    set_failureLaneHitsRef set_lastDistanceUnitLoggedRef set_notificationsRef isAutopilot
    isComplete showInstructions showViewAllNotificationsPopup set_isAutopilot
    set_isComplete set_showInstructions set_showViewAllNotificationsPopup car keys spawner
    otherCars collisionCooldown finishLineCrossed finishLineCrossTime loop timerVars data
    refs ui set_car set_keys set_spawner set_otherCars set_collisionCooldown
    set_finishLineCrossed set_finishLineCrossTime set_loop set_timerVars set_data set_refs
    set_ui with_car with_keys with_spawner with_loop with_timerVars with_data with_refs
    with_ui fst snd negb andb orb].

Ltac recall :=
  match goal with
  | H : ?c = true |- context [?c] => rewrite H
  | H : ?c = false |- context [?c] => rewrite H
  end.

Ltac frame := intros; repeat first [reflexivity | progress fields | break_if | recall].

Lemma trafficLoop_frame {A} (f : World -> A) :
  (forall i o w, f (trafficStep i o w).2 = f w) ->
  forall cars i w, f (trafficLoop i cars w).2 = f w.
Proof.
  intros Hstep. induction cars as [|o rest IH]; intros i w; [reflexivity|].
  cbn [trafficLoop].
  destruct (trafficStep i o w) as [o' w1] eqn:E1.
  destruct (trafficLoop (S i) rest w1) as [rest' w2] eqn:E2.
  cbn. specialize (IH (S i) w1). rewrite E2 in IH. cbn in IH. rewrite IH.
  specialize (Hstep i o w). rewrite E1 in Hstep. exact Hstep.
Qed.

Lemma blocksLoop_frame {A} (f : World -> A) :
  (forall i b w, f (blockHit i b w) = f w) ->
  forall bs w, f (blocksLoop bs w).2 = f w.
Proof.
  intros Hhit. induction bs as [|b rest IH]; intros w; [reflexivity|].
  cbn [blocksLoop]. destruct (Qltb (posZ (car w) + 200) (mz b)); [apply IH|].
  match goal with |- context [blocksLoop rest ?w1] =>
    destruct (blocksLoop rest w1) as [kept w2] eqn:E; specialize (IH w1); rewrite E in IH
  end.
  cbn in *. rewrite IH. destruct (_ && _); [apply Hhit | reflexivity].
Qed.

Lemma traffic_frame {A} (f : World -> A) :
  (forall i o w, f (trafficStep i o w).2 = f w) ->
  (forall cars w, f (set_otherCars cars w) = f w) ->
  forall w, f (traffic w) = f w.
Proof.
  intros Hstep Hset w. unfold traffic.
  pose proof (trafficLoop_frame f Hstep (otherCars w) 0%nat w) as H.
  destruct (trafficLoop 0 (otherCars w) w) as [cars w1]. cbn in H.
  rewrite Hset. exact H.
Qed.

Lemma blocks_frame {A} (f : World -> A) :
  (forall i b w, f (blockHit i b w) = f w) ->
  (forall bs w, f (with_spawner (set_finalBlocks bs) w) = f w) ->
  forall w, f (blocks w) = f w.
Proof.
  intros Hhit Hset w. unfold blocks. destruct (negb (finishLineCrossed w)); [|reflexivity].
  pose proof (blocksLoop_frame f Hhit (rev (finalBlocks (spawner w))) w) as H.
  destruct (blocksLoop (rev (finalBlocks (spawner w))) w) as [kept w1]. cbn in H.
  rewrite Hset. exact H.
Qed.

Lemma car_clearBlocksAfterFinish w : car (clearBlocksAfterFinish w) = car w.
Proof. unfold clearBlocksAfterFinish, captureNotifications. frame. Qed.

Lemma car_logDistanceUnits w : car (logDistanceUnits w) = car w.
Proof. unfold logDistanceUnits. frame. Qed.

Lemma car_spawnBlocks e w : car (spawnBlocks e w) = car w.
Proof.
  unfold spawnBlocks, spawnBurst, spawnLate, spawnFar, distanceToFinish, distanceTravelled.
  frame.
Qed.

Lemma car_autopilotPendingStep e w : car (autopilotPendingStep e w) = car w.
Proof. unfold autopilotPendingStep. frame. Qed.

Lemma car_beforeControl d w : car (beforeControl d w) = car w.
Proof.
  unfold beforeControl.
  rewrite car_autopilotPendingStep, car_spawnBlocks, car_logDistanceUnits,
    car_clearBlocksAfterFinish. reflexivity.
Qed.

Lemma car_trafficStep i o w : car (trafficStep i o w).2 = car w.
Proof. unfold trafficStep. frame. Qed.

Lemma car_traffic w : car (traffic w) = car w.
Proof. apply (traffic_frame car); [apply car_trafficStep | reflexivity]. Qed.

Lemma car_blockHit i b w : car (blockHit i b w) = car w.
Proof. unfold blockHit. frame. Qed.

Lemma car_blocks w : car (blocks w) = car w.
Proof. apply (blocks_frame car); [apply car_blockHit | reflexivity]. Qed.

Lemma car_completeSimulation w : car (completeSimulation w) = car w.
Proof. unfold completeSimulation, captureNotifications, ensureModeByUnitComplete. frame. Qed.

Lemma car_finishLine d w : car (finishLine d w) = car w.
Proof.
  unfold finishLine, completeWhenSeen, crossLine.
  repeat (break_if; rewrite ?car_completeSimulation; cbn; try reflexivity).
Qed.

Lemma crossed_move w : finishLineCrossed (move w) = finishLineCrossed w.
Proof. reflexivity. Qed.

Lemma crossed_trafficStep i o w :
  finishLineCrossed (trafficStep i o w).2 = finishLineCrossed w.
Proof. unfold trafficStep. frame. Qed.

Lemma crossed_traffic w : finishLineCrossed (traffic w) = finishLineCrossed w.
Proof. apply (traffic_frame finishLineCrossed); [apply crossed_trafficStep | reflexivity]. Qed.

Lemma crossed_blockHit i b w : finishLineCrossed (blockHit i b w) = finishLineCrossed w.
Proof. unfold blockHit. frame. Qed.

Lemma crossed_blocks w : finishLineCrossed (blocks w) = finishLineCrossed w.
Proof. apply (blocks_frame finishLineCrossed); [apply crossed_blockHit | reflexivity]. Qed.

Lemma completeRef_trafficStep i o w : completeRef (trafficStep i o w).2 = completeRef w.
Proof. unfold trafficStep, completeRef. frame. Qed.

Lemma completeRef_traffic w : completeRef (traffic w) = completeRef w.
Proof. apply (traffic_frame completeRef); [apply completeRef_trafficStep | reflexivity]. Qed.

Lemma completeRef_blockHit i b w : completeRef (blockHit i b w) = completeRef w.
Proof. unfold blockHit, completeRef. frame. Qed.

Lemma completeRef_blocks w : completeRef (blocks w) = completeRef w.
Proof. apply (blocks_frame completeRef); [apply completeRef_blockHit | reflexivity]. Qed.

Lemma completeRef_completeSimulation w : completeRef (completeSimulation w) = completeRef w.
Proof.
  unfold completeSimulation, captureNotifications, ensureModeByUnitComplete, completeRef. frame.
Qed.

Lemma completeRef_finishLine d w : completeRef (finishLine d w) = completeRef w.
Proof.
  unfold finishLine, completeWhenSeen, crossLine.
  repeat (break_if; rewrite ?completeRef_completeSimulation; cbn; try reflexivity).
Qed.

Lemma crossed_completeSimulation w :
  finishLineCrossed (completeSimulation w) = finishLineCrossed w.
Proof. unfold completeSimulation, captureNotifications, ensureModeByUnitComplete. frame. Qed.

(** The line counts as crossed after the check only if it did before or
    the run was not yet marked complete. *)
Lemma crossed_finishLine d w :
  finishLineCrossed (finishLine d w) = true ->
  finishLineCrossed w = true \/ completeRef w = false.
Proof.
  unfold finishLine, completeWhenSeen, crossLine, completeRef.
  destruct (finishLineCrossed w) eqn:Hc; [auto|].
  destruct (isCompleteRef (refs w)) eqn:Hr; [|auto].
  rewrite !andb_false_r. cbn [andb negb]. rewrite Hc. cbn [andb]. congruence.
Qed.

Lemma coast_idle d w :
  finishLineCrossed w = false \/ completeRef w = false -> coast d w = w.
Proof.
  unfold coast, completeRef. intros [H|H]; rewrite H; destruct (finishLineCrossTime w);
    rewrite ?andb_false_r; reflexivity.
Qed.

(** What a tick of a started run does after [control]. *)
Lemma tick_started d w :
  gameStartedRef (refs w) = true ->
  tick d w =
    endOfStep (coast d (finishLine d (blocks (traffic (move
      (control (elapsedSeconds d w) (beforeControl d w))))))).
Proof.
  intros H. unfold tick, beforeControl. cbn [refs with_loop set_loop].
  rewrite H. reflexivity.
Qed.

Lemma tick_not_started d w :
  gameStartedRef (refs w) = false ->
  tick d w =
    endOfStep (with_car (set_carVelocity 0)
      (with_loop (fun l => set_frameCount (frameCount l + 1)%Z l) w)).
Proof.
  intros H. unfold tick. cbn [refs with_loop set_loop]. rewrite H. reflexivity.
Qed.

(** After [control], the speed is changed only by the coasting stop, which
    needs a run already marked complete whose line was crossed. *)
Lemma velocity_after_control d w :
  finishLineCrossed w = false ->
  carVelocity (car (endOfStep (coast d (finishLine d (blocks (traffic (move w)))))))
  = carVelocity (car w).
Proof.
  intros Hc.
  set (w1 := blocks (traffic (move w))).
  assert (Hc1 : finishLineCrossed w1 = false).
  { unfold w1. rewrite crossed_blocks, crossed_traffic, crossed_move. exact Hc. }
  assert (Hidle : coast d (finishLine d w1) = finishLine d w1).
  { apply coast_idle.
    destruct (finishLineCrossed (finishLine d w1)) eqn:E; [|auto].
    right. rewrite completeRef_finishLine.
    destruct (crossed_finishLine d w1 E) as [H|H]; [congruence | exact H]. }
  rewrite Hidle. cbn [endOfStep with_loop set_loop car].
  rewrite car_finishLine. unfold w1. rewrite car_blocks, car_traffic. reflexivity.
Qed.

(** ** C9: braking under autopilot never halts the vehicle *)

Lemma emergencyBrake_floor v : 2 # 10 <= emergencyBrake v.
Proof. unfold emergencyBrake. apply Q.le_max_r. Qed.

Lemma lightBrake_floor v : 4 # 10 <= lightBrake v.
Proof. unfold lightBrake. apply Q.le_max_r. Qed.

Lemma tick_autopilot_velocity d w :
  autopilotDrives d w = true ->
  carVelocity (car (tick d w)) = applySpeed (decisionOf d w) (carVelocity (car w)).
Proof.
  unfold autopilotDrives. intros H.
  apply andb_prop in H as [H Hcross]. apply andb_prop in H as [H Hel].
  apply andb_prop in H as [Hstart Hauto]. apply negb_true_iff in Hcross.
  rewrite tick_started by exact Hstart.
  assert (Hctl : control (elapsedSeconds d w) (beforeControl d w)
                 = autopilotControl (beforeControl d w)).
  { unfold control. rewrite Hauto, Hel, Hcross. reflexivity. }
  rewrite Hctl, velocity_after_control.
  - unfold decisionOf. rewrite <- (car_beforeControl d w).
    unfold autopilotControl. cbn. repeat break_if; reflexivity.
  - unfold autopilotControl. cbn. exact Hcross.
Qed.

(** C9.  In a tick driven by the autopilot, an emergency brake leaves the
    speed at [max (v - 0.06) 0.2] and a light brake at [max (v - 0.02) 0.4]
    at the end of the tick, so whenever a braking branch fires the speed
    after the tick is at least 0.2 and in particular not zero. *)
Theorem braking_never_halts (dateNow : Z) (w : World) :
  autopilotDrives dateNow w = true ->
  let v := carVelocity (car w) in
  let v' := carVelocity (car (tick dateNow w)) in
  (decisionOf dateNow w = EmergencyBrake -> v' = Qmax (v - (6 # 100) * 1) (2 # 10)) /\
  (decisionOf dateNow w = LightBrake -> v' = Qmax (v - (2 # 100) * 1) (4 # 10)) /\
  (decisionOf dateNow w <> Cruise -> 2 # 10 <= v' /\ ~ v' == 0).
Proof.
  intros H v v'. subst v v'. rewrite (tick_autopilot_velocity _ _ H).
  split; [|split].
  - intros ->. reflexivity.
  - intros ->. reflexivity.
  - intros Hd.
    assert (Hfloor : 2 # 10 <= applySpeed (decisionOf dateNow w) (carVelocity (car w))).
    { destruct (decisionOf dateNow w); cbn [applySpeed].
      - apply emergencyBrake_floor.
      - pose proof (lightBrake_floor (carVelocity (car w))). lra.
      - congruence. }
    split; [exact Hfloor|]. intros E. rewrite E in Hfloor. lra.
Qed.

Lemma braking_never_halts_witness :
  autopilotDrives 1016 brakingScene = true /\
  decisionOf 1016 brakingScene = LightBrake /\
  2 # 10 <= carVelocity (car (tick 1016 brakingScene)).
Proof.
  split; [reflexivity|]. split; [reflexivity|].
  apply (braking_never_halts 1016 brakingScene); [reflexivity|].
  vm_compute. discriminate.
Defined.

(** ** The stepper variables through a tick *)

Ltac unfold_phases :=
  unfold clearBlocksAfterFinish, logDistanceUnits, spawnBlocks, spawnBurst, spawnLate,
    spawnFar, autopilotPendingStep, control, autopilotControl, manualControl, move,
    coast, completeSimulation, captureNotifications, ensureModeByUnitComplete,
    distanceToFinish, distanceTravelled, blockHit, trafficStep.

Lemma stepper_clearBlocksAfterFinish w : stepper (clearBlocksAfterFinish w) = stepper w.
Proof. unfold_phases. unfold stepper. frame. Qed.

Lemma stepper_logDistanceUnits w : stepper (logDistanceUnits w) = stepper w.
Proof. unfold_phases. unfold stepper. frame. Qed.

Lemma stepper_spawnBlocks e w : stepper (spawnBlocks e w) = stepper w.
Proof. unfold_phases. unfold stepper. frame. Qed.

Lemma stepper_autopilotPendingStep e w : stepper (autopilotPendingStep e w) = stepper w.
Proof. unfold_phases. unfold stepper. frame. Qed.

Lemma stepper_control e w : stepper (control e w) = stepper w.
Proof. unfold_phases. unfold stepper. frame. Qed.

Lemma stepper_move w : stepper (move w) = stepper w.
Proof. reflexivity. Qed.

Lemma stepper_traffic w : stepper (traffic w) = stepper w.
Proof.
  apply (traffic_frame stepper); [|reflexivity].
  unfold_phases. unfold stepper. frame.
Qed.

Lemma stepper_blocks w : stepper (blocks w) = stepper w.
Proof.
  apply (blocks_frame stepper); [|reflexivity].
  unfold_phases. unfold stepper. frame.
Qed.

Lemma stepper_completeSimulation w : stepper (completeSimulation w) = stepper w.
Proof. unfold_phases. unfold stepper. frame. Qed.

Lemma stepper_finishLine d w : stepper (finishLine d w) = stepper w.
Proof.
  unfold finishLine, completeWhenSeen, crossLine.
  repeat (break_if; rewrite ?stepper_completeSimulation; try reflexivity).
Qed.

Lemma stepper_coast d w : stepper (coast d w) = stepper w.
Proof. unfold_phases. unfold stepper. frame. Qed.

Lemma stepper_body d w :
  stepper (coast d (finishLine d (blocks (traffic (move
    (control (elapsedSeconds d w) (beforeControl d w)))))))
  = stepper (with_loop (fun l => set_frameCount (frameCount l + 1)%Z l) w).
Proof.
  unfold beforeControl.
  rewrite stepper_coast, stepper_finishLine, stepper_blocks, stepper_traffic, stepper_move,
    stepper_control, stepper_autopilotPendingStep, stepper_spawnBlocks,
    stepper_logDistanceUnits, stepper_clearBlocksAfterFinish.
  reflexivity.
Qed.

Lemma stepper_endOfStep w9 w :
  stepper w9 = stepper (with_loop (fun l => set_frameCount (frameCount l + 1)%Z l) w) ->
  stepper (endOfStep w9)
  = ((frameCount (loop w) + 1)%Z, accumulatedTime (loop w) - FIXED_DELTA,
     lastAnimationTime (loop w)).
Proof.
  unfold stepper, endOfStep. fields. intros H.
  injection H as H1 H2 H3. rewrite H1, H2, H3. reflexivity.
Qed.

(** Every path through the loop body adds one to [frameCount] and takes
    one [FIXED_DELTA] off the accumulator. *)
Lemma tick_stepper d w :
  stepper (tick d w)
  = ((frameCount (loop w) + 1)%Z, accumulatedTime (loop w) - FIXED_DELTA,
     lastAnimationTime (loop w)).
Proof.
  destruct (gameStartedRef (refs w)) eqn:Hs.
  - rewrite tick_started by exact Hs. apply stepper_endOfStep, stepper_body.
  - rewrite tick_not_started by exact Hs. reflexivity.
Qed.

Lemma tick_frameCount d w : frameCount (loop (tick d w)) = (frameCount (loop w) + 1)%Z.
Proof. pose proof (tick_stepper d w) as H. unfold stepper in H. congruence. Qed.

Lemma tick_accumulatedTime d w :
  accumulatedTime (loop (tick d w)) = accumulatedTime (loop w) - FIXED_DELTA.
Proof. pose proof (tick_stepper d w) as H. unfold stepper in H. congruence. Qed.

(** ** C6: how many ticks one callback runs *)

Lemma FIXED_DELTA_pos : 0 < FIXED_DELTA.
Proof. reflexivity. Qed.

Lemma FIXED_DELTA_eq : FIXED_DELTA == 1 # 60.
Proof. reflexivity. Qed.

Lemma div_FIXED_DELTA q : q / FIXED_DELTA == q * 60.
Proof. unfold FIXED_DELTA, FIXED_FPS. field. Qed.

Lemma inject_nat_succ n :
  inject_Z (Z.of_nat (S n)) == inject_Z (Z.of_nat n) + 1.
Proof. rewrite Nat2Z.inj_succ. unfold Z.succ. rewrite inject_Z_plus. reflexivity. Qed.

(** While [n] whole steps are still in the accumulator, [drain n] runs
    exactly [n] iterations. *)
Lemma drain_exact n : forall clock w,
  inject_Z (Z.of_nat n) * FIXED_DELTA <= accumulatedTime (loop w) ->
  frameCount (loop (drain n clock w)) = (frameCount (loop w) + Z.of_nat n)%Z /\
  accumulatedTime (loop (drain n clock w))
    == accumulatedTime (loop w) - inject_Z (Z.of_nat n) * FIXED_DELTA.
Proof.
  induction n as [|n IH]; intros clock w Hacc.
  - cbn [drain]. split; [lia|]. cbn. ring.
  - pose proof FIXED_DELTA_pos as Hpos.
    pose proof (inject_nat_succ n) as Hs.
    assert (Hn : 0 <= inject_Z (Z.of_nat n)).
    { change 0 with (inject_Z 0). rewrite <- Zle_Qle. lia. }
    assert (Hguard : Qleb FIXED_DELTA (accumulatedTime (loop w)) = true).
    { apply Qleb_le. rewrite Hs in Hacc. nra. }
    cbn [drain]. rewrite Hguard.
    destruct (IH clock (tick (clock (frameCount (loop w) + 1)%Z) w)) as [Hf Ha].
    { rewrite tick_accumulatedTime. rewrite Hs in Hacc. lra. }
    rewrite Hf, Ha, tick_frameCount, tick_accumulatedTime. split; [lia|].
    rewrite Hs. ring.
Qed.

Lemma ticksDue_bounds acc :
  0 <= acc ->
  inject_Z (Z.of_nat (ticksDue acc)) * FIXED_DELTA <= acc
  /\ acc < (inject_Z (Z.of_nat (ticksDue acc)) + 1) * FIXED_DELTA.
Proof.
  intros Hacc. unfold ticksDue.
  pose proof (Qfloor_le (acc / FIXED_DELTA)) as Hlo.
  pose proof (Qlt_floor (acc / FIXED_DELTA)) as Hhi.
  assert (H0 : (0 <= Qfloor (acc / FIXED_DELTA))%Z).
  { change 0%Z with (Qfloor 0). apply Qfloor_resp_le. rewrite div_FIXED_DELTA. lra. }
  rewrite Z2Nat.id by exact H0.
  rewrite inject_Z_plus in Hhi. change (inject_Z 1) with 1 in Hhi.
  set (f := inject_Z (Qfloor (acc / FIXED_DELTA))) in *. clearbody f.
  rewrite div_FIXED_DELTA in Hlo, Hhi.
  rewrite FIXED_DELTA_eq. lra.
Qed.

Lemma ticksDue_negative acc : acc < 0 -> ticksDue acc = 0%nat.
Proof.
  intros Hacc. unfold ticksDue.
  assert (H : (Qfloor (acc / FIXED_DELTA) <= 0)%Z).
  { change 0%Z with (Qfloor 0). apply Qfloor_resp_le. rewrite div_FIXED_DELTA. lra. }
  destruct (Qfloor (acc / FIXED_DELTA)); try reflexivity. lia.
Qed.

Lemma ticksDue_floor acc :
  Z.of_nat (ticksDue acc) = Z.max 0 (Qfloor (acc / FIXED_DELTA)).
Proof. unfold ticksDue. lia. Qed.

(** The fuel [animate] gives the loop is exactly what the loop uses: the
    callback runs [ticksDue] iterations and leaves the loop because its
    guard fails. *)
Lemma animate_ticks now clock w :
  ticksRun now clock w
  = match lastAnimationTime (loop w) with
    | None => 0%Z
    | Some _ => Z.max 0 (Qfloor (accumulatedAt now w / FIXED_DELTA))
    end
  /\ (lastAnimationTime (loop w) <> None ->
      accumulatedTime (loop (animate now clock w)) < FIXED_DELTA
      /\ accumulatedTime (loop (animate now clock w))
         == accumulatedAt now w - inject_Z (ticksRun now clock w) * FIXED_DELTA).
Proof.
  unfold ticksRun, accumulatedAt, animate.
  destruct (lastAnimationTime (loop w)) as [last|] eqn:Hlast.
  2:{ split; [fields; lia | congruence]. }
  set (w1 := with_loop _ w).
  assert (Hacc1 : accumulatedTime (loop w1) = accumulatedTime (loop w) + (now - last) / 1000)
    by reflexivity.
  assert (Hf1 : frameCount (loop w1) = frameCount (loop w)) by reflexivity.
  rewrite <- Hacc1. clearbody w1.
  destruct (Qlt_le_dec (accumulatedTime (loop w1)) 0) as [Hneg|Hnn].
  - pose proof (ticksDue_floor (accumulatedTime (loop w1))) as Hfl.
    rewrite (ticksDue_negative _ Hneg) in *. cbn [drain].
    pose proof FIXED_DELTA_pos.
    split; [lia|]. intros _. split; [lra|].
    replace (frameCount (loop w1) - frameCount (loop w))%Z with 0%Z by lia.
    change (inject_Z 0) with 0. ring.
  - destruct (ticksDue_bounds _ Hnn) as [Hlo Hhi].
    destruct (drain_exact _ clock w1 Hlo) as [Hf Ha].
    rewrite Hf, Ha.
    replace (frameCount (loop w1) + Z.of_nat (ticksDue (accumulatedTime (loop w1)))
             - frameCount (loop w))%Z
      with (Z.of_nat (ticksDue (accumulatedTime (loop w1)))) by lia.
    split; [apply ticksDue_floor|]. intros _. split; [lra | reflexivity].
Qed.


(** A gap of ten seconds between two callbacks runs 600 ticks at once. *)
Lemma ten_second_gap_runs_600_ticks :
  ticksRun 10000 (fun _ => 0%Z) baseline = 600%Z.
Proof.
  destruct (animate_ticks 10000 (fun _ => 0%Z) baseline) as [Hn _].
  rewrite Hn. reflexivity.
Qed.


(** ** C2: the score only decays *)

Lemma scoreDecays_refl w : scoreDecays w w.
Proof. unfold scoreDecays. lia. Qed.

Lemma scoreDecays_trans a b c : scoreDecays a b -> scoreDecays b c -> scoreDecays a c.
Proof. unfold scoreDecays. lia. Qed.

Lemma scoreDecays_same a b : scoreOf b = scoreOf a -> scoreDecays a b.
Proof. unfold scoreDecays. lia. Qed.

Lemma trafficLoop_rel (R : World -> World -> Prop) :
  (forall w, R w w) -> (forall a b c, R a b -> R b c -> R a c) ->
  (forall i o w, R w (trafficStep i o w).2) ->
  forall cars i w, R w (trafficLoop i cars w).2.
Proof.
  intros Hrefl Htrans Hstep. induction cars as [|o rest IH]; intros i w; [apply Hrefl|].
  cbn [trafficLoop].
  pose proof (Hstep i o w) as H1.
  destruct (trafficStep i o w) as [o' w1].
  pose proof (IH (S i) w1) as H2.
  destruct (trafficLoop (S i) rest w1) as [rest' w2].
  exact (Htrans _ _ _ H1 H2).
Qed.

Lemma blocksLoop_rel (R : World -> World -> Prop) :
  (forall w, R w w) -> (forall a b c, R a b -> R b c -> R a c) ->
  (forall i b w, R w (blockHit i b w)) ->
  forall bs w, R w (blocksLoop bs w).2.
Proof.
  intros Hrefl Htrans Hhit. induction bs as [|b rest IH]; intros w; [apply Hrefl|].
  cbn [blocksLoop]. destruct (Qltb (posZ (car w) + 200) (mz b)); [apply IH|].
  match goal with |- context [blocksLoop rest ?w1] =>
    pose proof (IH w1) as H2; destruct (blocksLoop rest w1) as [kept w2];
    assert (H1 : R w w1) by (destruct (_ && _); [apply Hhit | apply Hrefl])
  end.
  exact (Htrans _ _ _ H1 H2).
Qed.

Lemma scoreDecays_deductCollision w : scoreDecays w (deductCollision w).
Proof. unfold scoreDecays, scoreOf, deductCollision, COLLISION_PENALTY. fields. lia. Qed.

Lemma scoreDecays_trafficStep i o w : scoreDecays w (trafficStep i o w).2.
Proof.
  unfold trafficStep.
  repeat (break_if; fields); try (apply scoreDecays_same; reflexivity);
    unfold scoreDecays, scoreOf, setCooldown, pushCollisionEvent, deductCollision,
      COLLISION_PENALTY; fields; lia.
Qed.

Lemma scoreDecays_blockHit i b w : scoreDecays w (blockHit i b w).
Proof.
  unfold blockHit, scoreDecays, scoreOf, setCooldown, pushCollisionEvent, deductCollision,
    COLLISION_PENALTY.
  repeat (break_if; fields); fields; lia.
Qed.

Lemma scoreDecays_traffic w : scoreDecays w (traffic w).
Proof.
  unfold traffic.
  pose proof (trafficLoop_rel scoreDecays scoreDecays_refl scoreDecays_trans
                scoreDecays_trafficStep (otherCars w) 0%nat w) as H.
  destruct (trafficLoop 0 (otherCars w) w) as [cars w1]. exact H.
Qed.

Lemma scoreDecays_blocks w : scoreDecays w (blocks w).
Proof.
  unfold blocks. destruct (negb (finishLineCrossed w)); [|apply scoreDecays_refl].
  pose proof (blocksLoop_rel scoreDecays scoreDecays_refl scoreDecays_trans
                scoreDecays_blockHit (rev (finalBlocks (spawner w))) w) as H.
  destruct (blocksLoop (rev (finalBlocks (spawner w))) w) as [kept w1]. exact H.
Qed.

Lemma score_clearBlocksAfterFinish w : scoreOf (clearBlocksAfterFinish w) = scoreOf w.
Proof. unfold_phases. unfold scoreOf. frame. Qed.

Lemma score_logDistanceUnits w : scoreOf (logDistanceUnits w) = scoreOf w.
Proof. unfold_phases. unfold scoreOf. frame. Qed.

Lemma score_spawnBlocks e w : scoreOf (spawnBlocks e w) = scoreOf w.
Proof. unfold_phases. unfold scoreOf. frame. Qed.

Lemma score_autopilotPendingStep e w : scoreOf (autopilotPendingStep e w) = scoreOf w.
Proof. unfold_phases. unfold scoreOf. frame. Qed.

Lemma score_control e w : scoreOf (control e w) = scoreOf w.
Proof. unfold_phases. unfold scoreOf. frame. Qed.

Lemma score_completeSimulation w : scoreOf (completeSimulation w) = scoreOf w.
Proof. unfold_phases. unfold scoreOf. frame. Qed.

Lemma score_finishLine d w : scoreOf (finishLine d w) = scoreOf w.
Proof.
  unfold finishLine, completeWhenSeen, crossLine.
  repeat (break_if; rewrite ?score_completeSimulation; try reflexivity).
Qed.

Lemma score_coast d w : scoreOf (coast d w) = scoreOf w.
Proof. unfold_phases. unfold scoreOf. frame. Qed.

Lemma score_beforeControl d w : scoreOf (beforeControl d w) = scoreOf w.
Proof.
  unfold beforeControl.
  rewrite score_autopilotPendingStep, score_spawnBlocks, score_logDistanceUnits,
    score_clearBlocksAfterFinish. reflexivity.
Qed.

Lemma scoreDecays_afterControl d w :
  scoreDecays w (endOfStep (coast d (finishLine d (blocks (traffic (move w)))))).
Proof.
  apply scoreDecays_trans with (traffic (move w)).
  { apply scoreDecays_trans with (move w);
      [apply scoreDecays_same; reflexivity | apply scoreDecays_traffic]. }
  apply scoreDecays_trans with (blocks (traffic (move w))); [apply scoreDecays_blocks|].
  apply scoreDecays_same.
  transitivity (scoreOf (coast d (finishLine d (blocks (traffic (move w)))))); [reflexivity|].
  rewrite score_coast, score_finishLine. reflexivity.
Qed.

Lemma scoreDecays_tick d w : scoreDecays w (tick d w).
Proof.
  destruct (gameStartedRef (refs w)) eqn:Hs.
  - rewrite tick_started by exact Hs.
    eapply scoreDecays_trans; [|apply scoreDecays_afterControl].
    apply scoreDecays_same. rewrite score_control. apply score_beforeControl.
  - rewrite tick_not_started by exact Hs. apply scoreDecays_same. reflexivity.
Qed.

Lemma scoreDecays_drain n : forall clock w, scoreDecays w (drain n clock w).
Proof.
  induction n as [|n IH]; intros clock w; cbn [drain]; [apply scoreDecays_refl|].
  destruct (Qleb _ _); [|apply scoreDecays_refl].
  eapply scoreDecays_trans; [apply scoreDecays_tick | apply IH].
Qed.

Lemma scoreDecays_animate now clock w : scoreDecays w (animate now clock w).
Proof.
  unfold animate. destruct (lastAnimationTime (loop w)).
  - eapply scoreDecays_trans; [|apply scoreDecays_drain]. apply scoreDecays_same. reflexivity.
  - apply scoreDecays_same. reflexivity.
Qed.

Lemma score_triggerNotification d e w entry :
  scoreOf (triggerNotification d e w entry) = scoreOf w.
Proof. unfold triggerNotification, scoreOf. destruct entry. frame. Qed.

Lemma fold_left_frame {A B C} (f : A -> C) (g : A -> B -> A) :
  (forall a b, f (g a b) = f a) -> forall l a, f (fold_left g l a) = f a.
Proof.
  intros H. induction l as [|b l IH]; intros a; cbn; [reflexivity|].
  rewrite IH. apply H.
Qed.

(** One timer callback deducts the time penalty at most once. *)
Lemma timeDeduction_score d w :
  scoreOf (timeDeduction d w) = scoreOf w
  \/ scoreOf (timeDeduction d w) = Z.max 0 (scoreOf w - TIME_PENALTY).
Proof. unfold timeDeduction, scoreOf. repeat (break_if; fields); auto. Qed.

Lemma score_logSecond e w : scoreOf (logSecond e w) = scoreOf w.
Proof. unfold logSecond, scoreOf. frame. Qed.

Lemma timerInterval_score d w :
  scoreOf (timerInterval d w) = scoreOf w
  \/ scoreOf (timerInterval d w) = Z.max 0 (scoreOf w - TIME_PENALTY).
Proof.
  unfold timerInterval. repeat (break_if; auto).
  match goal with |- context [timeDeduction d ?x] =>
    assert (Hx : scoreOf x = scoreOf w)
      by (rewrite score_logSecond;
          apply (fold_left_frame scoreOf); intros; apply score_triggerNotification);
    destruct (timeDeduction_score d x) as [H|H]; rewrite H, Hx; auto
  end.
Qed.

Lemma scoreDecays_timerInterval d w : scoreDecays w (timerInterval d w).
Proof.
  unfold scoreDecays. destruct (timerInterval_score d w) as [H|H]; rewrite H;
    unfold TIME_PENALTY; lia.
Qed.

(** Collisions deduct [max 0 (score - 10)]. *)
Lemma blockHit_score i b w :
  scoreOf (blockHit i b w) = Z.max 0 (scoreOf w - COLLISION_PENALTY).
Proof.
  unfold blockHit, scoreOf, setCooldown, pushCollisionEvent, deductCollision.
  repeat (break_if; fields); reflexivity.
Qed.

Lemma trafficStep_score i o w :
  scoreOf (trafficStep i o w).2 = scoreOf w
  \/ scoreOf (trafficStep i o w).2 = Z.max 0 (scoreOf w - COLLISION_PENALTY).
Proof.
  unfold trafficStep, scoreOf, setCooldown, pushCollisionEvent, deductCollision.
  repeat (break_if; fields); auto.
Qed.

(** Every callback except the start of the run lets the score decay. *)
Lemma scoreDecays_step w e : isRunStart e = false -> scoreDecays w (step w e).
Proof.
  destruct e; cbn [isRunStart step]; intros He; try discriminate.
  - apply scoreDecays_animate.
  - apply scoreDecays_timerInterval.
  - apply scoreDecays_same. reflexivity.
  - apply scoreDecays_same. reflexivity.
  - apply scoreDecays_same. unfold startGame, scoreOf. frame.
  - apply scoreDecays_same. unfold handleToggleAutopilot, scoreOf. frame.
  - apply scoreDecays_same. unfold clickNotification, scoreOf. frame.
  - apply scoreDecays_same. reflexivity.
Qed.

Lemma scoreDecays_run es : forall w,
  forallb (fun e => negb (isRunStart e)) es = true -> scoreDecays w (run es w).
Proof.
  induction es as [|e es IH]; intros w H; cbn in *; [apply scoreDecays_refl|].
  apply andb_prop in H as [He Hes]. apply negb_true_iff in He.
  eapply scoreDecays_trans; [apply scoreDecays_step; exact He | apply IH; exact Hes].
Qed.

(** C2.  The end of the countdown (which follows [startGame]) sets the
    score to 1000; from then on,
    whatever callbacks run (frames, timer, keys, buttons, effects) and as
    long as the run is not started again, the score after any further
    callbacks is at most what it was and never below zero.  The timer
    deducts by [max 0 (score - 5)], at most once per callback, and each
    collision by [max 0 (score - 10)]. *)
Theorem score_non_increasing_never_negative
    (w : World) (dateNow : Z) (before after : list Event) :
  showInstructions (ui w) = false ->
  forallb (fun e => negb (isRunStart e)) (before ++ after) = true ->
  let w0 := step w (CountdownDone dateNow) in
  scoreOf w0 = INITIAL_SCORE
  /\ (0 <= scoreOf (run (before ++ after) w0) <= scoreOf (run before w0))%Z
  /\ (scoreOf (run before w0) <= INITIAL_SCORE)%Z
  /\ (forall d x, scoreOf (timerInterval d x) = scoreOf x
                  \/ scoreOf (timerInterval d x) = Z.max 0 (scoreOf x - TIME_PENALTY))
  /\ (forall i b x, scoreOf (blockHit i b x) = Z.max 0 (scoreOf x - COLLISION_PENALTY))
  /\ (forall i o x, scoreOf (trafficStep i o x).2 = scoreOf x
                    \/ scoreOf (trafficStep i o x).2
                       = Z.max 0 (scoreOf x - COLLISION_PENALTY)).
Proof.
  intros Hgo H w0.
  rewrite forallb_app in H. apply andb_prop in H as [Hb Ha].
  assert (H0 : scoreOf w0 = INITIAL_SCORE).
  { unfold w0. cbn [step]. unfold countdownDone. rewrite Hgo. reflexivity. }
  pose proof (scoreDecays_run before w0 Hb) as H1.
  pose proof (scoreDecays_run after (run before w0) Ha) as H2.
  unfold run in *. rewrite fold_left_app.
  unfold scoreDecays, INITIAL_SCORE in *.
  repeat split; try lia.
  - apply timerInterval_score.
  - apply blockHit_score.
  - apply trafficStep_score.
Qed.

Lemma score_non_increasing_never_negative_witness :
  let w0 := step (step (mounted [1; 2; 3; 4; 5]%nat) StartGame) (CountdownDone 1000) in
  (0 <= scoreOf (run ([Timer 1100; Timer 2100] ++ [Frame 0 2200; Frame 50 2250; Timer 3100]) w0)
     <= scoreOf (run [Timer 1100; Timer 2100] w0))%Z.
Proof.
  intros w0.
  apply (score_non_increasing_never_negative
           (step (mounted [1; 2; 3; 4; 5]%nat) StartGame) 1000
           [Timer 1100; Timer 2100] [Frame 0 2200; Frame 50 2250; Timer 3100]);
    reflexivity.
Defined.

(** ** C5: catching up after a suspension *)

(** With the last deduction at [last], a timer callback that comes whole
    seconds late still deducts one penalty only, and forgets the rest. *)
Lemma timeDeduction_late (w : World) (late : Z) :
  lastScoreDeduction (timerVars w) <> 0%Z ->
  (1000 <= late)%Z ->
  let w' := timeDeduction (lastScoreDeduction (timerVars w) + late) w in
  scoreOf w' = Z.max 0 (scoreOf w - TIME_PENALTY)
  /\ lastScoreDeduction (timerVars w') = (lastScoreDeduction (timerVars w) + late)%Z.
Proof.
  intros Hlast Hlate. unfold timeDeduction, scoreOf.
  destruct (Z.eqb_spec (lastScoreDeduction (timerVars w)) 0); [contradiction|].
  destruct (Z.leb_spec 1000
              (lastScoreDeduction (timerVars w) + late - lastScoreDeduction (timerVars w)));
    [|lia].
  fields. split; reflexivity.
Qed.

(** The 45-second build does catch up: [n] whole seconds late deduct [n]
    penalties in one batch, which is what [n] single deductions give. *)
Lemma Timed_timeDeduction_catches_up (last score n r : Z) :
  last <> 0%Z -> (1 <= n)%Z -> (0 <= r < 1000)%Z ->
  Timed.timeDeduction (last + 1000 * n + r) (last, score)
  = ((last + 1000 * n)%Z, Z.max 0 (score - Timed.TIME_PENALTY * n)).
Proof.
  intros Hlast Hn Hr. unfold Timed.timeDeduction.
  destruct (Z.eqb_spec last 0); [contradiction|].
  replace (last + 1000 * n + r - last)%Z with (r + n * 1000)%Z by lia.
  destruct (Z.leb_spec 1000 (r + n * 1000)); [|lia].
  rewrite Z.div_add, Z.mod_add by lia.
  rewrite Z.div_small, Z.mod_small by lia.
  f_equal; lia.
Qed.

Lemma batch_is_repeated_deduction (p score : Z) (n : nat) :
  (0 <= p)%Z ->
  Z.max 0 (score - p * Z.of_nat n) = Nat.iter n (fun s => Z.max 0 (s - p)) (Z.max 0 score)
  \/ n = 0%nat.
Proof.
  intros Hp. destruct n as [|n]; [auto|]. left.
  induction n as [|n IH].
  - cbn. lia.
  - change (Nat.iter (S (S n)) ?f ?x) with (f (Nat.iter (S n) f x)).
    rewrite <- IH. lia.
Qed.

(** C5 at a concrete run.  The run starts at 1000 ms; the timer fires at
    1100 ms, the host is then suspended for ten seconds, and the timer
    fires again at 11100 ms.  The score is 995: one deduction, where ten
    were due (950). *)
Theorem suspended_timer_deducts_once :
  let w := run [StartGame; CountdownDone 1000; Timer 1100; Timer 11100]
               (mounted [1; 2; 3; 4; 5]%nat) in
  scoreOf w = 995%Z
  /\ scoreOf w <> (INITIAL_SCORE - 10 * TIME_PENALTY)%Z
  /\ Timed.timeDeduction 11100 (1100, 1000)%Z = (11100, 900)%Z.
Proof. cbv zeta. split; [reflexivity|]. split; [discriminate | reflexivity]. Qed.

(** ** C7 and C10: when a run completes *)

Lemma gate_clearBlocksAfterFinish w : gate (clearBlocksAfterFinish w) = gate w.
Proof. unfold_phases. unfold gate. frame. Qed.

Lemma gate_logDistanceUnits w : gate (logDistanceUnits w) = gate w.
Proof. unfold_phases. unfold gate. frame. Qed.

Lemma gate_spawnBlocks e w : gate (spawnBlocks e w) = gate w.
Proof. unfold_phases. unfold gate. frame. Qed.

Lemma gate_autopilotPendingStep e w : gate (autopilotPendingStep e w) = gate w.
Proof. unfold_phases. unfold gate. frame. Qed.

Lemma gate_control e w : gate (control e w) = gate w.
Proof. unfold_phases. unfold gate. frame. Qed.

Lemma gate_traffic w : gate (traffic w) = gate w.
Proof.
  apply (traffic_frame gate); [|reflexivity].
  unfold_phases. unfold gate. frame.
Qed.

Lemma gate_blocks w : gate (blocks w) = gate w.
Proof.
  apply (blocks_frame gate); [|reflexivity].
  unfold_phases. unfold gate. frame.
Qed.

Lemma gate_coast d w : gate (coast d w) = gate w.
Proof. unfold_phases. unfold gate. frame. Qed.

Lemma gate_move w : gate (move w) = gate w.
Proof. reflexivity. Qed.

Lemma gate_beforeFinish d w :
  gate (blocks (traffic (move (control (elapsedSeconds d w) (beforeControl d w))))) = gate w.
Proof.
  unfold beforeControl.
  rewrite gate_blocks, gate_traffic, gate_move, gate_control, gate_autopilotPendingStep, gate_spawnBlocks, gate_logDistanceUnits,
    gate_clearBlocksAfterFinish. reflexivity.
Qed.

Lemma gate_completeSimulation w :
  gate (completeSimulation w)
  = (true, notificationsRef (refs w), true, isCompleteRef (refs w), finishLineCrossed w).
Proof. unfold_phases. unfold gate. frame. Qed.

Lemma allNotificationsSeen_gate w w' :
  notificationsRef (refs w') = notificationsRef (refs w) ->
  allNotificationsSeen w' = allNotificationsSeen w.
Proof. unfold allNotificationsSeen. intros ->. reflexivity. Qed.

Lemma gate_completeWhenSeen w :
  let completes := finishLineCrossed w && negb (isCompleteRef (refs w))
                   && allNotificationsSeen w in
  gate (completeWhenSeen w)
  = (isComplete (ui w) || completes, notificationsRef (refs w),
     timerCleared (timerVars w) || completes, isCompleteRef (refs w), finishLineCrossed w).
Proof.
  unfold completeWhenSeen.
  destruct (finishLineCrossed w) eqn:Hc, (isCompleteRef (refs w)) eqn:Hr,
    (allNotificationsSeen w) eqn:Hs; cbn [andb orb negb];
    rewrite ?gate_completeSimulation; unfold gate;
    rewrite ?Hc, ?Hr, ?orb_true_r, ?orb_false_r; reflexivity.
Qed.

Lemma gate_crossLine d w :
  let fires := Qleb (posZ (car w)) finishLineZ && negb (isCompleteRef (refs w))
               && negb (finishLineCrossed w) in
  gate (crossLine d w)
  = (isComplete (ui w) || (fires && allNotificationsSeen w), notificationsRef (refs w),
     timerCleared (timerVars w) || (fires && allNotificationsSeen w),
     isCompleteRef (refs w), finishLineCrossed w || fires).
Proof.
  unfold crossLine.
  destruct (Qleb (posZ (car w)) finishLineZ), (isCompleteRef (refs w)) eqn:Hr,
    (finishLineCrossed w) eqn:Hc; cbn [andb orb negb];
    try (unfold gate; rewrite ?Hc, ?Hr, ?orb_false_r; reflexivity).
  match goal with |- context [allNotificationsSeen ?x] =>
    rewrite (allNotificationsSeen_gate w x) by reflexivity end.
  destruct (allNotificationsSeen w);
    rewrite ?gate_completeSimulation; unfold gate; fields;
    rewrite ?Hr, ?orb_true_r, ?orb_false_r; reflexivity.
Qed.

Lemma posZ_crossLine d w : posZ (car (crossLine d w)) = posZ (car w).
Proof.
  unfold crossLine. repeat (break_if; rewrite ?car_completeSimulation; try reflexivity).
Qed.

(** The completion check, as a function of the gate fields and of where
    the vehicle is. *)
Lemma gate_finishLine d w :
  let completes := distanceReached w && negb (isCompleteRef (refs w))
                   && allNotificationsSeen w in
  gate (finishLine d w)
  = (isComplete (ui w) || completes, notificationsRef (refs w),
     timerCleared (timerVars w) || completes, isCompleteRef (refs w),
     finishLineCrossed w || (Qleb (posZ (car w)) finishLineZ && negb (isCompleteRef (refs w)))).
Proof.
  unfold finishLine.
  pose proof (gate_crossLine d w) as H1. cbv zeta in H1.
  pose proof (gate_completeWhenSeen (crossLine d w)) as H2. cbv zeta in H2.
  rewrite (allNotificationsSeen_gate w (crossLine d w)) in H2
    by (unfold gate in H1; congruence).
  unfold gate in H1. injection H1 as E1 E2 E3 E4 E5.
  rewrite E1, E2, E3, E4, E5 in H2. rewrite H2. cbv zeta. unfold distanceReached.
  destruct (isComplete (ui w)), (timerCleared (timerVars w)), (finishLineCrossed w),
    (Qleb (posZ (car w)) finishLineZ), (isCompleteRef (refs w)), (allNotificationsSeen w);
    reflexivity.
Qed.

Lemma car_endOfStep w : car (endOfStep w) = car w.
Proof. reflexivity. Qed.

Lemma posZ_coast d w : posZ (car (coast d w)) = posZ (car w).
Proof. unfold coast. repeat (break_if; try reflexivity). Qed.

Lemma posZ_tick_started d w :
  gameStartedRef (refs w) = true ->
  posZ (car (tick d w))
  = posZ (car (blocks (traffic (move (control (elapsedSeconds d w) (beforeControl d w)))))).
Proof.
  intros Hs. rewrite tick_started by exact Hs.
  rewrite car_endOfStep, posZ_coast, car_finishLine. reflexivity.
Qed.

Lemma gate_endOfStep w : gate (endOfStep w) = gate w.
Proof. reflexivity. Qed.

Lemma allNotificationsSeen_gate_eq w w' :
  gate w' = gate w -> allNotificationsSeen w' = allNotificationsSeen w.
Proof. unfold gate. intros H. apply allNotificationsSeen_gate. congruence. Qed.

(** The gate fields after a tick of a started run. *)
Lemma gate_tick_started d w :
  gameStartedRef (refs w) = true ->
  let z' := posZ (car (tick d w)) in
  let completes := (finishLineCrossed w || Qleb z' finishLineZ)
                   && negb (isCompleteRef (refs w)) && allNotificationsSeen w in
  gate (tick d w)
  = (isComplete (ui w) || completes, notificationsRef (refs w),
     timerCleared (timerVars w) || completes, isCompleteRef (refs w),
     finishLineCrossed w || (Qleb z' finishLineZ && negb (isCompleteRef (refs w)))).
Proof.
  intros Hs. cbv zeta. rewrite (posZ_tick_started d w Hs).
  rewrite tick_started by exact Hs.
  pose proof (gate_beforeFinish d w) as Hg.
  remember (blocks (traffic (move (control (elapsedSeconds d w) (beforeControl d w))))) as w5.
  clear Heqw5.
  rewrite gate_endOfStep, gate_coast, gate_finishLine. cbv zeta. unfold distanceReached.
  rewrite (allNotificationsSeen_gate_eq _ _ Hg).
  unfold gate in Hg. injection Hg as -> -> -> -> ->. reflexivity.
Qed.

Lemma gate_tick_not_started d w :
  gameStartedRef (refs w) = false -> gate (tick d w) = gate w.
Proof. intros Hs. rewrite tick_not_started by exact Hs. reflexivity. Qed.

Lemma allNotificationsSeen_nil w :
  notificationsRef (refs w) = [] -> allNotificationsSeen w = false.
Proof. unfold allNotificationsSeen. intros ->. reflexivity. Qed.

(** The completion flag and the notification list, through a tick. *)
Lemma tick_without_notifications d w :
  notificationsRef (refs w) = [] ->
  isComplete (ui (tick d w)) = isComplete (ui w)
  /\ notificationsRef (refs (tick d w)) = [].
Proof.
  intros Hn. destruct (gameStartedRef (refs w)) eqn:Hs.
  - pose proof (gate_tick_started d w Hs) as H. cbv zeta in H.
    rewrite (allNotificationsSeen_nil w Hn), andb_false_r, orb_false_r in H.
    unfold gate in H. split; congruence.
  - pose proof (gate_tick_not_started d w Hs) as H. unfold gate in H. split; congruence.
Qed.

Lemma drain_without_notifications n : forall clock w,
  notificationsRef (refs w) = [] ->
  isComplete (ui (drain n clock w)) = isComplete (ui w)
  /\ notificationsRef (refs (drain n clock w)) = [].
Proof.
  induction n as [|n IH]; intros clock w Hn; cbn [drain]; [auto|].
  destruct (Qleb _ _); [|auto].
  destruct (tick_without_notifications (clock (frameCount (loop w) + 1)%Z) w Hn) as [H1 H2].
  destruct (IH clock _ H2) as [H3 H4]. split; congruence.
Qed.

Lemma step_without_notifications w e :
  notificationsRef (refs w) = [] -> isComplete (ui (step w e)) = isComplete (ui w).
Proof.
  intros Hn. destruct e; cbn [step]; try reflexivity.
  - unfold animate. destruct (lastAnimationTime (loop w)); [|reflexivity].
    match goal with |- context [drain ?n ?c ?x] =>
      destruct (drain_without_notifications n c x Hn) as [H _]; exact H end.
  - unfold timerInterval.
    repeat (break_if; try reflexivity).
    unfold timeDeduction.
    repeat (break_if; fields);
      (transitivity (isComplete (ui (fold_left
          (triggerNotification dateNow ((dateNow - z) / 1000)) (indexed notificationTimes) w)));
       [unfold logSecond; repeat (break_if; fields); reflexivity
       | apply (fold_left_frame (fun x => isComplete (ui x))); intros a [i t];
         unfold triggerNotification; repeat (break_if; fields); reflexivity]).
  - unfold startGame. frame.
  - unfold countdownDone. frame.
  - unfold handleToggleAutopilot. frame.
  - unfold clickNotification. frame.
Qed.

Lemma popup_crossLine d w :
  Qleb (posZ (car w)) finishLineZ = true -> isCompleteRef (refs w) = false ->
  finishLineCrossed w = false -> allNotificationsSeen w = false ->
  showViewAllNotificationsPopup (ui (crossLine d w)) = true.
Proof.
  intros Hz Hr Hc Hs. unfold crossLine. rewrite Hz, Hr, Hc. cbn [andb negb].
  match goal with |- context [allNotificationsSeen ?x] =>
    rewrite (allNotificationsSeen_gate w x) by reflexivity end.
  rewrite Hs. reflexivity.
Qed.

Lemma notes_crossLine d w :
  notificationsRef (refs (crossLine d w)) = notificationsRef (refs w).
Proof. pose proof (gate_crossLine d w) as H. unfold gate in H. cbv zeta in H. congruence. Qed.

Lemma popup_finishLine d w :
  Qleb (posZ (car w)) finishLineZ = true -> isCompleteRef (refs w) = false ->
  finishLineCrossed w = false -> allNotificationsSeen w = false ->
  showViewAllNotificationsPopup (ui (finishLine d w)) = true.
Proof.
  intros Hz Hr Hc Hs. unfold finishLine, completeWhenSeen.
  rewrite (allNotificationsSeen_gate w (crossLine d w)) by apply notes_crossLine.
  rewrite Hs. destruct (_ && _); apply popup_crossLine; assumption.
Qed.

Lemma ui_coast d w : ui (coast d w) = ui w.
Proof. unfold coast. repeat (break_if; try reflexivity). Qed.

Lemma ui_endOfStep w : ui (endOfStep w) = ui w.
Proof. reflexivity. Qed.

(** C7 as the code has it.  For a started run not yet complete, a tick
    completes the run exactly when the distance is reached (at this tick or
    before), at least one notification has arrived and every arrived
    notification is seen.  The crossing is remembered; the interval timer
    is cleared only on completion, so time and score decay go on until
    then; and a crossing that does not complete shows the reminder popup. *)
Theorem completion_when_distance_and_notifications (dateNow : Z) (w : World) :
  gameStartedRef (refs w) = true ->
  isComplete (ui w) = false ->
  isCompleteRef (refs w) = false ->
  let w' := tick dateNow w in
  isComplete (ui w')
    = distanceReached w' && (0 <? length (notificationsRef (refs w)))%nat
      && everyArrivedSeen w
  /\ finishLineCrossed w' = distanceReached w'
  /\ notificationsRef (refs w') = notificationsRef (refs w)
  /\ timerCleared (timerVars w') = timerCleared (timerVars w) || isComplete (ui w')
  /\ (finishLineCrossed w = false -> distanceReached w' = true ->
      isComplete (ui w') = false -> showViewAllNotificationsPopup (ui w') = true).
Proof.
  intros Hs Hd Hr w'.
  pose proof (gate_tick_started dateNow w Hs) as Hg. cbv zeta in Hg.
  fold w' in Hg. rewrite Hd, Hr in Hg. cbn [negb orb] in Hg.
  rewrite !andb_true_r in Hg. unfold gate in Hg.
  injection Hg as G1 G2 G3 G4 G5.
  assert (Hreach : distanceReached w'
                   = finishLineCrossed w || Qleb (posZ (car w')) finishLineZ).
  { unfold distanceReached. rewrite G5.
    destruct (finishLineCrossed w), (Qleb (posZ (car w')) finishLineZ); reflexivity. }
  repeat split.
  - rewrite G1, Hreach. unfold allNotificationsSeen, everyArrivedSeen.
    rewrite andb_assoc. reflexivity.
  - rewrite G5, Hreach. reflexivity.
  - exact G2.
  - rewrite G3, G1. reflexivity.
  - intros Hc Hreached Hnot.
    rewrite Hreach, Hc in Hreached. cbn [orb] in Hreached.
    rewrite G1, Hc, Hreached in Hnot. cbn [orb andb] in Hnot.
    unfold w' in *. rewrite tick_started by exact Hs.
    rewrite (posZ_tick_started dateNow w Hs) in Hreached.
    pose proof (gate_beforeFinish dateNow w) as Hb.
    remember (blocks (traffic (move (control (elapsedSeconds dateNow w)
                (beforeControl dateNow w))))) as w5.
    clear Heqw5.
    rewrite ui_endOfStep, ui_coast.
    unfold gate in Hb. injection Hb as B1 B2 B3 B4 B5.
    apply popup_finishLine; try congruence.
    rewrite (allNotificationsSeen_gate w w5) by congruence. exact Hnot.
Qed.

Lemma completion_when_distance_and_notifications_witness :
  isComplete (ui (tick 70000 (nearFinish [seenNotification]))) = true
  /\ isComplete (ui (tick 70000 (nearFinish [seenNotification; unseenNotification]))) = false.
Proof.
  split.
  - rewrite (proj1 (completion_when_distance_and_notifications 70000
               (nearFinish [seenNotification]) eq_refl eq_refl eq_refl)).
    vm_compute. reflexivity.
  - rewrite (proj1 (completion_when_distance_and_notifications 70000
               (nearFinish [seenNotification; unseenNotification]) eq_refl eq_refl eq_refl)).
    vm_compute. reflexivity.
Defined.

(** C7 as stated fails.  The vehicle reaches the finish line in this tick
    and every notification that has arrived is seen (none has), yet the run
    is not completed. *)
Lemma finished_without_notifications_not_completed :
  let w := tick 70000 (nearFinish []) in
  gameStartedRef (refs (nearFinish [])) = true
  /\ distanceReached w = true
  /\ everyArrivedSeen w = true
  /\ isComplete (ui w) = false.
Proof. vm_compute. repeat split; reflexivity. Qed.

(** C10.  The completion predicate asks for a non-empty list, and as long
    as the list of notifications stays empty no callback completes the
    run, wherever the vehicle is. *)
Theorem no_notifications_no_completion (es : list Event) (w : World) :
  (forall k, notificationsRef (refs (run (take k es) w)) = []) ->
  isComplete (ui (run es w)) = isComplete (ui w)
  /\ allNotificationsSeen (run es w)
     = ((0 <? length (notificationsRef (refs (run es w))))%nat
        && forallb n_seen (notificationsRef (refs (run es w)))).
Proof.
  intros H. split; [|reflexivity].
  revert w H. induction es as [|e es IH]; intros w H; [reflexivity|].
  cbn [run fold_left]. fold (run es (step w e)).
  rewrite IH.
  - apply step_without_notifications. exact (H 0%nat).
  - intros k. exact (H (S k)).
Qed.

Lemma no_notifications_no_completion_witness :
  let es := [Frame 0 70000; Frame 17 70017; Timer 70020; Effects; Frame 34 70034] in
  isComplete (ui (run es (nearFinish []))) = false
  /\ distanceReached (run es (nearFinish [])) = true.
Proof.
  intros es.
  assert (H : forall k, notificationsRef (refs (run (take k es) (nearFinish []))) = []).
  { intros k. do 6 (destruct k as [|k]; [vm_compute; reflexivity|]).
    vm_compute. reflexivity. }
  split.
  - rewrite (proj1 (no_notifications_no_completion es (nearFinish []) H)). reflexivity.
  - vm_compute. reflexivity.
Defined.

(** ** C4: the distance log has no gaps *)

Lemma js_set_append {A} (arr : JsArray A) (v : A) :
  js_set arr (length arr) v = arr ++ [Some v].
Proof.
  unfold js_set. rewrite Nat.ltb_irrefl, Nat.sub_diag. reflexivity.
Qed.

(** Filling from the first free index appends. *)
Lemma fillUnits_append label n : forall (unit : Z) (arr : JsArray Mode),
  (0 <= unit)%Z -> Z.to_nat unit = length arr ->
  fillUnits label unit n arr = arr ++ replicate n (Some label).
Proof.
  induction n as [|n IH]; intros unit arr H0 Hlen; cbn [fillUnits replicate].
  - rewrite app_nil_r. reflexivity.
  - rewrite Hlen, js_set_append, IH.
    + rewrite <- app_assoc. reflexivity.
    + lia.
    + rewrite length_app. cbn [length]. lia.
Qed.

Lemma noHoles_append {A} (arr : JsArray A) n (v : A) :
  noHoles arr -> noHoles (arr ++ replicate n (Some v)).
Proof.
  unfold noHoles. intros H. apply Forall_app. split; [exact H|].
  apply Forall_replicate. discriminate.
Qed.

Lemma modeLabel_with_loop f w : modeLabel (with_loop f w) = modeLabel w.
Proof. reflexivity. Qed.

(** What the per-tick logging writes. *)
Lemma logDistanceUnits_spec w :
  LogInv w ->
  let last := lastDistanceUnitLoggedRef (refs w) in
  let cur := currentDistanceUnit w in
  logGate (logDistanceUnits w)
  = (Z.max last cur,
     modeByUnit (data w) ++ replicate (Z.to_nat (cur - last)) (Some (modeLabel w)),
     isComplete (ui w), showInstructions (ui w), gameStartedRef (refs w)).
Proof.
  intros (Hrange & Hlen & Hholes & Hdone & Hinstr). cbv zeta.
  unfold logDistanceUnits, logGate.
  destruct (Z.ltb_spec (lastDistanceUnitLoggedRef (refs w)) (currentDistanceUnit w)) as [Hlt|Hge];
    cbn [andb].
  - destruct (Z.leb_spec 0 (currentDistanceUnit w)) as [H0|H0]; [|lia].
    fields. rewrite fillUnits_append by lia.
    rewrite Z.max_r by lia. reflexivity.
  - rewrite Z.max_l by lia.
    replace (Z.to_nat (currentDistanceUnit w - lastDistanceUnitLoggedRef (refs w))) with 0%nat
      by lia.
    cbn [replicate]. rewrite app_nil_r. reflexivity.
Qed.

Lemma currentDistanceUnit_le w : (currentDistanceUnit w <= TRACK_LENGTH)%Z.
Proof. unfold currentDistanceUnit. lia. Qed.

Lemma LogInv_gate w : LogInv w <-> LogOk (logGate w).
Proof. reflexivity. Qed.

Lemma LogInv_same w w' : logGate w' = logGate w -> LogInv w -> LogInv w'.
Proof. rewrite !LogInv_gate. intros ->. auto. Qed.

Lemma LogInv_logDistanceUnits w : LogInv w -> LogInv (logDistanceUnits w).
Proof.
  intros H. pose proof (logDistanceUnits_spec w H) as Hg. cbv zeta in Hg.
  apply LogInv_gate. rewrite Hg.
  destruct H as (Hrange & Hlen & Hholes & Hdone & Hinstr).
  pose proof (currentDistanceUnit_le w).
  unfold LogOk. repeat split; try lia.
  - rewrite length_app, length_replicate. lia.
  - apply noHoles_append. exact Hholes.
  - intros Hd. specialize (Hdone Hd). lia.
  - apply Hinstr; assumption.
  - apply Hinstr; assumption.
Qed.

(** What the finalisation writes. *)
Lemma ensureModeByUnitComplete_spec w :
  LogInv w ->
  logGate (ensureModeByUnitComplete w)
  = (TRACK_LENGTH,
     modeByUnit (data w)
       ++ replicate (Z.to_nat (TRACK_LENGTH - lastDistanceUnitLoggedRef (refs w)))
            (Some (modeLabel w)),
     isComplete (ui w), showInstructions (ui w), gameStartedRef (refs w)).
Proof.
  intros (Hrange & Hlen & Hholes & Hdone & Hinstr).
  unfold ensureModeByUnitComplete, logGate.
  destruct (Z.leb_spec TRACK_LENGTH (lastDistanceUnitLoggedRef (refs w))) as [Hge|Hlt].
  - replace (Z.to_nat (TRACK_LENGTH - lastDistanceUnitLoggedRef (refs w))) with 0%nat by lia.
    cbn [replicate]. rewrite app_nil_r. repeat f_equal. lia.
  - fields. rewrite fillUnits_append by lia. reflexivity.
Qed.

Lemma logGate_captureNotifications w : logGate (captureNotifications w) = logGate w.
Proof. reflexivity. Qed.

Lemma logGate_completeSimulation w :
  LogInv w ->
  logGate (completeSimulation w)
  = (TRACK_LENGTH,
     modeByUnit (data w)
       ++ replicate (Z.to_nat (TRACK_LENGTH - lastDistanceUnitLoggedRef (refs w)))
            (Some (modeLabel w)),
     true, showInstructions (ui w), gameStartedRef (refs w)).
Proof.
  intros H. unfold completeSimulation.
  match goal with |- context [ensureModeByUnitComplete ?x] =>
    pose proof (ensureModeByUnitComplete_spec x (LogInv_same w x eq_refl H)) as He;
    remember (ensureModeByUnitComplete x) as w2 eqn:E; clear E
  end.
  unfold logGate, captureNotifications in *. revert He. fields. intros He.
  injection He as E1 E2 E3 E4 E5. rewrite E1, E2, E4, E5. reflexivity.
Qed.

Lemma LogInv_completeSimulation w :
  LogInv w -> showInstructions (ui w) = false -> LogInv (completeSimulation w).
Proof.
  intros H Hi. apply LogInv_gate. rewrite (logGate_completeSimulation w H).
  destruct H as (Hrange & Hlen & Hholes & Hdone & Hinstr).
  unfold LogOk. rewrite Hi. repeat split; try lia; try discriminate.
  - rewrite length_app, length_replicate. lia.
  - apply noHoles_append. exact Hholes.
Qed.

Lemma logGate_clearBlocksAfterFinish w : logGate (clearBlocksAfterFinish w) = logGate w.
Proof. unfold_phases. unfold logGate. frame. Qed.

Lemma logGate_spawnBlocks e w : logGate (spawnBlocks e w) = logGate w.
Proof. unfold_phases. unfold logGate. frame. Qed.

Lemma logGate_autopilotPendingStep e w : logGate (autopilotPendingStep e w) = logGate w.
Proof. unfold_phases. unfold logGate. frame. Qed.

Lemma logGate_control e w : logGate (control e w) = logGate w.
Proof. unfold_phases. unfold logGate. frame. Qed.

Lemma logGate_move w : logGate (move w) = logGate w.
Proof. reflexivity. Qed.

Lemma logGate_traffic w : logGate (traffic w) = logGate w.
Proof.
  apply (traffic_frame logGate); [|reflexivity].
  unfold_phases. unfold logGate, setCooldown, pushCollisionEvent, deductCollision. frame.
Qed.

Lemma logGate_blocks w : logGate (blocks w) = logGate w.
Proof.
  apply (blocks_frame logGate); [|reflexivity].
  unfold_phases. unfold logGate, setCooldown, pushCollisionEvent, deductCollision. frame.
Qed.

Lemma logGate_coast d w : logGate (coast d w) = logGate w.
Proof. unfold_phases. unfold logGate. frame. Qed.

Lemma logGate_endOfStep w : logGate (endOfStep w) = logGate w.
Proof. reflexivity. Qed.

Lemma LogInv_crossLine d w :
  LogInv w -> showInstructions (ui w) = false -> LogInv (crossLine d w).
Proof.
  intros H Hi. unfold crossLine. destruct (_ && _); [|exact H].
  destruct (allNotificationsSeen _).
  - apply LogInv_completeSimulation; [|exact Hi]. exact (LogInv_same w _ eq_refl H).
  - exact (LogInv_same w _ eq_refl H).
Qed.

Lemma showInstructions_crossLine d w :
  showInstructions (ui (crossLine d w)) = showInstructions (ui w).
Proof.
  unfold crossLine, completeSimulation, captureNotifications, ensureModeByUnitComplete.
  frame.
Qed.

Lemma LogInv_finishLine d w :
  LogInv w -> showInstructions (ui w) = false -> LogInv (finishLine d w).
Proof.
  intros H Hi. unfold finishLine, completeWhenSeen.
  pose proof (LogInv_crossLine d w H Hi) as H1.
  destruct (_ && _); [|exact H1].
  destruct (allNotificationsSeen _); [|exact H1].
  apply LogInv_completeSimulation; [exact H1|].
  rewrite showInstructions_crossLine. exact Hi.
Qed.

Lemma LogInv_started w :
  LogInv w -> gameStartedRef (refs w) = true -> showInstructions (ui w) = false.
Proof.
  intros (_ & _ & _ & _ & Hinstr) Hs. cbv beta in Hinstr.
  destruct (showInstructions (ui w)); [|reflexivity].
  destruct (Hinstr eq_refl). congruence.
Qed.

Lemma flags_beforeFinish d w :
  flags (blocks (traffic (move (control (elapsedSeconds d w) (beforeControl d w))))) = flags w.
Proof.
  assert (Hb : flags (blocks (traffic (move (control (elapsedSeconds d w) (beforeControl d w)))))
               = flags (beforeControl d w)).
  { pose proof (logGate_blocks (traffic (move (control (elapsedSeconds d w)
                  (beforeControl d w))))) as G.
    rewrite logGate_traffic, logGate_move, logGate_control in G.
    unfold logGate in G. unfold flags. congruence. }
  rewrite Hb. unfold beforeControl.
  set (w0 := with_loop _ w).
  assert (H0 : flags w0 = flags w) by reflexivity. clearbody w0.
  rewrite <- H0.
  pose proof (logGate_autopilotPendingStep (elapsedSeconds d w0)
    (spawnBlocks (elapsedSeconds d w0) (logDistanceUnits (clearBlocksAfterFinish w0)))) as G1.
  rewrite logGate_spawnBlocks in G1.
  assert (G2 : flags (logDistanceUnits (clearBlocksAfterFinish w0))
               = flags (clearBlocksAfterFinish w0)).
  { unfold logDistanceUnits, flags. frame. }
  pose proof (logGate_clearBlocksAfterFinish w0) as G3.
  unfold logGate in G1, G3. injection G1 as _ _ _ A1 A2. injection G3 as _ _ _ A3 A4.
  unfold flags in *. injection G2 as A5 A6. congruence.
Qed.

Lemma LogInv_beforeFinish d w :
  LogInv w ->
  LogInv (blocks (traffic (move (control (elapsedSeconds d w) (beforeControl d w))))).
Proof.
  intros H.
  eapply LogInv_same; [apply logGate_blocks|].
  eapply LogInv_same; [apply logGate_traffic|].
  eapply LogInv_same; [apply logGate_move|].
  eapply LogInv_same; [apply logGate_control|].
  unfold beforeControl.
  eapply LogInv_same; [apply logGate_autopilotPendingStep|].
  eapply LogInv_same; [apply logGate_spawnBlocks|].
  apply LogInv_logDistanceUnits.
  eapply LogInv_same; [apply logGate_clearBlocksAfterFinish|].
  exact (LogInv_same w _ eq_refl H).
Qed.

Lemma LogInv_tick d w : LogInv w -> LogInv (tick d w).
Proof.
  intros H. destruct (gameStartedRef (refs w)) eqn:Hs.
  - rewrite tick_started by exact Hs.
    pose proof (LogInv_beforeFinish d w H) as H5.
    pose proof (flags_beforeFinish d w) as F5.
    pose proof (LogInv_started w H Hs) as Hi.
    remember (blocks (traffic (move (control (elapsedSeconds d w) (beforeControl d w)))))
      as w5 eqn:E.
    clear E.
    apply (LogInv_same (finishLine d w5)).
    { rewrite logGate_endOfStep, logGate_coast. reflexivity. }
    apply LogInv_finishLine; [exact H5|].
    unfold flags in F5. congruence.
  - rewrite tick_not_started by exact Hs. exact (LogInv_same w _ eq_refl H).
Qed.

Lemma LogInv_drain n : forall clock w, LogInv w -> LogInv (drain n clock w).
Proof.
  induction n as [|n IH]; intros clock w H; cbn [drain]; [exact H|].
  destruct (Qleb _ _); [|exact H]. apply IH, LogInv_tick, H.
Qed.

Lemma LogInv_step w e : LogInv w -> LogInv (step w e).
Proof.
  intros H. destruct e; cbn [step].
  - unfold animate. destruct (lastAnimationTime (loop w)).
    + apply LogInv_drain. exact (LogInv_same w _ eq_refl H).
    + exact (LogInv_same w _ eq_refl H).
  - eapply LogInv_same; [|exact H].
    unfold timerInterval. repeat (break_if; try reflexivity).
    unfold timeDeduction, logGate.
    repeat (break_if; fields);
      (unfold logSecond; repeat (break_if; fields);
       apply (fold_left_frame logGate); intros a [i t];
       unfold triggerNotification, logGate; repeat (break_if; fields); reflexivity).
  - exact (LogInv_same w _ eq_refl H).
  - exact (LogInv_same w _ eq_refl H).
  - unfold startGame. destruct (showInstructions (ui w)) eqn:Hi; [|exact H].
    destruct H as (Hrange & Hlen & Hholes & Hdone & Hinstr). cbv beta in Hinstr.
    destruct (Hinstr Hi) as [Hs Hd].
    unfold LogInv, LogOk, logGate. fields. rewrite Hs, Hd.
    unfold TRACK_LENGTH. repeat split; try lia; try discriminate. constructor.
  - unfold countdownDone. destruct (showInstructions (ui w)) eqn:Hi; [exact H|].
    destruct H as (Hrange & Hlen & Hholes & Hdone & Hinstr).
    unfold LogInv, LogOk, logGate. fields. rewrite Hi.
    repeat split; try assumption; try discriminate; lia.
  - eapply LogInv_same; [|exact H]. unfold handleToggleAutopilot, logGate. frame.
  - eapply LogInv_same; [|exact H]. unfold clickNotification, logGate. frame.
  - exact (LogInv_same w _ eq_refl H).
Qed.

Lemma LogInv_run es : forall w, LogInv w -> LogInv (run es w).
Proof.
  induction es as [|e es IH]; intros w H; [exact H|].
  cbn [run fold_left]. apply IH, LogInv_step, H.
Qed.

Lemma LogInv_mounted ids : LogInv (mounted ids).
Proof.
  unfold LogInv, LogOk, logGate, mounted, TRACK_LENGTH. fields.
  repeat split; try lia; try discriminate. constructor.
Qed.




(** Every run of a freshly mounted simulator is covered. *)
Corollary mode_by_unit_complete_from_mount (ids : list nat) (es : list Event) :
  isComplete (ui (run es (mounted ids))) = true ->
  length (modeByUnit (data (run es (mounted ids)))) = Z.to_nat (TRACK_LENGTH + 1)
  /\ noHoles (modeByUnit (data (run es (mounted ids)))).
Proof.
  intros Hdone.
  pose proof (LogInv_run es _ (LogInv_mounted ids)) as (Hrange & Hlen & Hholes & Hlast & _).
  cbv beta in Hlast. rewrite (Hlast Hdone) in Hlen. split; assumption.
Qed.

(** ** C8: the lateral offset *)

Lemma at_index_lanes_bound i : (i <= 2)%nat -> -2 <= at_index lanes i /\ at_index lanes i <= 2.
Proof.
  intros H. destruct i as [|[|[|i]]]; [| | |lia]; cbn; split; discriminate.
Qed.

Lemma mostClearance_bound info cur : (cur <= 2)%nat -> (mostClearance info cur <= 2)%nat.
Proof.
  intros H. unfold mostClearance. cbn [fold_left].
  repeat (break_if; cbn [fst snd]); lia.
Qed.

Lemma firstSafe_bound info i : firstSafe info = Some i -> (i <= 2)%nat.
Proof.
  unfold firstSafe. cbn [find].
  repeat (break_if; try discriminate); intros [= <-]; lia.
Qed.

Lemma chooseLane_bound info cur : (cur <= 2)%nat -> (chooseLane info cur <= 2)%nat.
Proof.
  intros H. unfold chooseLane.
  pose proof (mostClearance_bound info cur H).
  destruct (negb (safe (laneAt info cur))).
  - destruct (firstSafe info) as [i|] eqn:E.
    + pose proof (firstSafe_bound info i E). destruct (_ && _); lia.
    + destruct (_ && _); lia.
  - destruct (_ && _); lia.
Qed.

Lemma LaneOk_same c c' : lateral c' = lateral c -> LaneOk c -> LaneOk c'.
Proof. unfold lateral, LaneOk. intros [= -> -> ->]. auto. Qed.

Lemma LaneOk_autopilotControl w : LaneOk (car w) -> LaneOk (car (autopilotControl w)).
Proof.
  intros (H1 & H2 & H3 & H4 & H5). unfold autopilotControl. fields.
  pose proof (chooseLane_bound (scanObstacles w) (currentLaneIndex (car w)) H5) as Hb.
  destruct (at_index_lanes_bound _ Hb).
  destruct (negb _); unfold LaneOk; fields; auto.
Qed.

Lemma LaneOk_manualControl w : LaneOk (car w) -> LaneOk (car (manualControl w)).
Proof.
  intros (H1 & H2 & H3 & H4 & H5). unfold manualControl.
  destruct (gameStartedRef (refs w)); [|unfold LaneOk; fields; auto].
  fields.
  destruct (kArrowLeft (keys w) && (0 <? currentLaneIndex (car w))%nat) eqn:EL; fields;
    match goal with |- context [set_carVelocity ?v _] => generalize v; intros vel end;
    match goal with |- context [if ?c then _ else _] => destruct c eqn:ER end;
    unfold LaneOk; fields;
    try (apply andb_prop in ER as [_ ER]; apply Nat.ltb_lt in ER);
    repeat split; auto; try lia;
    try (apply at_index_lanes_bound; lia).
Qed.

Lemma LaneOk_control e w : LaneOk (car w) -> LaneOk (car (control e w)).
Proof.
  intros H. unfold control.
  destruct (_ && _); [apply LaneOk_autopilotControl | apply LaneOk_manualControl]; exact H.
Qed.

(** The blend is a convex combination of the offset and the target. *)
Lemma LaneOk_move w : LaneOk (car w) -> LaneOk (car (move w)).
Proof.
  intros (H1 & H2 & H3 & H4 & H5). unfold move, laneChangeFactor, LaneOk. fields.
  destruct (autopilotRef (refs w)).
  - destruct (Q.min_spec ((2 # 10) * 1) 1) as [[_ E]|[_ E]]; rewrite E;
      repeat split; auto; nra.
  - destruct (Q.min_spec ((1 # 10) * 1) 1) as [[_ E]|[_ E]]; rewrite E;
      repeat split; auto; nra.
Qed.

Lemma lateral_coast d w : lateral (car (coast d w)) = lateral (car w).
Proof. unfold coast. repeat (break_if; try reflexivity). Qed.

Lemma LaneOk_tick d w : LaneOk (car w) -> LaneOk (car (tick d w)).
Proof.
  intros H. destruct (gameStartedRef (refs w)) eqn:Hs.
  - rewrite tick_started by exact Hs.
    rewrite car_endOfStep.
    eapply LaneOk_same; [apply lateral_coast|].
    rewrite car_finishLine, car_blocks, car_traffic.
    apply LaneOk_move, LaneOk_control. rewrite car_beforeControl. exact H.
  - rewrite tick_not_started by exact Hs. exact H.
Qed.

Lemma LaneOk_drain n : forall clock w, LaneOk (car w) -> LaneOk (car (drain n clock w)).
Proof.
  induction n as [|n IH]; intros clock w H; cbn [drain]; [exact H|].
  destruct (Qleb _ _); [|exact H]. apply IH, LaneOk_tick, H.
Qed.

Lemma car_timerInterval d w : car (timerInterval d w) = car w.
Proof.
  unfold timerInterval. repeat (break_if; try reflexivity).
  unfold timeDeduction.
  repeat (break_if; fields);
    (unfold logSecond; repeat (break_if; fields);
     apply (fold_left_frame car); intros a [i t];
     unfold triggerNotification; repeat (break_if; fields); reflexivity).
Qed.

Lemma LaneOk_step w e : LaneOk (car w) -> LaneOk (car (step w e)).
Proof.
  intros H. destruct e; cbn [step]; try exact H.
  - unfold animate. destruct (lastAnimationTime (loop w)); [|exact H].
    apply LaneOk_drain. exact H.
  - rewrite car_timerInterval. exact H.
  - unfold startGame. destruct (showInstructions (ui w)); exact H.
  - unfold countdownDone. destruct (showInstructions (ui w)); exact H.
  - unfold handleToggleAutopilot. repeat (break_if; try exact H).
  - unfold clickNotification. destruct (gameStartedRef (refs w)); exact H.
Qed.

Lemma LaneOk_run es : forall w, LaneOk (car w) -> LaneOk (car (run es w)).
Proof.
  induction es as [|e es IH]; intros w H; [exact H|].
  cbn [run fold_left]. apply IH, LaneOk_step, H.
Qed.

Lemma LaneOk_mounted ids : LaneOk (car (mounted ids)).
Proof. unfold LaneOk. cbn. repeat split; try discriminate; lia. Qed.

(** The earliest build: the drift is clamped at 2.5, and the blend keeps
    the offset between the clamp bounds. *)
Lemma Legacy_toLane_bounded index s :
  (index <= 2)%nat -> Legacy.bounded s -> Legacy.bounded (Legacy.toLane index s).
Proof.
  intros Hi (H1 & H2 & H3 & H4 & H5). destruct (at_index_lanes_bound index Hi).
  unfold Legacy.bounded, Legacy.toLane. cbn. auto.
Qed.

Lemma Legacy_drawnLane q : 0 <= q -> q < 1 -> (Z.to_nat (Qfloor (q * 3)) <= 2)%nat.
Proof.
  intros H0 H1.
  assert (H : (Qfloor (q * 3) < 3)%Z).
  { apply Z.lt_nge. intros Hge.
    assert (Hq : inject_Z 3 <= inject_Z (Qfloor (q * 3))) by (rewrite <- Zle_Qle; exact Hge).
    pose proof (Qfloor_le (q * 3)) as Hfl. change (inject_Z 3) with 3 in Hq. lra. }
  lia.
Qed.

Lemma Legacy_blindDrift_bounded i s :
  Legacy.validInput i -> Legacy.bounded s -> Legacy.bounded (Legacy.blindDrift i s).
Proof.
  intros (L0 & L1 & D0 & D1 & B) Hs. unfold Legacy.blindDrift.
  set (s1 := if (_ =? 0)%nat then _ else s).
  assert (H1 : Legacy.bounded s1).
  { unfold s1. destruct (_ =? 0)%nat; [|exact Hs].
    apply Legacy_toLane_bounded; [apply Legacy_drawnLane; assumption | exact Hs]. }
  clearbody s1. destruct H1 as (H1 & H2 & H3 & H4 & H5).
  unfold Legacy.bounded, Legacy.setOffset. cbn.
  repeat split; auto.
  - apply Q.le_max_r.
  - apply Q.max_lub; [apply Q.le_min_r | discriminate].
Qed.

Lemma Legacy_autopilotLane_bounded i s :
  Legacy.validInput i -> Legacy.bounded s -> Legacy.bounded (Legacy.autopilotLane i s).
Proof.
  intros Hi Hs. unfold Legacy.autopilotLane.
  set (s0 := Legacy.Build_Lateral _ _ _ _).
  assert (H0 : Legacy.bounded s0) by exact Hs. clearbody s0.
  destruct (Legacy.approachingFinish i).
  - pose proof (Legacy_blindDrift_bounded i s0 Hi H0) as H1.
    rewrite Nat.eqb_refl. exact H1.
  - destruct (negb _); [|exact H0].
    apply Legacy_toLane_bounded; [apply Hi | exact H0].
Qed.

Lemma Legacy_manualLane_bounded i s :
  Legacy.bounded s -> Legacy.bounded (Legacy.manualLane i s).
Proof.
  intros Hs. unfold Legacy.manualLane.
  set (s1 := if _ && _ then _ else s).
  assert (H1 : Legacy.bounded s1).
  { unfold s1. destruct (_ && _); [|exact Hs].
    apply Legacy_toLane_bounded; [|exact Hs]. destruct Hs as (_ & _ & _ & _ & H). lia. }
  clearbody s1.
  destruct (Legacy.keyD i && (Legacy.currentLaneIndex s1 <? 2)%nat) eqn:E; [|exact H1].
  apply andb_prop in E as [_ E]. apply Nat.ltb_lt in E.
  apply Legacy_toLane_bounded; [lia | exact H1].
Qed.

Lemma Legacy_lateralStep_bounded s i :
  Legacy.validInput i -> Legacy.bounded s -> Legacy.bounded (Legacy.lateralStep s i).
Proof.
  intros Hi Hs. unfold Legacy.lateralStep.
  set (s1 := if _ && _ then _ else _).
  assert (H1 : Legacy.bounded s1).
  { unfold s1. destruct (_ && _);
      [apply Legacy_autopilotLane_bounded | apply Legacy_manualLane_bounded]; assumption. }
  clearbody s1. destruct H1 as (H1 & H2 & H3 & H4 & H5).
  unfold Legacy.bounded, Legacy.setOffset. cbn.
  destruct (Legacy.autopilot i); repeat split; auto; nra.
Qed.

Lemma Legacy_run_bounded ins : forall s,
  Forall Legacy.validInput ins -> Legacy.bounded s ->
  Legacy.bounded (fold_left Legacy.lateralStep ins s).
Proof.
  induction ins as [|i ins IH]; intros s Hv Hs; [exact Hs|].
  inversion Hv; subst. cbn [fold_left].
  apply IH; [assumption|]. apply Legacy_lateralStep_bounded; assumption.
Qed.

(** C8 as the code has it.  In the fixed-step build the lateral offset
    starts at 0 and every callback keeps it between the outer lane centres,
    -2 and 2.  In the earliest build the blind-zone drift is clamped to
    [-2.5, 2.5] and the offset stays within that wider band. *)
Theorem lateral_offset_bounded
    (w : World) (es : list Event) (s : Legacy.Lateral) (ins : list Legacy.Input) :
  LaneOk (car w) ->
  Legacy.bounded s ->
  Forall Legacy.validInput ins ->
  (-2 <= carLaneOffset (car (run es w)) /\ carLaneOffset (car (run es w)) <= 2)
  /\ (- (25 # 10) <= Legacy.carLaneOffset (fold_left Legacy.lateralStep ins s)
      /\ Legacy.carLaneOffset (fold_left Legacy.lateralStep ins s) <= 25 # 10).
Proof.
  intros Hw Hs Hins. split.
  - destruct (LaneOk_run es w Hw) as (H1 & H2 & _). split; assumption.
  - destruct (Legacy_run_bounded ins s Hins Hs) as (H1 & H2 & _). split; assumption.
Qed.

Lemma Legacy_initial_bounded : Legacy.bounded Legacy.initial.
Proof. unfold Legacy.bounded. cbn. repeat split; try discriminate; lia. Qed.

Lemma Legacy_pickRight_valid : Legacy.validInput Legacy.pickRight.
Proof. unfold Legacy.validInput. cbn. repeat split; try discriminate; lia. Qed.

Lemma Legacy_blindRight_valid : Legacy.validInput Legacy.blindRight.
Proof. unfold Legacy.validInput. cbn. repeat split; try discriminate; lia. Qed.

Lemma lateral_offset_bounded_witness :
  (-2 <= carLaneOffset (car (run [StartGame; CountdownDone 1000; Frame 0 1000; Frame 40 1040]
                                 (mounted [1; 2; 3; 4; 5]%nat)))
   /\ carLaneOffset (car (run [StartGame; CountdownDone 1000; Frame 0 1000; Frame 40 1040]
                              (mounted [1; 2; 3; 4; 5]%nat))) <= 2)
  /\ (- (25 # 10) <= Legacy.carLaneOffset
        (fold_left Legacy.lateralStep [Legacy.pickRight; Legacy.blindRight] Legacy.initial)
      /\ Legacy.carLaneOffset
        (fold_left Legacy.lateralStep [Legacy.pickRight; Legacy.blindRight] Legacy.initial)
         <= 25 # 10).
Proof.
  apply (lateral_offset_bounded (mounted [1; 2; 3; 4; 5]%nat)
           [StartGame; CountdownDone 1000; Frame 0 1000; Frame 40 1040]
           Legacy.initial [Legacy.pickRight; Legacy.blindRight]).
  - apply LaneOk_mounted.
  - apply Legacy_initial_bounded.
  - repeat constructor; try discriminate.
Defined.

(** One blind-zone frame with a drift draw of 0.99, for a vehicle heading
    for the right lane: from an offset of at least [lo] to one of at least
    [0.8 * (lo + 0.0392) + 0.4]. *)
Lemma Legacy_blindRight_step s lo :
  Legacy.targetLane s = 2 -> Legacy.currentLaneIndex s = 2%nat ->
  (S (Legacy.autopilotTimer s) mod 45 <> 0)%nat ->
  lo <= Legacy.carLaneOffset s -> -2 <= lo -> lo <= 24 # 10 ->
  let s' := Legacy.lateralStep s Legacy.blindRight in
  Legacy.targetLane s' = 2 /\ Legacy.currentLaneIndex s' = 2%nat
  /\ Legacy.autopilotTimer s' = S (Legacy.autopilotTimer s)
  /\ Legacy.driftFloor lo <= Legacy.carLaneOffset s'.
Proof.
  intros Ht Hi Hm Hlo Hlo2 Hhi. cbv zeta.
  unfold Legacy.lateralStep, Legacy.autopilotLane, Legacy.blindDrift, Legacy.blindRight,
    Legacy.setOffset, Legacy.driftFloor.
  cbn [Legacy.autopilot Legacy.elapsedOk Legacy.approachingFinish Legacy.driftDraw
       Legacy.laneDraw andb Legacy.autopilotTimer Legacy.carLaneOffset Legacy.targetLane
       Legacy.currentLaneIndex].
  destruct (Nat.eqb_spec (S (Legacy.autopilotTimer s) mod 45) 0) as [E|_]; [contradiction|].
  cbn [Legacy.autopilotTimer Legacy.carLaneOffset Legacy.targetLane Legacy.currentLaneIndex].
  rewrite Nat.eqb_refl.
  cbn [negb Legacy.autopilotTimer Legacy.carLaneOffset Legacy.targetLane
       Legacy.currentLaneIndex].
  rewrite Ht. repeat split; try assumption.
  set (c := Qmax _ _).
  assert (Hc : lo + ((99 # 100) - (1 # 2)) * (8 # 100) <= c).
  { unfold c. apply Q.max_le_iff. left. apply Q.min_glb; lra. }
  lra.
Qed.

Lemma Legacy_driftFloor_range lo : -2 <= lo -> lo <= 24 # 10 ->
  -2 <= Legacy.driftFloor lo /\ Legacy.driftFloor lo <= 24 # 10.
Proof. unfold Legacy.driftFloor. intros. split; lra. Qed.

Lemma Legacy_blindRight_run n : forall s lo,
  Legacy.targetLane s = 2 -> Legacy.currentLaneIndex s = 2%nat ->
  (Legacy.autopilotTimer s + n < 45)%nat ->
  lo <= Legacy.carLaneOffset s -> -2 <= lo -> lo <= 24 # 10 ->
  Nat.iter n Legacy.driftFloor lo
  <= Legacy.carLaneOffset (fold_left Legacy.lateralStep (repeat Legacy.blindRight n) s).
Proof.
  induction n as [|n IH]; intros s lo Ht Hi Hm Hlo Hlo2 Hhi; [exact Hlo|].
  cbn [repeat fold_left].
  destruct (Legacy_blindRight_step s lo Ht Hi) as (Ht' & Hi' & Hm' & Hlo'); try assumption.
  { rewrite Nat.mod_small by lia. lia. }
  destruct (Legacy_driftFloor_range lo Hlo2 Hhi) as [R1 R2].
  specialize (IH (Legacy.lateralStep s Legacy.blindRight) (Legacy.driftFloor lo)
                Ht' Hi' ltac:(lia) Hlo' R1 R2).
  rewrite Nat.iter_succ_r. exact IH.
Qed.

(** C8 as stated fails in the earliest build: the autopilot settles on the
    right lane and then drifts for twelve blind-zone frames, each with a
    drift draw of 0.99; the offset ends beyond the right lane centre. *)
Lemma blind_zone_drift_leaves_lane_band :
  let ins := Legacy.pickRight :: repeat Legacy.blindRight 12 in
  Forall Legacy.validInput ins
  /\ 2 < Legacy.carLaneOffset (fold_left Legacy.lateralStep ins Legacy.initial).
Proof.
  cbv zeta. split.
  { constructor; [apply Legacy_pickRight_valid|]. cbn [repeat].
    repeat (constructor; [apply Legacy_blindRight_valid|]). constructor. }
  cbn [fold_left].
  pose proof (Legacy_blindRight_run 12 (Legacy.lateralStep Legacy.initial Legacy.pickRight)
                (4 # 10)) as H.
  assert (H12 : 2 < Nat.iter 12 Legacy.driftFloor (4 # 10)) by (vm_compute; reflexivity).
  eapply Qlt_le_trans; [exact H12|]. apply H.
  - reflexivity.
  - reflexivity.
  - cbn. lia.
  - vm_compute. discriminate.
  - discriminate.
  - discriminate.
Qed.

(** ** C1: what a run depends on *)






































(* ------------------------------------------------------------------ *)
(** * Further properties of the code *)

(** ** Invariants of the vehicle along a run *)

Lemma car_step w e : (forall now d, e <> Frame now d) -> car (step w e) = car w.
Proof.
  intros Hframe. destruct e; cbn [step]; try reflexivity.
  - exfalso. eapply Hframe. reflexivity.
  - apply car_timerInterval.
  - unfold startGame. destruct (showInstructions (ui w)); reflexivity.
  - unfold countdownDone. destruct (showInstructions (ui w)); reflexivity.
  - unfold handleToggleAutopilot. repeat (break_if; try reflexivity).
  - unfold clickNotification. destruct (gameStartedRef (refs w)); reflexivity.
Qed.

Lemma car_invariant_drain (P : Car -> Prop) :
  (forall d w, P (car w) -> P (car (tick d w))) ->
  forall n clock w, P (car w) -> P (car (drain n clock w)).
Proof.
  intros Htick. induction n as [|n IH]; intros clock w H; cbn [drain]; [exact H|].
  destruct (Qleb _ _); [|exact H]. apply IH, Htick, H.
Qed.

(** What every tick keeps of the vehicle, every run keeps: no other
    callback touches the vehicle. *)
Lemma car_invariant_run (P : Car -> Prop) :
  (forall d w, P (car w) -> P (car (tick d w))) ->
  forall es w, P (car w) -> P (car (run es w)).
Proof.
  intros Htick. induction es as [|e es IH]; intros w H; [exact H|].
  change (run (e :: es) w) with (run es (step w e)). apply IH.
  destruct e; try (rewrite car_step by discriminate; exact H).
  cbn [step]. unfold animate. destruct (lastAnimationTime (loop w)); [|exact H].
  apply car_invariant_drain; [exact Htick | exact H].
Qed.

Lemma applySpeed_range s v :
  0 <= v -> v <= AUTOPILOT_SPEED_UNITS ->
  0 <= applySpeed s v /\ applySpeed s v <= AUTOPILOT_SPEED_UNITS.
Proof.
  unfold AUTOPILOT_SPEED_UNITS. intros H0 H1.
  destruct s; unfold applySpeed, emergencyBrake, lightBrake, cruise, AUTOPILOT_SPEED_UNITS.
  - destruct (Q.max_spec (v - (6 # 100) * 1) (2 # 10)) as [[? E]|[? E]]; rewrite E; lra.
  - destruct (Q.max_spec (v - (2 # 100) * 1) (4 # 10)) as [[? E]|[? E]]; rewrite E; lra.
  - destruct (Qltb v (16 # 10)) eqn:E1.
    + destruct (Q.min_spec (v + (5 # 100) * 1) (16 # 10)) as [[? E]|[? E]]; rewrite E; lra.
    + destruct (Qltb (16 # 10) v) eqn:E2; [|lra].
      apply Qltb_lt in E2. lra.
Qed.

Lemma manualSpeed_range (up down was : bool) v :
  0 <= v -> v <= AUTOPILOT_SPEED_UNITS ->
  let v1 := if was then Qmin v MANUAL_MAX_VELOCITY else v in
  let v2 := if Qltb v1 MANUAL_MAX_VELOCITY
            then Qmin (v1 + (5 # 1000) * 1) MANUAL_MAX_VELOCITY else v1 in
  let v3 := if up then Qmin (v2 + (8 # 1000) * 1) MANUAL_MAX_VELOCITY else v2 in
  let v4 := if down then Qmax (v3 - (25 # 1000) * 1) 0 else v3 in
  0 <= v4 /\ v4 <= AUTOPILOT_SPEED_UNITS /\ (was = true \/ v <= MANUAL_MAX_VELOCITY -> v4 <= MANUAL_MAX_VELOCITY).
Proof.
  assert (HM : MANUAL_MAX_VELOCITY == 1) by reflexivity.
  intros H0 H1 v1 v2 v3 v4. unfold AUTOPILOT_SPEED_UNITS in *.
  assert (B1 : 0 <= v1 /\ v1 <= 16 # 10 /\ (was = true \/ v <= MANUAL_MAX_VELOCITY -> v1 <= MANUAL_MAX_VELOCITY)).
  { unfold v1. destruct was.
    - destruct (Q.min_spec v MANUAL_MAX_VELOCITY) as [[? E]|[? E]]; rewrite E; repeat split; try lra.
    - repeat split; try lra; try (intros [?|?]; [discriminate | assumption]). }
  clearbody v1. destruct B1 as (B1a & B1b & B1c).
  assert (B2 : 0 <= v2 /\ v2 <= 16 # 10 /\ (was = true \/ v <= MANUAL_MAX_VELOCITY -> v2 <= MANUAL_MAX_VELOCITY)).
  { unfold v2. destruct (Qltb v1 MANUAL_MAX_VELOCITY) eqn:E1; [|auto].
    apply Qltb_lt in E1.
    destruct (Q.min_spec (v1 + (5 # 1000) * 1) MANUAL_MAX_VELOCITY) as [[? E]|[? E]]; rewrite E;
      repeat split; try lra. }
  clearbody v2. destruct B2 as (B2a & B2b & B2c).
  assert (B3 : 0 <= v3 /\ v3 <= 16 # 10 /\ (was = true \/ v <= MANUAL_MAX_VELOCITY -> v3 <= MANUAL_MAX_VELOCITY)).
  { unfold v3. destruct up; [|auto].
    destruct (Q.min_spec (v2 + (8 # 1000) * 1) MANUAL_MAX_VELOCITY) as [[? E]|[? E]]; rewrite E;
      repeat split; try lra. }
  clearbody v3. destruct B3 as (B3a & B3b & B3c).
  unfold v4. destruct down; [|auto].
  destruct (Q.max_spec (v3 - (25 # 1000) * 1) 0) as [[? E]|[? E]]; rewrite E;
    repeat split; try lra; intros Hc; specialize (B3c Hc); lra.
Qed.

Lemma SpeedOk_control e w : SpeedOk (car w) -> SpeedOk (car (control e w)).
Proof.
  intros [H0 H1]. unfold control, SpeedOk.
  destruct (_ && _).
  - unfold autopilotControl. fields.
    match goal with |- context [applySpeed ?s _] =>
      pose proof (applySpeed_range s _ H0 H1) as [? ?] end.
    destruct (negb _); fields; split; assumption.
  - unfold manualControl. destruct (gameStartedRef (refs w)).
    + pose proof (manualSpeed_range (kArrowUp (keys w)) (kArrowDown (keys w))
                    (wasAutopilot (car w)) _ H0 H1) as (? & ? & _).
      fields. repeat (break_if; fields); split; assumption.
    + fields. unfold AUTOPILOT_SPEED_UNITS. split; lra.
Qed.

Lemma posZ_control e w : posZ (car (control e w)) = posZ (car w).
Proof.
  unfold control. destruct (_ && _).
  - unfold autopilotControl. fields. repeat (break_if; fields); reflexivity.
  - unfold manualControl. repeat (break_if; fields); reflexivity.
Qed.

Lemma coast_car d w :
  car (coast d w) = car w \/ car (coast d w) = set_carVelocity 0 (car w).
Proof. unfold coast. repeat (break_if; fields); auto. Qed.

(** One tick: the speed stays in its envelope and the vehicle advances by
    the speed chosen in the tick, at most 1.6 units. *)
Lemma tick_motion d w :
  SpeedOk (car w) ->
  SpeedOk (car (tick d w))
  /\ posZ (car (tick d w)) <= posZ (car w)
  /\ posZ (car w) - AUTOPILOT_SPEED_UNITS <= posZ (car (tick d w)).
Proof.
  intros H. destruct (gameStartedRef (refs w)) eqn:Hs.
  - rewrite tick_started by exact Hs. rewrite car_endOfStep.
    set (wc := control (elapsedSeconds d w) (beforeControl d w)).
    assert (Hc : SpeedOk (car wc)).
    { apply SpeedOk_control. rewrite car_beforeControl. exact H. }
    assert (Hz : posZ (car wc) = posZ (car w)).
    { unfold wc. rewrite posZ_control, car_beforeControl. reflexivity. }
    clearbody wc. destruct Hc as [Hc0 Hc1].
    assert (Hm : car (finishLine d (blocks (traffic (move wc)))) = car (move wc)).
    { rewrite car_finishLine, car_blocks, car_traffic. reflexivity. }
    destruct (coast_car d (finishLine d (blocks (traffic (move wc))))) as [E|E];
      rewrite E, Hm; unfold move, SpeedOk, AUTOPILOT_SPEED_UNITS in *; fields;
      rewrite <- Hz; repeat split; lra.
  - rewrite tick_not_started by exact Hs. unfold endOfStep, SpeedOk, AUTOPILOT_SPEED_UNITS. fields.
    repeat split; lra.
Qed.

(** Along any run from mount the speed stays between 0 and the autopilot's
    cruising speed, and the vehicle never moves backwards. *)
Theorem speed_bounded_and_never_backwards (ids : list nat) (es1 es2 : list Event) :
  let w1 := run es1 (mounted ids) in
  let w2 := run es2 w1 in
  SpeedOk (car w1) /\ posZ (car w2) <= posZ (car w1).
Proof.
  intros w1 w2.
  assert (H1 : SpeedOk (car w1)).
  { apply (car_invariant_run SpeedOk).
    - intros d w H. apply (tick_motion d w H).
    - unfold SpeedOk, AUTOPILOT_SPEED_UNITS. cbn. split; lra. }
  split; [exact H1|].
  assert (H2 : SpeedOk (car w2) /\ posZ (car w2) <= posZ (car w1)).
  { apply (car_invariant_run (fun c => SpeedOk c /\ posZ c <= posZ (car w1))).
    - intros d w [H Hz]. destruct (tick_motion d w H) as (? & ? & ?).
      split; [assumption | lra].
    - split; [exact H1 | lra]. }
  apply H2.
Qed.

(** What every tick keeps, every run keeps, if it does not depend on the
    accumulator and the timestamp and the other callbacks keep it. *)
Lemma world_invariant_run (Inv : World -> Prop) :
  (forall d w, Inv w -> Inv (tick d w)) ->
  (forall a t w, Inv w -> Inv (restep a t w)) ->
  (forall e w, (forall now d, e <> Frame now d) -> Inv w -> Inv (step w e)) ->
  forall es w, Inv w -> Inv (run es w).
Proof.
  intros Htick Hstepper Hother.
  assert (Hdrain : forall n clock w, Inv w -> Inv (drain n clock w)).
  { induction n as [|n IH]; intros clock w H; cbn [drain]; [exact H|].
    destruct (Qleb _ _); [|exact H]. apply IH, Htick, H. }
  induction es as [|e es IH]; intros w H; [exact H|].
  change (run (e :: es) w) with (run es (step w e)). apply IH.
  destruct e; try (apply Hother; [discriminate | exact H]).
  cbn [step]. unfold animate. destruct (lastAnimationTime (loop w)) as [last|].
  - apply Hdrain.
    exact (Hstepper (accumulatedTime (loop w) + (now - last) / 1000) (Some now) w H).
  - exact (Hstepper (accumulatedTime (loop w)) (Some now) w H).
Qed.

(** ** Where the obstacles are *)

Lemma otherCars_spawnBlocks e w : otherCars (spawnBlocks e w) = otherCars w.
Proof.
  assert (Hfar : forall x, otherCars (spawnFar x) = otherCars x).
  { intros x. unfold spawnFar, distanceToFinish, distanceTravelled. frame. }
  assert (Hlate : forall x, otherCars (spawnLate x) = otherCars x).
  { intros x. unfold spawnLate, distanceToFinish, distanceTravelled. frame. }
  assert (Hburst : forall x, otherCars (spawnBurst e x) = otherCars x).
  { intros x. unfold spawnBurst, distanceToFinish, distanceTravelled. frame. }
  unfold spawnBlocks. destruct (_ && _); rewrite Hburst, ?Hlate, ?Hfar; reflexivity.
Qed.

Lemma otherCars_beforeControl d w : otherCars (beforeControl d w) = otherCars w.
Proof.
  unfold beforeControl.
  assert (H1 : forall e x, otherCars (autopilotPendingStep e x) = otherCars x).
  { intros e x. unfold autopilotPendingStep. frame. }
  assert (H2 : forall x, otherCars (logDistanceUnits x) = otherCars x).
  { intros x. unfold logDistanceUnits. frame. }
  assert (H3 : forall x, otherCars (clearBlocksAfterFinish x) = otherCars x).
  { intros x. unfold clearBlocksAfterFinish, captureNotifications. frame. }
  rewrite H1, otherCars_spawnBlocks, H2, H3. reflexivity.
Qed.

Lemma otherCars_control e w : otherCars (control e w) = otherCars w.
Proof. unfold control, autopilotControl, manualControl. frame. Qed.

Lemma spawner_control e w : spawner (control e w) = spawner w.
Proof. unfold control, autopilotControl, manualControl. frame. Qed.

Lemma spawner_trafficStep i o w : spawner (trafficStep i o w).2 = spawner w.
Proof. unfold trafficStep. frame. Qed.

Lemma spawner_traffic w : spawner (traffic w) = spawner w.
Proof. apply (traffic_frame spawner); [apply spawner_trafficStep | reflexivity]. Qed.

Lemma otherCars_blockHit i b w : otherCars (blockHit i b w) = otherCars w.
Proof. unfold blockHit. frame. Qed.

Lemma otherCars_blocks w : otherCars (blocks w) = otherCars w.
Proof. apply (blocks_frame otherCars); [apply otherCars_blockHit | reflexivity]. Qed.

Lemma otherCars_completeSimulation w : otherCars (completeSimulation w) = otherCars w.
Proof. unfold completeSimulation, captureNotifications, ensureModeByUnitComplete. frame. Qed.

Lemma otherCars_finishLine d w : otherCars (finishLine d w) = otherCars w.
Proof.
  unfold finishLine, completeWhenSeen, crossLine.
  repeat (break_if; rewrite ?otherCars_completeSimulation; cbn; try reflexivity).
Qed.

Lemma otherCars_coast d w : otherCars (coast d w) = otherCars w.
Proof. unfold coast. frame. Qed.

Lemma spawner_coast d w : spawner (coast d w) = spawner w.
Proof. unfold coast. frame. Qed.

(** The mesh an iteration of the traffic loop leaves: moved by 0.03, or
    put 800 + 500 * index units ahead on the lane of the pattern. *)
Lemma trafficStep_mesh i o w :
  let o' := (trafficStep i o w).1 in
  (mz o + (3 # 100) * 1 <= posZ (car w) + 150
   /\ mz o' = mz o + (3 # 100) * 1 /\ mx o' = mx o)
  \/ (posZ (car w) + 150 < mz o + (3 # 100) * 1
      /\ mz o' = posZ (car w) - 800 - inject_Z (Z.of_nat i) * 500
      /\ mx o' = at_index lanes (nth (i mod 3) [0; 2; 1]%nat 0%nat)).
Proof.
  unfold trafficStep. fields.
  destruct (Qltb (posZ (car w) + 150) (mz o + (3 # 100) * 1)) eqn:E.
  - right. apply Qltb_lt in E. repeat (break_if; fields); auto.
  - left. apply Qltb_ge in E. repeat (break_if; fields); auto.
Qed.

Lemma lanes_pattern i : In (at_index lanes (nth (i mod 3) [0; 2; 1]%nat 0%nat)) lanes.
Proof.
  pose proof (Nat.mod_upper_bound i 3 ltac:(lia)) as H.
  destruct (i mod 3)%nat as [|[|[|k]]]; cbn; auto; lia.
Qed.

Lemma trafficLoop_window z cars : forall i w,
  posZ (car w) = z -> (i + length cars <= 2)%nat ->
  Forall (fun o => z - 1300 <= mz o /\ In (mx o) lanes) cars ->
  Forall (fun o => z - 1300 <= mz o /\ mz o <= z + 150 /\ In (mx o) lanes)
    (trafficLoop i cars w).1.
Proof.
  induction cars as [|o rest IH]; intros i w Hz Hlen Hall; cbn [trafficLoop].
  - constructor.
  - inversion Hall as [|? ? [Hlo Hx] Hrest]; subst.
    pose proof (trafficStep_mesh i o w) as Hmesh.
    pose proof (car_trafficStep i o w) as Hcar.
    destruct (trafficStep i o w) as [o' w1]. cbn [fst snd] in *.
    specialize (IH (S i) w1). rewrite Hcar in IH.
    specialize (IH eq_refl ltac:(cbn [length] in Hlen; lia) Hrest).
    destruct (trafficLoop (S i) rest w1) as [rest' w2]. cbn [fst snd] in *.
    constructor; [|exact IH].
    destruct Hmesh as [(Hle & Ez & Ex)|(Hlt & Ez & Ex)]; rewrite Ez, Ex.
    + repeat split; [lra | lra | exact Hx].
    + assert (Hi : inject_Z (Z.of_nat i) <= 1).
      { change 1 with (inject_Z 1). rewrite <- Zle_Qle. cbn [length] in Hlen. lia. }
      repeat split; [lra | | apply lanes_pattern].
      assert (0 <= inject_Z (Z.of_nat i)).
      { change 0 with (inject_Z 0). rewrite <- Zle_Qle. lia. }
      lra.
Qed.

Lemma trafficLoop_length cars : forall i w,
  length (trafficLoop i cars w).1 = length cars.
Proof.
  induction cars as [|o rest IH]; intros i w; cbn [trafficLoop]; [reflexivity|].
  destruct (trafficStep i o w) as [o' w1]. specialize (IH (S i) w1).
  destruct (trafficLoop (S i) rest w1) as [rest' w2]. cbn [fst length] in *. lia.
Qed.

Lemma otherCars_traffic w : otherCars (traffic w) = (trafficLoop 0 (otherCars w) w).1.
Proof.
  unfold traffic. destruct (trafficLoop 0 (otherCars w) w) as [cars w1]. reflexivity.
Qed.

Lemma at_cyclic_In arr n : arr <> [] -> In (at_cyclic arr n) arr.
Proof.
  intros Hne. unfold at_cyclic, at_index. apply nth_In.
  apply Nat.mod_upper_bound. destruct arr; [congruence | cbn; lia].
Qed.

Lemma far_offset n :
  3 <= at_cyclic [3; 5; 4; 6; 35 # 10; 55 # 10] n
  /\ at_cyclic [3; 5; 4; 6; 35 # 10; 55 # 10] n <= 6.
Proof.
  pose proof (at_cyclic_In [3; 5; 4; 6; 35 # 10; 55 # 10] n ltac:(discriminate)) as H.
  cbn [In] in H. repeat (destruct H as [<-|H]; [split; discriminate|]). destruct H.
Qed.

Lemma late_offset n :
  35 # 10 <= at_cyclic [35 # 10; 5; 45 # 10; 6; 4; 55 # 10] n
  /\ at_cyclic [35 # 10; 5; 45 # 10; 6; 4; 55 # 10] n <= 6.
Proof.
  pose proof (at_cyclic_In [35 # 10; 5; 45 # 10; 6; 4; 55 # 10] n ltac:(discriminate)) as H.
  cbn [In] in H. repeat (destruct H as [<-|H]; [split; discriminate|]). destruct H.
Qed.

Lemma spawnFar_cases w :
  spawnFar w = w
  \/ (Qltb AUTOPILOT_BLIND_DISTANCE (distanceToFinish w) = true /\ Spawned w (spawnFar w)).
Proof.
  unfold spawnFar. destruct (Qltb AUTOPILOT_BLIND_DISTANCE (distanceToFinish w)); [|auto].
  destruct (_ && _); [|auto]. right. split; [reflexivity|].
  unfold Spawned, pushBlock. fields. repeat split.
  eexists. split; [reflexivity|]. fields.
  destruct (far_offset (blockSpawnCount (spawner w))). repeat split; lra.
Qed.

Lemma spawnLate_cases w :
  spawnLate w = w
  \/ (Qleb (distanceToFinish w) AUTOPILOT_BLIND_DISTANCE = true
      /\ Qltb 300 (distanceToFinish w) = true /\ Spawned w (spawnLate w)).
Proof.
  unfold spawnLate. destruct (Qleb (distanceToFinish w) AUTOPILOT_BLIND_DISTANCE); [|auto].
  destruct (Qltb 300 (distanceToFinish w)); [|auto]. cbn [andb].
  destruct (Qleb _ _); [|auto]. right. do 2 (split; [reflexivity|]).
  unfold Spawned, pushBlock. fields. repeat split.
  eexists. split; [reflexivity|]. fields.
  destruct (late_offset (blockSpawnCount (spawner w))). repeat split; lra.
Qed.

Lemma spawnBurst_cases e w :
  spawnBurst e w = w
  \/ (Qltb (distanceToFinish w) 300 = true /\ Spawned w (spawnBurst e w)).
Proof.
  unfold spawnBurst. destruct (negb (finishLineCrossed w)); [|auto].
  destruct (Qltb 0 (distanceToFinish w)); [|auto].
  destruct (Qltb (distanceToFinish w) 300); [|auto].
  destruct (0 <=? e)%Z; [|auto]. cbn [andb].
  destruct (Qleb _ _); [|auto]. right. split; [reflexivity|].
  unfold Spawned, pushBlock. fields. repeat split.
  eexists. split; [reflexivity|]. fields.
  destruct (far_offset (blockSpawnCount (spawner w))). repeat split; lra.
Qed.

Lemma distanceToFinish_same w w' : car w' = car w -> distanceToFinish w' = distanceToFinish w.
Proof. unfold distanceToFinish. intros ->. reflexivity. Qed.

Lemma spawnLate_far w :
  Qltb AUTOPILOT_BLIND_DISTANCE (distanceToFinish w) = true -> spawnLate w = w.
Proof.
  intros H. unfold spawnLate.
  destruct (Qleb (distanceToFinish w) AUTOPILOT_BLIND_DISTANCE) eqn:E; [|reflexivity].
  apply Qltb_lt in H. apply Qleb_le in E. lra.
Qed.

Lemma spawnBurst_early e w :
  Qltb 300 (distanceToFinish w) = true -> spawnBurst e w = w.
Proof.
  intros H. unfold spawnBurst.
  destruct (Qltb (distanceToFinish w) 300) eqn:E.
  - apply Qltb_lt in H, E. lra.
  - rewrite !andb_false_r. reflexivity.
Qed.

(** The three spawn zones exclude each other: a tick spawns one block at
    most. *)
Lemma spawnBlocks_cases e w : spawnBlocks e w = w \/ Spawned w (spawnBlocks e w).
Proof.
  unfold spawnBlocks. destruct (_ && _).
  - destruct (spawnFar_cases w) as [E|[Hz Hs]].
    + rewrite E. destruct (spawnLate_cases w) as [E'|(Hz1 & Hz2 & Hs)].
      * rewrite E'. destruct (spawnBurst_cases e w) as [E''|[_ Hs]]; [left|right]; auto.
      * right. rewrite spawnBurst_early; [exact Hs|].
        rewrite (distanceToFinish_same w); [exact Hz2 | apply Hs].
    + right. assert (Hd : distanceToFinish (spawnFar w) = distanceToFinish w)
        by (apply distanceToFinish_same, Hs).
      rewrite spawnLate_far by (rewrite Hd; exact Hz).
      rewrite spawnBurst_early; [exact Hs|].
      rewrite Hd. apply Qltb_lt in Hz. apply Qltb_lt.
      unfold AUTOPILOT_BLIND_DISTANCE in Hz. lra.
  - destruct (spawnBurst_cases e w) as [E|[_ Hs]]; [left|right]; auto.
Qed.

Lemma spawner_blockHit i b w : spawner (blockHit i b w) = spawner w.
Proof. unfold blockHit. frame. Qed.

(** The cleanup loop keeps the blocks that are not more than 200 units
    behind, whatever collisions it registers on the way. *)
Lemma blocksLoop_kept bs : forall w,
  (blocksLoop bs w).1 = List.filter (fun b => negb (farBehind (posZ (car w)) b)) bs.
Proof.
  induction bs as [|b rest IH]; intros w; cbn [blocksLoop List.filter]; [reflexivity|].
  unfold farBehind at 1. destruct (Qltb (posZ (car w) + 200) (mz b)); cbn [negb]; [apply IH|].
  match goal with |- context [blocksLoop rest ?x] =>
    assert (Hc : car x = car w) by (destruct (_ && _); [apply car_blockHit | reflexivity]);
    specialize (IH x); rewrite Hc in IH; destruct (blocksLoop rest x) as [kept w2] end.
  cbn [fst] in *. rewrite IH. reflexivity.
Qed.

Lemma filter_rev_rev {A} (f : A -> bool) (l : list A) :
  rev (List.filter f (rev l)) = List.filter f l.
Proof.
  induction l as [|a l IH]; [reflexivity|].
  cbn [rev List.filter]. rewrite List.filter_app, rev_app_distr, IH.
  cbn [List.filter]. destruct (f a); reflexivity.
Qed.

Lemma finalBlocks_blocks w :
  finalBlocks (spawner (blocks w))
  = if finishLineCrossed w then finalBlocks (spawner w)
    else List.filter (fun b => negb (farBehind (posZ (car w)) b)) (finalBlocks (spawner w)).
Proof.
  unfold blocks. destruct (finishLineCrossed w); cbn [negb]; [reflexivity|].
  pose proof (blocksLoop_kept (rev (finalBlocks (spawner w))) w) as Hk.
  destruct (blocksLoop (rev (finalBlocks (spawner w))) w) as [kept w1]. cbn [fst] in Hk.
  fields. rewrite Hk. apply filter_rev_rev.
Qed.

Lemma finalBlocks_completeSimulation w : finalBlocks (spawner (completeSimulation w)) = [].
Proof. unfold completeSimulation, captureNotifications, ensureModeByUnitComplete. frame. Qed.

Lemma finalBlocks_finishLine d w :
  finalBlocks (spawner (finishLine d w)) = finalBlocks (spawner w)
  \/ finalBlocks (spawner (finishLine d w)) = [].
Proof.
  unfold finishLine, completeWhenSeen, crossLine.
  repeat (break_if; rewrite ?finalBlocks_completeSimulation; fields; auto).
Qed.

Lemma finalBlocks_beforeSpawn w :
  let w1 := logDistanceUnits (clearBlocksAfterFinish w) in
  car w1 = car w /\ otherCars w1 = otherCars w
  /\ finishLineCrossed w1 = finishLineCrossed w
  /\ (finalBlocks (spawner w1) = finalBlocks (spawner w)
      \/ finalBlocks (spawner w1) = []).
Proof.
  cbn zeta.
  assert (H2 : forall x, car (logDistanceUnits x) = car x /\ otherCars (logDistanceUnits x) = otherCars x
                         /\ finishLineCrossed (logDistanceUnits x) = finishLineCrossed x
                         /\ spawner (logDistanceUnits x) = spawner x).
  { intros x. unfold logDistanceUnits. repeat split; frame. }
  destruct (H2 (clearBlocksAfterFinish w)) as (-> & -> & -> & ->).
  unfold clearBlocksAfterFinish, captureNotifications.
  repeat (break_if; fields; auto).
Qed.

Lemma crossed_of_gate w w' : gate w' = gate w -> finishLineCrossed w' = finishLineCrossed w.
Proof. unfold gate. intros [= _ _ _ _ H]. exact H. Qed.

Lemma spawnBlocks_crossed e w : finishLineCrossed w = true -> spawnBlocks e w = w.
Proof.
  intros H. unfold spawnBlocks. rewrite H. cbn [negb andb].
  unfold spawnBurst. rewrite H. reflexivity.
Qed.

Lemma clearBlocksAfterFinish_crossed w :
  finishLineCrossed w = true -> finalBlocks (spawner (clearBlocksAfterFinish w)) = [].
Proof.
  intros H. unfold clearBlocksAfterFinish, captureNotifications. rewrite H. cbn [andb].
  destruct (finalBlocks (spawner w)) eqn:E; cbn [length Nat.ltb Nat.leb]; [exact E|].
  destruct (_ =? _)%nat; reflexivity.
Qed.

(** The blocks as the control phase finds them: the blocks of the tick
    before, emptied once the line is crossed, and one spawned block at
    most. *)
Lemma finalBlocks_beforeControl d w (P : Mesh -> Prop) :
  Forall P (finalBlocks (spawner w)) ->
  (forall b, posZ (car w) - 86 <= mz b -> mz b <= posZ (car w) - (735 # 10) ->
             isBlindLane b = false -> P b) ->
  Forall P (finalBlocks (spawner (beforeControl d w)))
  /\ (finishLineCrossed w = true -> finalBlocks (spawner (beforeControl d w)) = []).
Proof.
  intros Hb Hnew. unfold beforeControl.
  assert (Hp : forall e x, spawner (autopilotPendingStep e x) = spawner x)
    by (intros e x; unfold autopilotPendingStep; frame).
  rewrite Hp.
  set (w0 := with_loop _ w).
  destruct (finalBlocks_beforeSpawn w0) as (Hc1 & _ & Hx1 & Hf1).
  pose proof (clearBlocksAfterFinish_crossed w0) as Hclr.
  assert (Hlog : forall x, spawner (logDistanceUnits x) = spawner x)
    by (intros x; unfold logDistanceUnits; frame).
  rewrite <- (Hlog (clearBlocksAfterFinish w0)) in Hclr.
  set (w1 := logDistanceUnits (clearBlocksAfterFinish w0)) in *.
  assert (H1 : Forall P (finalBlocks (spawner w1))).
  { destruct Hf1 as [-> | ->]; [exact Hb | constructor]. }
  clearbody w1. split.
  - destruct (spawnBlocks_cases (elapsedSeconds d w0) w1)
      as [-> | (_ & _ & _ & b & -> & B1 & B2 & B3)]; [exact H1|].
    apply Forall_app; split; [exact H1|]. constructor; [|constructor].
    rewrite Hc1 in B1, B2. apply Hnew; assumption.
  - intros Hcr. rewrite spawnBlocks_crossed by (rewrite Hx1; exact Hcr).
    apply Hclr. exact Hcr.
Qed.

Lemma windows_afterControl d wc z0 :
  posZ (car (move wc)) <= z0 ->
  length (otherCars wc) = 2%nat ->
  Forall (fun o => z0 - 1300 <= mz o /\ In (mx o) lanes) (otherCars wc) ->
  Forall (fun b => z0 - 86 <= mz b) (finalBlocks (spawner wc)) ->
  (finishLineCrossed wc = true -> finalBlocks (spawner wc) = []) ->
  let w' := endOfStep (coast d (finishLine d (blocks (traffic (move wc))))) in
  length (otherCars w') = 2%nat /\ trafficInWindow w' /\ blocksInWindow w'.
Proof.
  intros Hz Hlen Ht Hb Hempty w'.
  assert (Ecar : posZ (car w') = posZ (car (move wc))).
  { unfold w'. rewrite car_endOfStep, posZ_coast, car_finishLine, car_blocks, car_traffic.
    reflexivity. }
  assert (Ecars : otherCars w' = (trafficLoop 0 (otherCars wc) (move wc)).1).
  { unfold w', endOfStep. fields.
    rewrite otherCars_coast, otherCars_finishLine, otherCars_blocks.
    exact (otherCars_traffic (move wc)). }
  assert (Eblocks : spawner w' = spawner (finishLine d (blocks (traffic (move wc))))).
  { unfold w', endOfStep. fields. apply spawner_coast. }
  unfold trafficInWindow, blocksInWindow. rewrite Ecar, Ecars, Eblocks. clear Ecar Ecars Eblocks w'.
  remember (posZ (car (move wc))) as z eqn:Ez. symmetry in Ez.
  rewrite trafficLoop_length. split; [exact Hlen|]. split.
  - apply (trafficLoop_window z); [exact Ez | rewrite Hlen; lia |].
    eapply Forall_impl; [exact Ht|].
    cbn beta. intros o (L & X). split; [lra | exact X].
  - destruct (finalBlocks_finishLine d (blocks (traffic (move wc)))) as [-> | ->]; [|constructor].
    rewrite finalBlocks_blocks, spawner_traffic, car_traffic, crossed_traffic, crossed_move, Ez.
    change (spawner (move wc)) with (spawner wc).
    destruct (finishLineCrossed wc) eqn:Ecr.
    + rewrite Hempty by reflexivity. constructor.
    + apply List.Forall_forall. intros b Hin. apply List.filter_In in Hin as [Hin Hkeep].
      rewrite List.Forall_forall in Hb. specialize (Hb b Hin).
      unfold farBehind in Hkeep. apply negb_true_iff, Qltb_ge in Hkeep. lra.
Qed.

Lemma crossed_beforeControl d w : finishLineCrossed (beforeControl d w) = finishLineCrossed w.
Proof.
  unfold beforeControl. apply crossed_of_gate.
  rewrite gate_autopilotPendingStep, gate_spawnBlocks, gate_logDistanceUnits,
    gate_clearBlocksAfterFinish. reflexivity.
Qed.

(** The windows through one tick. *)
Lemma windows_tick d w :
  SpeedOk (car w) -> length (otherCars w) = 2%nat -> trafficInWindow w -> blocksInWindow w ->
  length (otherCars (tick d w)) = 2%nat /\ trafficInWindow (tick d w) /\ blocksInWindow (tick d w).
Proof.
  intros Hv Hlen Ht Hb. destruct (gameStartedRef (refs w)) eqn:Hs.
  2:{ rewrite tick_not_started by exact Hs. auto. }
  rewrite tick_started by exact Hs.
  destruct (finalBlocks_beforeControl d w (fun b => posZ (car w) - 86 <= mz b)) as [Hblocks Hempty].
  { eapply Forall_impl; [exact Hb|]. cbn beta. intros b [? _]. assumption. }
  { intros b ? _ _. assumption. }
  apply (windows_afterControl d _ (posZ (car w))).
  - assert (Hc : SpeedOk (car (control (elapsedSeconds d w) (beforeControl d w)))).
    { apply SpeedOk_control. rewrite car_beforeControl. exact Hv. }
    pose proof (posZ_control (elapsedSeconds d w) (beforeControl d w)) as Hz.
    rewrite car_beforeControl in Hz. destruct Hc as [Hc _].
    revert Hc Hz. generalize (control (elapsedSeconds d w) (beforeControl d w)).
    intros wc Hc Hz. unfold move. fields. rewrite Hz. lra.
  - rewrite otherCars_control, otherCars_beforeControl. exact Hlen.
  - rewrite otherCars_control, otherCars_beforeControl.
    eapply Forall_impl; [exact Ht|]. cbn beta. intros o (? & _ & ?). auto.
  - rewrite spawner_control. exact Hblocks.
  - rewrite spawner_control. intros Hcr. apply Hempty.
    rewrite <- (crossed_beforeControl d).
    rewrite <- (crossed_of_gate _ _ (gate_control (elapsedSeconds d w) (beforeControl d w))).
    exact Hcr.
Qed.

(** The callbacks other than the animation frame write the refs, the timer
    variables, the telemetry, the React state and the key flags, and
    nothing else. *)
Lemma step_frame {A} (f : World -> A) :
  (forall v w, f (set_refs v w) = f w) ->
  (forall v w, f (set_timerVars v w) = f w) ->
  (forall v w, f (set_data v w) = f w) ->
  (forall v w, f (set_ui v w) = f w) ->
  (forall v w, f (set_keys v w) = f w) ->
  forall e w, (forall now d, e <> Frame now d) -> f (step w e) = f w.
Proof.
  intros Hr Ht Hd Hu Hk e w Hframe.
  assert (Htrig : forall d s x n, f (triggerNotification d s x n) = f x).
  { intros d s x [i t]. unfold triggerNotification, with_refs, with_timerVars.
    destruct (_ && _); [|reflexivity]. rewrite Hr, Ht. reflexivity. }
  assert (Hlog : forall s x, f (logSecond s x) = f x).
  { intros s x. unfold logSecond, with_timerVars, with_data.
    destruct (negb _); [|reflexivity]. rewrite Ht, Hd. reflexivity. }
  assert (Hded : forall d x, f (timeDeduction d x) = f x).
  { intros d x. unfold timeDeduction, with_timerVars, with_refs.
    repeat (break_if; rewrite ?Ht, ?Hr); reflexivity. }
  destruct e; cbn [step].
  - exfalso. eapply Hframe. reflexivity.
  - unfold timerInterval. destruct (timerCleared _); [reflexivity|].
    destruct (clockRunning w); [|reflexivity]. destruct (isCompleteRef _); [reflexivity|].
    rewrite Hded, Hlog. apply fold_left_frame. intros a b. apply Htrig.
  - unfold handleKeyDown, with_keys. apply Hk.
  - unfold handleKeyUp, with_keys. apply Hk.
  - unfold startGame, with_ui, with_refs. destruct (showInstructions _); [|reflexivity].
    rewrite Hd, Hr, Hu. reflexivity.
  - unfold countdownDone, with_refs. destruct (showInstructions _); [reflexivity|]. apply Hr.
  - unfold handleToggleAutopilot, with_ui, with_refs.
    repeat (break_if; rewrite ?Hu, ?Hr); reflexivity.
  - unfold clickNotification, with_refs. destruct (gameStartedRef _); [apply Hr | reflexivity].
  - unfold runEffects, with_refs. apply Hr.
Qed.

Lemma scene_run ids es : SceneOk (run es (mounted ids)).
Proof.
  apply (world_invariant_run SceneOk).
  - intros d w (Hv & Hl & Ht & Hb).
    destruct (tick_motion d w Hv) as (Hv' & _).
    destruct (windows_tick d w Hv Hl Ht Hb) as (? & ? & ?).
    split; [exact Hv' | split; [assumption | split; assumption]].
  - intros a t w H. exact H.
  - intros e w Hframe H.
    assert (E : (car (step w e), otherCars (step w e), spawner (step w e))
                = (car w, otherCars w, spawner w)).
    { apply (step_frame (fun x => (car x, otherCars x, spawner x))); try reflexivity.
      exact Hframe. }
    injection E as Ec Eo Es. unfold SceneOk, trafficInWindow, blocksInWindow in *.
    rewrite Ec, Eo, Es. exact H.
  - split; [unfold SpeedOk, AUTOPILOT_SPEED_UNITS; cbn; split; lra|].
    split; [reflexivity|]. split.
    + unfold trafficInWindow, mounted. fields.
      constructor; [fields; repeat split; try lra; cbn; auto|].
      constructor; [fields; repeat split; try lra; cbn; auto | constructor].
    + unfold blocksInWindow, mounted. fields. constructor.
Qed.

(** Along any run from mount there are two ambient cars, each on a lane
    centre, never more than 150 units behind the vehicle nor more than 1300
    ahead of it. *)
Theorem ambient_traffic_stays_in_window (ids : list nat) (es : list Event) :
  length (otherCars (run es (mounted ids))) = 2%nat
  /\ trafficInWindow (run es (mounted ids)).
Proof. destruct (scene_run ids es) as (_ & H1 & H2 & _). auto. Qed.

(** Along any run from mount every block in the array is at most 86 units
    ahead of the vehicle and at most 200 behind it. *)
Theorem blocks_stay_in_window (ids : list nat) (es : list Event) :
  blocksInWindow (run es (mounted ids)).
Proof. apply scene_run. Qed.

(** The spawner of a tick pushes one block at most, whatever the zone, 73.5
    to 86 units ahead of the vehicle, and leaves the older blocks, the
    vehicle and the ambient cars as they were. *)
Theorem one_block_per_tick_at_most (elapsed : Z) (w : World) :
  spawnBlocks elapsed w = w \/ Spawned w (spawnBlocks elapsed w).
Proof. apply spawnBlocks_cases. Qed.

(** In the late zone the lane index itself is the x coordinate of the new
    block: it is 0, 1 or 2, so never the left lane (x = -2), and every
    third block sits at x = 1, which is no lane centre. *)
Theorem late_zone_block_uses_lane_index (w : World) :
  spawnLate w = w
  \/ exists b, finalBlocks (spawner (spawnLate w)) = finalBlocks (spawner w) ++ [b]
               /\ mx b = inject_Z (Z.of_nat (blockSpawnCount (spawner w) mod 3))
               /\ (mx b = 0 \/ mx b = 1 \/ mx b = 2)
               /\ ~ mx b == -2
               /\ ((blockSpawnCount (spawner w) mod 3 = 1)%nat -> ~ In (mx b) lanes).
Proof.
  unfold spawnLate. destruct (_ && _); [|auto]. destruct (Qleb _ _); [|auto].
  right. unfold pushBlock. fields. eexists. split; [reflexivity|]. fields.
  pose proof (Nat.mod_upper_bound (blockSpawnCount (spawner w)) 3 ltac:(lia)) as H.
  destruct (blockSpawnCount (spawner w) mod 3)%nat as [|[|[|k]]]; try lia; cbn;
    repeat split; auto; try discriminate; try lia.
  intros _ [E|[E|[E|[]]]]; discriminate.
Qed.

(** ** The manual speed cap *)

Lemma ManualCapped_control e w :
  SpeedOk (car w) -> ManualCapped (car w) -> ManualCapped (car (control e w)).
Proof.
  intros [H0 H1] Hcap. unfold control, ManualCapped.
  destruct (_ && _).
  - unfold autopilotControl. fields. destruct (negb _); fields; discriminate.
  - unfold manualControl. destruct (gameStartedRef (refs w)).
    + pose proof (manualSpeed_range (kArrowUp (keys w)) (kArrowDown (keys w))
                    (wasAutopilot (car w)) _ H0 H1) as (_ & _ & Hm).
      assert (Hpre : wasAutopilot (car w) = true \/ carVelocity (car w) <= MANUAL_MAX_VELOCITY).
      { destruct (wasAutopilot (car w)) eqn:E; [left; reflexivity | right; apply Hcap, E]. }
      specialize (Hm Hpre). fields. repeat (break_if; fields); intros _; exact Hm.
    + fields. intros _. discriminate.
Qed.

Lemma tick_manual_cap d w :
  SpeedOk (car w) /\ ManualCapped (car w) ->
  SpeedOk (car (tick d w)) /\ ManualCapped (car (tick d w)).
Proof.
  intros [Hv Hcap]. split; [apply (tick_motion d w Hv)|].
  destruct (gameStartedRef (refs w)) eqn:Hs.
  - rewrite tick_started by exact Hs. rewrite car_endOfStep.
    assert (Hc : ManualCapped (car (control (elapsedSeconds d w) (beforeControl d w)))).
    { apply ManualCapped_control; rewrite car_beforeControl; assumption. }
    revert Hc. generalize (control (elapsedSeconds d w) (beforeControl d w)). intros wc Hc.
    assert (Hm : car (finishLine d (blocks (traffic (move wc)))) = car (move wc)).
    { rewrite car_finishLine, car_blocks, car_traffic. reflexivity. }
    destruct (coast_car d (finishLine d (blocks (traffic (move wc))))) as [E|E];
      rewrite E, Hm; unfold move, ManualCapped in *; fields.
    + exact Hc.
    + intros _. discriminate.
  - rewrite tick_not_started by exact Hs. unfold endOfStep, ManualCapped. fields.
    intros _. discriminate.
Qed.

(** Along any run from mount the speed is at most the manual maximum (75
    mph) whenever the latest control tick was a manual one: the first manual
    tick after the autopilot caps the speed, and manual driving never
    exceeds the cap. *)
Theorem manual_speed_capped (ids : list nat) (es : list Event) :
  wasAutopilot (car (run es (mounted ids))) = false ->
  carVelocity (car (run es (mounted ids))) <= MANUAL_MAX_VELOCITY.
Proof.
  assert (H : SpeedOk (car (run es (mounted ids))) /\ ManualCapped (car (run es (mounted ids)))).
  { apply (car_invariant_run (fun c => SpeedOk c /\ ManualCapped c)).
    - intros d w. apply tick_manual_cap.
    - split; [unfold SpeedOk, AUTOPILOT_SPEED_UNITS; cbn; split; lra|].
      intros _. cbn. discriminate. }
  apply H.
Qed.

Lemma manual_speed_capped_witness :
  let w := run [StartGame; CountdownDone 1000; ToggleAutopilot; Frame 0 1100; Frame 17 1117]
             (mounted [1; 2; 3; 4; 5]%nat) in
  wasAutopilot (car w) = false /\ carVelocity (car w) <= MANUAL_MAX_VELOCITY.
Proof.
  split; [vm_compute; reflexivity|].
  apply (manual_speed_capped [1; 2; 3; 4; 5]%nat
           [StartGame; CountdownDone 1000; ToggleAutopilot; Frame 0 1100; Frame 17 1117]).
  vm_compute. reflexivity.
Defined.

(** ** Collision bookkeeping *)

Lemma Booked_refl w : Booked w w.
Proof. exists []. rewrite app_nil_r. cbn. split; [reflexivity | split; [lia | reflexivity]]. Qed.

Lemma Booked_same w w' : ledger w' = ledger w -> Booked w w'.
Proof.
  unfold ledger. intros [= E1 E2 E3]. exists []. rewrite app_nil_r, E1, E2, E3. cbn.
  split; [reflexivity | split; [lia | reflexivity]].
Qed.

Lemma countBlockHits_app k1 k2 :
  countBlockHits (k1 ++ k2) = (countBlockHits k1 + countBlockHits k2)%nat.
Proof. unfold countBlockHits. rewrite List.filter_app, length_app. reflexivity. Qed.

Lemma Booked_trans a b c : Booked a b -> Booked b c -> Booked a c.
Proof.
  intros (k1 & E1 & H1 & S1) (k2 & E2 & H2 & S2). exists (k1 ++ k2).
  rewrite E2, E1, H2, H1, S2, S1, countBlockHits_app, length_app, <- app_assoc.
  split; [reflexivity|]. split; [lia|].
  rewrite Nat.add_comm. symmetry. apply Nat.iter_add.
Qed.

Lemma Booked_trafficStep i o w : Booked w (trafficStep i o w).2.
Proof.
  unfold trafficStep.
  match goal with |- context [if ?c then set_collisionCooldown ?m w else w] =>
    assert (Hl : ledger (if c then set_collisionCooldown m w else w) = ledger w)
      by (destruct c; reflexivity);
    generalize dependent (if c then set_collisionCooldown m w else w) end.
  intros w1 Hl. destruct (finishLineCrossed w1); [apply Booked_same, Hl|].
  destruct (_ && _); [|apply Booked_same, Hl].
  cbn [snd]. unfold ledger in Hl. injection Hl as E1 E2 E3.
  eexists [_]. unfold setCooldown, pushCollisionEvent, deductCollision, scoreOf in *. fields.
  rewrite E1, E2, E3. split; [reflexivity|]. split; [cbn; lia | reflexivity].
Qed.

Lemma Booked_blockHit i b w : Booked w (blockHit i b w).
Proof.
  unfold blockHit, setCooldown, pushCollisionEvent, deductCollision, scoreOf.
  destruct (isBlindLane b); eexists [_]; fields; (split; [reflexivity|]); split;
    cbn; reflexivity || lia.
Qed.

Lemma ledger_completeSimulation w : ledger (completeSimulation w) = ledger w.
Proof. unfold ledger, scoreOf, completeSimulation, captureNotifications, ensureModeByUnitComplete. frame. Qed.

Lemma ledger_finishLine d w : ledger (finishLine d w) = ledger w.
Proof.
  unfold finishLine, completeWhenSeen, crossLine.
  repeat (break_if; rewrite ?ledger_completeSimulation; try reflexivity).
Qed.

Lemma ledger_beforeControl d w : ledger (beforeControl d w) = ledger w.
Proof.
  unfold beforeControl.
  assert (H1 : forall e x, ledger (autopilotPendingStep e x) = ledger x)
    by (intros e x; unfold autopilotPendingStep; frame).
  assert (H2 : forall e x, ledger (spawnBlocks e x) = ledger x).
  { intros e x.
    assert (Hfar : forall y, ledger (spawnFar y) = ledger y)
      by (intros y; unfold spawnFar, distanceToFinish, distanceTravelled; frame).
    assert (Hlate : forall y, ledger (spawnLate y) = ledger y)
      by (intros y; unfold spawnLate, distanceToFinish, distanceTravelled; frame).
    assert (Hburst : forall y, ledger (spawnBurst e y) = ledger y)
      by (intros y; unfold spawnBurst, distanceToFinish, distanceTravelled; frame).
    unfold spawnBlocks. destruct (_ && _); rewrite Hburst, ?Hlate, ?Hfar; reflexivity. }
  assert (H3 : forall x, ledger (logDistanceUnits x) = ledger x)
    by (intros x; unfold logDistanceUnits; frame).
  assert (H4 : forall x, ledger (clearBlocksAfterFinish x) = ledger x)
    by (intros x; unfold clearBlocksAfterFinish, captureNotifications; frame).
  rewrite H1, H2, H3, H4. reflexivity.
Qed.

Lemma Booked_traffic w : Booked w (traffic w).
Proof.
  unfold traffic.
  pose proof (trafficLoop_rel Booked Booked_refl Booked_trans Booked_trafficStep
                (otherCars w) 0%nat w) as H.
  destruct (trafficLoop 0 (otherCars w) w) as [cars w1]. exact H.
Qed.

Lemma Booked_blocks w : Booked w (blocks w).
Proof.
  unfold blocks. destruct (negb _); [|apply Booked_refl].
  pose proof (blocksLoop_rel Booked Booked_refl Booked_trans Booked_blockHit
                (rev (finalBlocks (spawner w))) w) as H.
  destruct (blocksLoop (rev (finalBlocks (spawner w))) w) as [kept w1]. exact H.
Qed.

Lemma ledger_control e w : ledger (control e w) = ledger w.
Proof. unfold control, autopilotControl, manualControl. frame. Qed.

Lemma ledger_coast d w : ledger (coast d w) = ledger w.
Proof. unfold coast. frame. Qed.

Lemma Booked_afterControl d w :
  Booked w (endOfStep (coast d (finishLine d (blocks (traffic (move w)))))).
Proof.
  eapply Booked_trans; [apply (Booked_traffic (move w))|].
  eapply Booked_trans; [apply Booked_blocks|].
  apply Booked_same. unfold endOfStep.
  change (ledger (with_loop ?f ?x)) with (ledger x).
  rewrite ledger_coast, ledger_finishLine. reflexivity.
Qed.

Lemma Booked_tick d w : Booked w (tick d w).
Proof.
  destruct (gameStartedRef (refs w)) eqn:Hs.
  - rewrite tick_started by exact Hs.
    eapply Booked_trans; [|apply Booked_afterControl].
    apply Booked_same. rewrite ledger_control. apply ledger_beforeControl.
  - rewrite tick_not_started by exact Hs. apply Booked_same. reflexivity.
Qed.

Lemma penalty_iter n : forall s, (0 <= s)%Z ->
  Nat.iter n penalty s = Z.max 0 (s - COLLISION_PENALTY * Z.of_nat n).
Proof.
  unfold COLLISION_PENALTY. induction n as [|n IH]; intros s Hs.
  - cbn. lia.
  - rewrite Nat.iter_succ, IH by exact Hs. unfold penalty, COLLISION_PENALTY. lia.
Qed.

(** One tick appends the collisions it registers to the log and takes ten
    points off the score for each of them, down to zero. *)
Theorem tick_charges_ten_per_collision (d : Z) (w : World) :
  (0 <= scoreOf w)%Z ->
  exists k, collisionEvents (data (tick d w)) = collisionEvents (data w) ++ k
            /\ scoreOf (tick d w) = Z.max 0 (scoreOf w - 10 * Z.of_nat (length k)).
Proof.
  intros Hs. destruct (Booked_tick d w) as (k & E & _ & S).
  exists k. split; [exact E|]. rewrite S. apply penalty_iter, Hs.
Qed.

Lemma TelemetryOk_Booked w w' : Booked w w' -> TelemetryOk w -> TelemetryOk w'.
Proof.
  unfold TelemetryOk. intros (k & E & H & _) Hw.
  rewrite E, H, Hw, countBlockHits_app. lia.
Qed.

Lemma telemetry_step e w :
  (forall now d, e <> Frame now d) -> TelemetryOk w -> TelemetryOk (step w e).
Proof.
  intros Hframe H. unfold TelemetryOk in *.
  destruct e; cbn [step]; try exact H.
  - exfalso. eapply Hframe. reflexivity.
  - assert (E : (whiteBlocksHit (data (timerInterval dateNow w)),
                 collisionEvents (data (timerInterval dateNow w)))
                = (whiteBlocksHit (data w), collisionEvents (data w))).
    { unfold timerInterval. repeat (break_if; try reflexivity).
      unfold timeDeduction.
      repeat (break_if; fields);
        (unfold logSecond; repeat (break_if; fields);
         apply (fold_left_frame (fun x => (whiteBlocksHit (data x), collisionEvents (data x))));
         intros a [i t]; unfold triggerNotification; repeat (break_if; fields); reflexivity). }
    injection E as -> ->. exact H.
  - unfold startGame. destruct (showInstructions (ui w)); [reflexivity | exact H].
  - unfold countdownDone. destruct (showInstructions (ui w)); exact H.
  - unfold handleToggleAutopilot. repeat (break_if; try exact H).
  - unfold clickNotification. destruct (gameStartedRef (refs w)); exact H.
Qed.

(** Along any run from mount the block counter of the telemetry is the
    number of ['block'] events in the collision log. *)
Theorem block_counter_matches_log (ids : list nat) (es : list Event) :
  TelemetryOk (run es (mounted ids)).
Proof.
  apply (world_invariant_run TelemetryOk).
  - intros d w. apply TelemetryOk_Booked, Booked_tick.
  - intros a t w H. exact H.
  - apply telemetry_step.
  - reflexivity.
Qed.

Lemma tick_charges_ten_per_collision_witness :
  (0 <= scoreOf collisionScene)%Z
  /\ exists k, collisionEvents (data (tick 1100 collisionScene))
               = collisionEvents (data collisionScene) ++ k
               /\ scoreOf (tick 1100 collisionScene)
                  = Z.max 0 (scoreOf collisionScene - 10 * Z.of_nat (length k)).
Proof.
  split; [vm_compute; discriminate|].
  apply (tick_charges_ten_per_collision 1100 collisionScene). vm_compute. discriminate.
Defined.

(** ** After the finish line *)

Lemma trafficLoop_preserves (P : World -> Prop) :
  (forall i o w, P w -> P (trafficStep i o w).2) ->
  forall cars i w, P w -> P (trafficLoop i cars w).2.
Proof.
  intros Hstep. induction cars as [|o rest IH]; intros i w H; cbn [trafficLoop]; [exact H|].
  specialize (Hstep i o w H). destruct (trafficStep i o w) as [o' w1]. cbn [snd] in Hstep.
  specialize (IH (S i) w1 Hstep). destruct (trafficLoop (S i) rest w1) as [rest' w2].
  exact IH.
Qed.

Lemma ledger_trafficStep_crossed i o w :
  finishLineCrossed w = true ->
  finishLineCrossed (trafficStep i o w).2 = true /\ ledger (trafficStep i o w).2 = ledger w.
Proof.
  intros H. unfold trafficStep. destruct (Qltb _ _); fields; rewrite H; auto.
Qed.

Lemma ledger_afterControl_crossed d w :
  finishLineCrossed w = true ->
  ledger (endOfStep (coast d (finishLine d (blocks (traffic (move w)))))) = ledger w.
Proof.
  intros H. unfold endOfStep. change (ledger (with_loop ?f ?x)) with (ledger x).
  rewrite ledger_coast, ledger_finishLine.
  assert (Ht : finishLineCrossed (traffic (move w)) = true /\ ledger (traffic (move w)) = ledger w).
  { unfold traffic.
    pose proof (trafficLoop_preserves
                  (fun x => finishLineCrossed x = true /\ ledger x = ledger w)) as Hl.
    specialize (Hl ltac:(intros i o x [Hx Hy];
                         destruct (ledger_trafficStep_crossed i o x Hx) as [? E];
                         split; [assumption | rewrite E; exact Hy])
                   (otherCars (move w)) 0%nat (move w) (conj H eq_refl)).
    destruct (trafficLoop 0 (otherCars (move w)) (move w)) as [cars w1]. exact Hl. }
  destruct Ht as [Hc Hl]. unfold blocks. rewrite Hc. exact Hl.
Qed.

Lemma crossed_tick d w : finishLineCrossed w = true -> finishLineCrossed (tick d w) = true.
Proof.
  intros H. destruct (gameStartedRef (refs w)) eqn:Hs.
  - pose proof (gate_tick_started d w Hs) as Hg. cbn zeta in Hg.
    apply (f_equal snd) in Hg. unfold gate in Hg. cbn [snd] in Hg.
    rewrite Hg, H. reflexivity.
  - rewrite tick_not_started by exact Hs. exact H.
Qed.

Lemma ledger_tick_crossed d w : finishLineCrossed w = true -> ledger (tick d w) = ledger w.
Proof.
  intros H. destruct (gameStartedRef (refs w)) eqn:Hs.
  - rewrite tick_started by exact Hs.
    rewrite ledger_afterControl_crossed.
    + rewrite ledger_control. apply ledger_beforeControl.
    + rewrite (crossed_of_gate _ _ (gate_control _ _)), crossed_beforeControl. exact H.
  - rewrite tick_not_started by exact Hs. reflexivity.
Qed.

(** Once the finish line is crossed, an animation callback, however many
    ticks it runs, registers no collision: the log, the block counter and
    the score stay as they are. *)
Theorem no_collision_after_finish_line (now : Q) (clock : Z -> Z) (w : World) :
  finishLineCrossed w = true ->
  finishLineCrossed (animate now clock w) = true
  /\ collisionEvents (data (animate now clock w)) = collisionEvents (data w)
  /\ whiteBlocksHit (data (animate now clock w)) = whiteBlocksHit (data w)
  /\ scoreOf (animate now clock w) = scoreOf w.
Proof.
  intros H.
  assert (Hd : forall n x, finishLineCrossed x = true /\ ledger x = ledger w ->
                           finishLineCrossed (drain n clock x) = true
                           /\ ledger (drain n clock x) = ledger w).
  { induction n as [|n IH]; intros x [Hx Hl]; cbn [drain]; [auto|].
    destruct (Qleb _ _); [|auto]. apply IH. split; [apply crossed_tick, Hx|].
    rewrite ledger_tick_crossed by exact Hx. exact Hl. }
  assert (Ha : finishLineCrossed (animate now clock w) = true
               /\ ledger (animate now clock w) = ledger w).
  { unfold animate. destruct (lastAnimationTime (loop w)); [|auto]. apply Hd. auto. }
  destruct Ha as [Hc Hl]. unfold ledger in Hl. injection Hl as E1 E2 E3. auto.
Qed.

Lemma no_collision_after_finish_line_witness :
  let w := animate 0 (fun _ => 1100%Z) (tick 1100 (nearFinish [unseenNotification])) in
  finishLineCrossed w = true
  /\ finishLineCrossed (animate 40 (fun _ => 1140%Z) w) = true
  /\ collisionEvents (data (animate 40 (fun _ => 1140%Z) w)) = collisionEvents (data w)
  /\ whiteBlocksHit (data (animate 40 (fun _ => 1140%Z) w)) = whiteBlocksHit (data w)
  /\ scoreOf (animate 40 (fun _ => 1140%Z) w) = scoreOf w.
Proof.
  split; [vm_compute; reflexivity|].
  apply (no_collision_after_finish_line 40 (fun _ => 1140%Z)
           (animate 0 (fun _ => 1100%Z) (tick 1100 (nearFinish [unseenNotification])))).
  vm_compute. reflexivity.
Defined.

(** ** The failure-lane telemetry *)

Lemma blocksLoop_preserves (P : World -> Prop) (Q : Mesh -> Prop) :
  (forall i b w, Q b -> P w -> P (blockHit i b w)) ->
  forall bs w, Forall Q bs -> P w -> P (blocksLoop bs w).2.
Proof.
  intros Hhit. induction bs as [|b rest IH]; intros w Hall H; cbn [blocksLoop]; [exact H|].
  inversion Hall as [|? ? Hb Hrest]; subst.
  destruct (Qltb _ _); [apply IH; assumption|].
  match goal with |- context [blocksLoop rest ?x] =>
    assert (Hx : P x) by (destruct (_ && _); [apply Hhit; assumption | exact H]);
    specialize (IH x Hrest Hx); destruct (blocksLoop rest x) as [kept w2] end.
  exact IH.
Qed.

Lemma failureView_trafficStep i o w :
  failureViewIdle (failureView w) -> failureViewIdle (failureView (trafficStep i o w).2).
Proof.
  unfold failureViewIdle, failureView, trafficStep, setCooldown, pushCollisionEvent,
    deductCollision.
  intros (H1 & H2 & H3).
  repeat (break_if; fields); repeat split; try assumption;
    apply Forall_app; split; try assumption; repeat constructor.
Qed.

Lemma failureView_blockHit i b w :
  isBlindLane b = false ->
  failureViewIdle (failureView w) -> failureViewIdle (failureView (blockHit i b w)).
Proof.
  unfold failureViewIdle, failureView, blockHit, setCooldown, pushCollisionEvent,
    deductCollision.
  intros Hb (H1 & H2 & H3). rewrite Hb. fields. repeat split; try assumption.
  apply Forall_app; split; [assumption|]. repeat constructor.
Qed.

Lemma failureView_completeSimulation w :
  failureViewIdle (failureView w) -> failureViewIdle (failureView (completeSimulation w)).
Proof.
  unfold failureViewIdle, failureView, completeSimulation, captureNotifications,
    ensureModeByUnitComplete.
  intros (H1 & H2 & H3). repeat (break_if; fields); repeat split; assumption.
Qed.

Lemma failureView_finishLine d w :
  failureViewIdle (failureView w) -> failureViewIdle (failureView (finishLine d w)).
Proof.
  intros H. unfold finishLine, completeWhenSeen, crossLine.
  repeat (break_if; try apply failureView_completeSimulation; try exact H).
Qed.

Lemma failureView_beforeControl d w : failureView (beforeControl d w) = failureView w.
Proof.
  unfold beforeControl.
  assert (H1 : forall e x, failureView (autopilotPendingStep e x) = failureView x)
    by (intros e x; unfold autopilotPendingStep; frame).
  assert (H2 : forall e x, failureView (spawnBlocks e x) = failureView x).
  { intros e x.
    assert (Hfar : forall y, failureView (spawnFar y) = failureView y)
      by (intros y; unfold spawnFar, distanceToFinish, distanceTravelled; frame).
    assert (Hlate : forall y, failureView (spawnLate y) = failureView y)
      by (intros y; unfold spawnLate, distanceToFinish, distanceTravelled; frame).
    assert (Hburst : forall y, failureView (spawnBurst e y) = failureView y)
      by (intros y; unfold spawnBurst, distanceToFinish, distanceTravelled; frame).
    unfold spawnBlocks. destruct (_ && _); rewrite Hburst, ?Hlate, ?Hfar; reflexivity. }
  assert (H3 : forall x, failureView (logDistanceUnits x) = failureView x)
    by (intros x; unfold logDistanceUnits; frame).
  assert (H4 : forall x, failureView (clearBlocksAfterFinish x) = failureView x)
    by (intros x; unfold clearBlocksAfterFinish, captureNotifications; frame).
  rewrite H1, H2, H3, H4. reflexivity.
Qed.

Lemma failureView_control e w : failureView (control e w) = failureView w.
Proof. unfold control, autopilotControl, manualControl. frame. Qed.

Lemma failureView_coast d w : failureView (coast d w) = failureView w.
Proof. unfold coast. frame. Qed.

Lemma FailureLaneIdle_afterControl d w :
  FailureLaneIdle w ->
  FailureLaneIdle (endOfStep (coast d (finishLine d (blocks (traffic (move w)))))).
Proof.
  intros (H1 & H2 & Hb & He).
  assert (Hv : failureViewIdle (failureView w)) by (unfold failureViewIdle, failureView; auto).
  assert (Ht : failureViewIdle (failureView (traffic (move w)))).
  { unfold traffic.
    pose proof (trafficLoop_preserves (fun x => failureViewIdle (failureView x))
                  failureView_trafficStep (otherCars (move w)) 0%nat (move w) Hv) as Hl.
    destruct (trafficLoop 0 (otherCars (move w)) (move w)) as [cars w1]. exact Hl. }
  assert (Hbt : Forall (fun b => isBlindLane b = false)
                  (finalBlocks (spawner (traffic (move w))))).
  { rewrite spawner_traffic. exact Hb. }
  generalize dependent (traffic (move w)). intros wt Ht Hbt.
  assert (Hk : failureViewIdle (failureView (blocks wt))).
  { unfold blocks. destruct (negb _); [|exact Ht].
    pose proof (blocksLoop_preserves (fun x => failureViewIdle (failureView x))
                  (fun b => isBlindLane b = false) failureView_blockHit
                  (rev (finalBlocks (spawner wt))) wt) as Hl.
    specialize (Hl ltac:(apply Forall_rev; exact Hbt) Ht).
    destruct (blocksLoop (rev (finalBlocks (spawner wt))) wt) as [kept w1]. exact Hl. }
  assert (Hbk : Forall (fun b => isBlindLane b = false) (finalBlocks (spawner (blocks wt)))).
  { rewrite finalBlocks_blocks. destruct (finishLineCrossed wt); [exact Hbt|].
    apply List.Forall_forall. intros b Hin. apply List.filter_In in Hin as [Hin _].
    rewrite List.Forall_forall in Hbt. apply Hbt, Hin. }
  generalize dependent (blocks wt). intros wk Hk Hbk.
  pose proof (failureView_finishLine d wk Hk) as Hf.
  assert (Hbf : Forall (fun b => isBlindLane b = false)
                  (finalBlocks (spawner (finishLine d wk)))).
  { destruct (finalBlocks_finishLine d wk) as [-> | ->]; [exact Hbk | constructor]. }
  generalize dependent (finishLine d wk). intros wf Hf Hbf.
  rewrite <- (failureView_coast d) in Hf. rewrite <- (spawner_coast d) in Hbf.
  generalize dependent (coast d wf). intros wo Hf Hbf.
  unfold FailureLaneIdle, endOfStep. fields.
  unfold failureViewIdle, failureView in Hf. destruct Hf as (? & ? & ?). auto.
Qed.

Lemma FailureLaneIdle_tick d w : FailureLaneIdle w -> FailureLaneIdle (tick d w).
Proof.
  intros H. destruct (gameStartedRef (refs w)) eqn:Hs.
  - rewrite tick_started by exact Hs. apply FailureLaneIdle_afterControl.
    destruct H as (H1 & H2 & Hb & He).
    destruct (finalBlocks_beforeControl d w (fun b => isBlindLane b = false) Hb) as [Hb' _];
      [auto|].
    pose proof (failureView_beforeControl d w) as Hv.
    rewrite <- (failureView_control (elapsedSeconds d w)) in Hv.
    rewrite <- (spawner_control (elapsedSeconds d w)) in Hb'.
    revert Hv Hb'. generalize (control (elapsedSeconds d w) (beforeControl d w)).
    intros wc Hv Hb'. unfold failureView in Hv. injection Hv as E1 E2 E3.
    unfold FailureLaneIdle. change (refs (move wc)) with (refs wc).
    change (data (move wc)) with (data wc). change (spawner (move wc)) with (spawner wc).
    rewrite E1, E2, E3. auto.
  - rewrite tick_not_started by exact Hs. exact H.
Qed.

Lemma FailureLaneIdle_step e w :
  (forall now d, e <> Frame now d) -> FailureLaneIdle w -> FailureLaneIdle (step w e).
Proof.
  intros Hframe H. unfold FailureLaneIdle in *.
  destruct e; cbn [step]; try exact H.
  - exfalso. eapply Hframe. reflexivity.
  - assert (E : (failureView (timerInterval dateNow w), spawner (timerInterval dateNow w))
                = (failureView w, spawner w)).
    { unfold timerInterval. repeat (break_if; try reflexivity).
      unfold timeDeduction.
      repeat (break_if; fields);
        (unfold logSecond; repeat (break_if; fields);
         apply (fold_left_frame (fun x => (failureView x, spawner x)));
         intros a [i t]; unfold triggerNotification; repeat (break_if; fields); reflexivity). }
    unfold failureView in E. injection E as -> -> -> ->. exact H.
  - unfold startGame. destruct (showInstructions (ui w)); [|exact H].
    fields. destruct H as (_ & _ & Hb & _). repeat split; [exact Hb | constructor].
  - unfold countdownDone. destruct (showInstructions (ui w)); exact H.
  - unfold handleToggleAutopilot. repeat (break_if; try exact H).
  - unfold clickNotification. destruct (gameStartedRef (refs w)); exact H.
Qed.

(** Along any run from mount the failure-lane counters stay at zero and no
    collision event carries the blind-lane flag: this build never marks a
    block as being in the blind lane. *)
Theorem failure_lane_counter_stays_zero (ids : list nat) (es : list Event) :
  let w := run es (mounted ids) in
  failureLaneHits (data w) = 0%Z
  /\ failureLaneHitsRef (refs w) = 0%Z
  /\ Forall (fun e => ev_isBlindLane e = false) (collisionEvents (data w)).
Proof.
  assert (H : FailureLaneIdle (run es (mounted ids))).
  { apply (world_invariant_run FailureLaneIdle).
    - apply FailureLaneIdle_tick.
    - intros a t w H. exact H.
    - apply FailureLaneIdle_step.
    - unfold FailureLaneIdle, mounted. fields. repeat split; constructor. }
  destruct H as (? & ? & _ & ?). cbn zeta. auto.
Qed.

(** ** The completion branch *)

Lemma countSeen_all ns : forallb n_seen ns = true -> countSeen ns = length ns.
Proof.
  unfold countSeen. induction ns as [|n ns IH]; intros H; [reflexivity|].
  cbn [forallb] in H. apply andb_prop in H as [Hn Hns].
  rewrite filter_cons_True by exact Hn. cbn [length]. rewrite IH by exact Hns. reflexivity.
Qed.

Lemma World_ext (a b : World) :
  car a = car b -> keys a = keys b -> spawner a = spawner b -> otherCars a = otherCars b ->
  collisionCooldown a = collisionCooldown b -> finishLineCrossed a = finishLineCrossed b ->
  finishLineCrossTime a = finishLineCrossTime b -> loop a = loop b ->
  timerVars a = timerVars b -> data a = data b -> refs a = refs b -> ui a = ui b -> a = b.
Proof. destruct a, b. cbn. intros. subst. reflexivity. Qed.

(** Running the completion branch a second time changes nothing. *)
Theorem completion_is_idempotent (w : World) :
  completeSimulation (completeSimulation w) = completeSimulation w.
Proof.
  apply World_ext;
    unfold completeSimulation, captureNotifications, ensureModeByUnitComplete; frame.
  all: exfalso; repeat match goal with H : _ = _ |- _ => revert H end; fields;
    rewrite ?Z.leb_refl; intros; congruence.
Qed.

Lemma completeSimulation_exported w :
  allNotificationsSeen w = true -> Exported (completeSimulation w).
Proof.
  unfold allNotificationsSeen. intros H. apply andb_prop in H as [Hlen Hall].
  apply Nat.ltb_lt in Hlen. pose proof (countSeen_all _ Hall) as Hc.
  unfold Exported, scoreOf, completeSimulation, captureNotifications, ensureModeByUnitComplete.
  fields.
  destruct (Z.leb_spec TRACK_LENGTH (lastDistanceUnitLoggedRef (refs w))) as [Hge|Hlt]; fields;
    repeat split; first [reflexivity | exact Hc | exact Hlen | lia].
Qed.

Lemma completeWhenSeen_cases w :
  completeWhenSeen w = w
  \/ (allNotificationsSeen w = true /\ completeWhenSeen w = completeSimulation w).
Proof.
  unfold completeWhenSeen. destruct (_ && _); [|auto].
  destruct (allNotificationsSeen w); auto.
Qed.

Lemma crossLine_cases d w :
  isComplete (ui (crossLine d w)) = isComplete (ui w)
  \/ exists w', allNotificationsSeen w' = true /\ crossLine d w = completeSimulation w'.
Proof.
  unfold crossLine. destruct (_ && _); [|auto].
  match goal with |- context [allNotificationsSeen ?x] =>
    destruct (allNotificationsSeen x) eqn:E; [right; exists x; auto | left; reflexivity] end.
Qed.

(** When the finish-line check sets [isComplete], it has just run the
    completion branch on a state in which every notification was seen. *)
Lemma finishLine_completes d w :
  isComplete (ui w) = false -> isComplete (ui (finishLine d w)) = true ->
  exists y, allNotificationsSeen y = true /\ finishLine d w = completeSimulation y.
Proof.
  intros Hw H. unfold finishLine in *.
  destruct (completeWhenSeen_cases (crossLine d w)) as [E | [Ha E]]; rewrite E in *.
  - destruct (crossLine_cases d w) as [Eu | (y & Hy & Ey)]; [congruence|].
    exists y. auto.
  - eexists. split; [exact Ha | reflexivity].
Qed.

Lemma exportView_coast d w : exportView (coast d w) = exportView w.
Proof. unfold coast. frame. Qed.

Lemma Exported_view w w' : exportView w' = exportView w -> Exported w -> Exported w'.
Proof.
  unfold exportView, Exported, scoreOf. intros [= -> -> -> ->]. auto.
Qed.

(** The tick that completes the run leaves the telemetry consistent: the
    final score is the live score, the notification summary is the live
    list, of which every notification (at least one) is counted as seen,
    the interval timer is cleared and no block is left. *)
Theorem completion_exports_consistent_data (d : Z) (w : World) :
  gameStartedRef (refs w) = true ->
  isComplete (ui w) = false ->
  isComplete (ui (tick d w)) = true ->
  Exported (tick d w).
Proof.
  intros Hs Hw H. rewrite tick_started in * by exact Hs.
  pose proof (gate_beforeFinish d w) as Hg.
  revert H Hg.
  generalize (blocks (traffic (move (control (elapsedSeconds d w) (beforeControl d w))))).
  intros x H Hg.
  assert (Hx : isComplete (ui x) = false).
  { unfold gate in Hg. injection Hg as -> _ _ _ _. exact Hw. }
  assert (Hf : isComplete (ui (finishLine d x)) = true).
  { revert H. unfold endOfStep, coast. repeat (break_if; fields); auto. }
  destruct (finishLine_completes d x Hx Hf) as (y & Hy & Ey).
  apply (Exported_view (completeSimulation y)).
  - rewrite <- Ey. unfold endOfStep.
    change (exportView (with_loop ?f ?z)) with (exportView z). apply exportView_coast.
  - apply completeSimulation_exported, Hy.
Qed.

Lemma completion_exports_consistent_data_witness :
  gameStartedRef (refs (nearFinish [seenNotification])) = true
  /\ isComplete (ui (nearFinish [seenNotification])) = false
  /\ isComplete (ui (tick 70000 (nearFinish [seenNotification]))) = true
  /\ Exported (tick 70000 (nearFinish [seenNotification])).
Proof.
  split; [vm_compute; reflexivity|]. split; [vm_compute; reflexivity|].
  split; [vm_compute; reflexivity|].
  apply (completion_exports_consistent_data 70000 (nearFinish [seenNotification]));
    vm_compute; reflexivity.
Defined.

(** ** After completion *)

Lemma SimulationData_ext (a b : SimulationData) :
  modeBySecond a = modeBySecond b -> whiteBlocksHit a = whiteBlocksHit b ->
  failureLaneHits a = failureLaneHits b -> modeByUnit a = modeByUnit b ->
  collisionEvents a = collisionEvents b -> finalScore a = finalScore b ->
  sd_notifications a = sd_notifications b -> notificationsSeen a = notificationsSeen b ->
  notificationsTotal a = notificationsTotal b ->
  finishLineCrossSecond a = finishLineCrossSecond b -> a = b.
Proof. destruct a, b. cbn. intros. subst. reflexivity. Qed.

Lemma Frozen_view w w' : frozenView w' = frozenView w -> Frozen w -> Frozen w'.
Proof. unfold frozenView, Frozen. intros [= -> -> -> -> -> -> ->]. auto. Qed.

Lemma frozenView_completeSimulation w :
  Frozen w -> frozenView (completeSimulation w) = frozenView w.
Proof.
  intros (Hc & Hb & Hl & H1 & H2 & H3 & H4 & H5).
  apply Z.leb_le in Hl.
  unfold frozenView, completeSimulation, captureNotifications, ensureModeByUnitComplete.
  fields. rewrite Hl. fields. rewrite Hb.
  repeat f_equal. apply SimulationData_ext; fields; congruence.
Qed.

Lemma Frozen_completeSimulation w :
  finishLineCrossed w = true -> Frozen (completeSimulation w).
Proof.
  intros Hc. unfold Frozen.
  pose proof (gate_completeSimulation w) as Hg. apply (f_equal snd) in Hg.
  unfold gate in Hg. cbn [snd] in Hg. rewrite Hg.
  split; [exact Hc|]. split; [apply finalBlocks_completeSimulation|].
  unfold completeSimulation, captureNotifications, ensureModeByUnitComplete. fields.
  destruct (Z.leb_spec TRACK_LENGTH (lastDistanceUnitLoggedRef (refs w))); fields;
    repeat split; first [reflexivity | lia].
Qed.

Lemma frozenView_beforeControl d w :
  Frozen w -> frozenView (beforeControl d w) = frozenView w.
Proof.
  intros (Hc & Hb & Hl & _). unfold beforeControl.
  assert (H1 : forall e x, frozenView (autopilotPendingStep e x) = frozenView x)
    by (intros e x; unfold autopilotPendingStep; frame).
  rewrite H1.
  set (w0 := with_loop _ w).
  assert (E1 : clearBlocksAfterFinish w0 = w0).
  { unfold clearBlocksAfterFinish, w0. fields. rewrite Hb, andb_false_r. reflexivity. }
  assert (E2 : logDistanceUnits w0 = w0).
  { unfold logDistanceUnits. pose proof (currentDistanceUnit_le w0) as Hle.
    change (refs w0) with (refs w).
    destruct (Z.ltb_spec (lastDistanceUnitLoggedRef (refs w)) (currentDistanceUnit w0));
      [lia | reflexivity]. }
  rewrite E1, E2, spawnBlocks_crossed by exact Hc. reflexivity.
Qed.

Lemma frozenView_control e w : frozenView (control e w) = frozenView w.
Proof. unfold control, autopilotControl, manualControl. frame. Qed.

Lemma frozenView_coast d w : frozenView (coast d w) = frozenView w.
Proof. unfold coast. frame. Qed.

Lemma frozenView_trafficStep i o w :
  finishLineCrossed w = true -> frozenView (trafficStep i o w).2 = frozenView w.
Proof. intros H. unfold trafficStep. destruct (Qltb _ _); fields; rewrite H; reflexivity. Qed.

Lemma frozenView_afterControl d w :
  Frozen w ->
  frozenView (endOfStep (coast d (finishLine d (blocks (traffic (move w)))))) = frozenView w.
Proof.
  intros Hf. pose proof Hf as (Hc & _).
  unfold endOfStep. change (frozenView (with_loop ?f ?x)) with (frozenView x).
  rewrite frozenView_coast.
  assert (Ht : frozenView (traffic (move w)) = frozenView w).
  { unfold traffic.
    pose proof (trafficLoop_preserves (fun x => frozenView x = frozenView w)) as Hl.
    specialize (Hl ltac:(intros i o x Hx; cbn beta in *; rewrite frozenView_trafficStep;
                         [exact Hx | unfold frozenView in Hx; congruence])
                   (otherCars (move w)) 0%nat (move w) eq_refl).
    destruct (trafficLoop 0 (otherCars (move w)) (move w)) as [cars w1]. exact Hl. }
  assert (Hft : Frozen (traffic (move w))) by (apply (Frozen_view w); assumption).
  revert Ht Hft. generalize (traffic (move w)). intros wt Ht Hft.
  assert (Eb : blocks wt = wt).
  { unfold blocks. destruct Hft as (-> & _). reflexivity. }
  rewrite Eb. unfold finishLine.
  assert (Ec : crossLine d wt = wt).
  { unfold crossLine. destruct Hft as (-> & _). rewrite andb_false_r. reflexivity. }
  rewrite Ec.
  destruct (completeWhenSeen_cases wt) as [-> | [_ ->]]; [exact Ht|].
  rewrite frozenView_completeSimulation by exact Hft. exact Ht.
Qed.

Lemma frozenView_tick d w : Frozen w -> frozenView (tick d w) = frozenView w.
Proof.
  intros Hf. destruct (gameStartedRef (refs w)) eqn:Hs.
  - rewrite tick_started by exact Hs.
    pose proof (frozenView_beforeControl d w Hf) as Hb.
    rewrite <- (frozenView_control (elapsedSeconds d w)) in Hb.
    revert Hb. generalize (control (elapsedSeconds d w) (beforeControl d w)). intros wc Hb.
    rewrite frozenView_afterControl; [exact Hb|].
    apply (Frozen_view w); assumption.
  - rewrite tick_not_started by exact Hs. reflexivity.
Qed.

(** Once the completion branch has run, an animation callback, however
    many ticks it runs, leaves the telemetry exactly as it is, even though
    the vehicle keeps coasting and the branch may run again. *)
Theorem telemetry_frozen_after_completion (now : Q) (clock : Z -> Z) (y : World) :
  finishLineCrossed y = true ->
  data (animate now clock (completeSimulation y)) = data (completeSimulation y).
Proof.
  intros Hc. pose proof (Frozen_completeSimulation y Hc) as Hf.
  revert Hf. generalize (completeSimulation y). intros w Hf.
  assert (Hd : forall n x, frozenView x = frozenView w -> frozenView (drain n clock x) = frozenView w).
  { induction n as [|n IH]; intros x Hx; cbn [drain]; [exact Hx|].
    destruct (Qleb _ _); [|exact Hx]. apply IH.
    rewrite frozenView_tick; [exact Hx | apply (Frozen_view w); assumption]. }
  assert (Ha : frozenView (animate now clock w) = frozenView w).
  { unfold animate. destruct (lastAnimationTime (loop w)); [|reflexivity]. apply Hd. reflexivity. }
  unfold frozenView in Ha. congruence.
Qed.

Lemma telemetry_frozen_after_completion_witness :
  let y := animate 0 (fun _ => 1100%Z) (tick 1100 (nearFinish [unseenNotification])) in
  finishLineCrossed y = true
  /\ data (animate 40 (fun _ => 1140%Z) (completeSimulation y)) = data (completeSimulation y).
Proof.
  split; [vm_compute; reflexivity|].
  apply (telemetry_frozen_after_completion 40 (fun _ => 1140%Z)
           (animate 0 (fun _ => 1100%Z) (tick 1100 (nearFinish [unseenNotification])))).
  vm_compute. reflexivity.
Defined.

(** ** The autopilot switch *)

Lemma Refs_ext (a b : Refs) :
  isCompleteRef a = isCompleteRef b -> gameStartedRef a = gameStartedRef b ->
  startTimeRef a = startTimeRef b -> autopilotRef a = autopilotRef b ->
  autopilotPendingRef a = autopilotPendingRef b -> scoreRef a = scoreRef b ->
  failureLaneHitsRef a = failureLaneHitsRef b ->
  lastDistanceUnitLoggedRef a = lastDistanceUnitLoggedRef b ->
  notificationsRef a = notificationsRef b -> a = b.
Proof. destruct a, b. cbn. intros. subst. reflexivity. Qed.

Lemma Ui_ext (a b : Ui) :
  isAutopilot a = isAutopilot b -> isComplete a = isComplete b ->
  showInstructions a = showInstructions b ->
  showViewAllNotificationsPopup a = showViewAllNotificationsPopup b -> a = b.
Proof. destruct a, b. cbn. intros. subst. reflexivity. Qed.

(** In manual mode, requesting the autopilot and cancelling the request
    leaves the state as it was. *)
Theorem autopilot_request_then_cancel (w : World) :
  autopilotSwitch w = (false, false, false) ->
  handleToggleAutopilot (handleToggleAutopilot w) = w.
Proof.
  unfold autopilotSwitch. intros [= Hu Hr Hp].
  unfold handleToggleAutopilot.
  destruct (negb (isComplete (ui w)) && gameStartedRef (refs w)) eqn:Hb.
  - rewrite Hu, Hp. cbn [orb]. fields. rewrite Hb, orb_true_r.
    apply World_ext; fields; try reflexivity.
    + apply Refs_ext; fields; congruence.
    + apply Ui_ext; fields; congruence.
  - rewrite Hb. reflexivity.
Qed.

Lemma autopilot_request_then_cancel_witness :
  autopilotSwitch manualRun = (false, false, false)
  /\ handleToggleAutopilot (handleToggleAutopilot manualRun) = manualRun.
Proof.
  split; [vm_compute; reflexivity|].
  apply (autopilot_request_then_cancel manualRun). vm_compute. reflexivity.
Defined.

Lemma autopilotSwitch_control e w : autopilotSwitch (control e w) = autopilotSwitch w.
Proof. unfold control, autopilotControl, manualControl. frame. Qed.

Lemma autopilotSwitch_trafficStep i o w :
  autopilotSwitch (trafficStep i o w).2 = autopilotSwitch w.
Proof. unfold trafficStep. frame. Qed.

Lemma autopilotSwitch_blockHit i b w : autopilotSwitch (blockHit i b w) = autopilotSwitch w.
Proof. unfold blockHit. frame. Qed.

Lemma autopilotSwitch_completeSimulation w :
  autopilotSwitch (completeSimulation w) = autopilotSwitch w.
Proof.
  unfold autopilotSwitch, completeSimulation, captureNotifications, ensureModeByUnitComplete.
  frame.
Qed.

Lemma autopilotSwitch_finishLine d w : autopilotSwitch (finishLine d w) = autopilotSwitch w.
Proof.
  unfold finishLine, completeWhenSeen, crossLine.
  repeat (break_if; rewrite ?autopilotSwitch_completeSimulation; try reflexivity).
Qed.

Lemma autopilotSwitch_coast d w : autopilotSwitch (coast d w) = autopilotSwitch w.
Proof. unfold coast. frame. Qed.

Lemma autopilotSwitch_afterPending d w :
  autopilotSwitch (endOfStep (coast d (finishLine d (blocks (traffic (move w))))))
  = autopilotSwitch w.
Proof.
  unfold endOfStep. change (autopilotSwitch (with_loop ?f ?x)) with (autopilotSwitch x).
  rewrite autopilotSwitch_coast, autopilotSwitch_finishLine.
  rewrite (blocks_frame autopilotSwitch autopilotSwitch_blockHit) by reflexivity.
  rewrite (traffic_frame autopilotSwitch autopilotSwitch_trafficStep) by reflexivity.
  reflexivity.
Qed.

Lemma autopilotSwitch_beforePending d w : autopilotSwitch (beforePending d w) = autopilotSwitch w.
Proof.
  unfold beforePending.
  assert (H2 : forall e x, autopilotSwitch (spawnBlocks e x) = autopilotSwitch x).
  { intros e x.
    assert (Hfar : forall y, autopilotSwitch (spawnFar y) = autopilotSwitch y)
      by (intros y; unfold spawnFar, distanceToFinish, distanceTravelled; frame).
    assert (Hlate : forall y, autopilotSwitch (spawnLate y) = autopilotSwitch y)
      by (intros y; unfold spawnLate, distanceToFinish, distanceTravelled; frame).
    assert (Hburst : forall y, autopilotSwitch (spawnBurst e y) = autopilotSwitch y)
      by (intros y; unfold spawnBurst, distanceToFinish, distanceTravelled; frame).
    unfold spawnBlocks. destruct (_ && _); rewrite Hburst, ?Hlate, ?Hfar; reflexivity. }
  assert (H3 : forall x, autopilotSwitch (logDistanceUnits x) = autopilotSwitch x)
    by (intros x; unfold logDistanceUnits; frame).
  assert (H4 : forall x, autopilotSwitch (clearBlocksAfterFinish x) = autopilotSwitch x)
    by (intros x; unfold clearBlocksAfterFinish, captureNotifications; frame).
  rewrite H2, H3, H4. reflexivity.
Qed.

Lemma started_beforeControl d w :
  gameStartedRef (refs (beforeControl d w)) = gameStartedRef (refs w).
Proof.
  unfold beforeControl.
  set (f := fun x => gameStartedRef (refs x)).
  change (f (autopilotPendingStep (elapsedSeconds d (with_loop (fun l => set_frameCount (frameCount l + 1)%Z l) w))
               (spawnBlocks (elapsedSeconds d (with_loop (fun l => set_frameCount (frameCount l + 1)%Z l) w))
                  (logDistanceUnits (clearBlocksAfterFinish
                     (with_loop (fun l => set_frameCount (frameCount l + 1)%Z l) w)))))
          = f w).
  assert (H1 : forall e x, f (autopilotPendingStep e x) = f x)
    by (intros e x; unfold f, autopilotPendingStep; frame).
  assert (H2 : forall e x, f (spawnBlocks e x) = f x).
  { intros e x.
    assert (Hfar : forall y, f (spawnFar y) = f y)
      by (intros y; unfold f, spawnFar, distanceToFinish, distanceTravelled; frame).
    assert (Hlate : forall y, f (spawnLate y) = f y)
      by (intros y; unfold f, spawnLate, distanceToFinish, distanceTravelled; frame).
    assert (Hburst : forall y, f (spawnBurst e y) = f y)
      by (intros y; unfold f, spawnBurst, distanceToFinish, distanceTravelled; frame).
    unfold spawnBlocks. destruct (_ && _); rewrite Hburst, ?Hlate, ?Hfar; reflexivity. }
  assert (H3 : forall x, f (logDistanceUnits x) = f x)
    by (intros x; unfold f, logDistanceUnits; frame).
  assert (H4 : forall x, f (clearBlocksAfterFinish x) = f x)
    by (intros x; unfold f, clearBlocksAfterFinish, captureNotifications; frame).
  rewrite H1, H2, H3, H4. reflexivity.
Qed.

Lemma beforeControl_beforePending d w :
  beforeControl d w = autopilotPendingStep (elapsedSeconds d w) (beforePending d w).
Proof. reflexivity. Qed.

(** A requested autopilot engages in the first tick that finds no obstacle
    in the vehicle's lane from 15 units behind to 60 ahead: the tick sets
    the React state and clears the request, and is itself still driven
    manually; the loop's ref follows with the next render.  While an
    obstacle is that close, the request stays pending. *)
Theorem requested_autopilot_engages_when_clear (d : Z) (w : World) :
  gameStartedRef (refs w) = true ->
  autopilotRef (refs w) = false ->
  autopilotPendingRef (refs w) = true ->
  (0 <= elapsedSeconds d w)%Z ->
  autopilotSwitch (tick d w)
  = (if obstacleTooClose (beforePending d w) then isAutopilot (ui w) else true,
     false,
     obstacleTooClose (beforePending d w))
  /\ wasAutopilot (car (tick d w)) = false
  /\ (obstacleTooClose (beforePending d w) = false ->
      autopilotRef (refs (runEffects (tick d w))) = true).
Proof.
  intros Hs Hr Hp He.
  assert (Hsw : autopilotSwitch (tick d w)
                = (if obstacleTooClose (beforePending d w) then isAutopilot (ui w) else true,
                   false, obstacleTooClose (beforePending d w))).
  { rewrite tick_started by exact Hs.
    rewrite autopilotSwitch_afterPending, autopilotSwitch_control, beforeControl_beforePending.
    pose proof (autopilotSwitch_beforePending d w) as Hb.
    unfold autopilotSwitch in Hb. injection Hb as Hb1 Hb2 Hb3.
    unfold autopilotPendingStep. rewrite Hb2, Hb3, Hr, Hp.
    apply Z.leb_le in He. rewrite He. cbn [negb andb].
    destruct (obstacleTooClose (beforePending d w)); unfold autopilotSwitch; fields;
      rewrite ?Hb1, ?Hb2, ?Hb3, ?Hr, ?Hp; reflexivity. }
  split; [exact Hsw|]. split.
  - rewrite tick_started by exact Hs. rewrite car_endOfStep.
    assert (Hm : forall x, wasAutopilot (car (coast d (finishLine d (blocks (traffic (move x))))))
                           = wasAutopilot (car x)).
    { intros x. destruct (coast_car d (finishLine d (blocks (traffic (move x))))) as [E|E];
        rewrite E, car_finishLine, car_blocks, car_traffic; reflexivity. }
    rewrite Hm. unfold control.
    assert (Ha : autopilotRef (refs (beforeControl d w)) = false).
    { pose proof (autopilotSwitch_beforePending d w) as Hb.
      unfold autopilotSwitch in Hb. injection Hb as _ Hb2 _.
      rewrite beforeControl_beforePending. unfold autopilotPendingStep.
      repeat (break_if; fields); congruence. }
    rewrite Ha. cbn [andb]. unfold manualControl.
    rewrite started_beforeControl, Hs. fields. repeat (break_if; fields); reflexivity.
  - intros Hclear. unfold autopilotSwitch in Hsw. rewrite Hclear in Hsw.
    injection Hsw as Hu _ _. unfold runEffects. fields. exact Hu.
Qed.

Lemma requested_autopilot_engages_when_clear_witness :
  let w := handleToggleAutopilot manualRun in
  gameStartedRef (refs w) = true
  /\ autopilotRef (refs w) = false
  /\ autopilotPendingRef (refs w) = true
  /\ (0 <= elapsedSeconds 1100 w)%Z
  /\ autopilotSwitch (tick 1100 w) = (true, false, false)
  /\ autopilotRef (refs (runEffects (tick 1100 w))) = true.
Proof.
  pose proof (requested_autopilot_engages_when_clear 1100 (handleToggleAutopilot manualRun)
                ltac:(vm_compute; reflexivity) ltac:(vm_compute; reflexivity)
                ltac:(vm_compute; reflexivity) ltac:(vm_compute; discriminate))
    as (Hsw & _ & Hr).
  assert (Hclear : obstacleTooClose (beforePending 1100 (handleToggleAutopilot manualRun)) = false)
    by (vm_compute; reflexivity).
  rewrite Hclear in Hsw.
  split; [vm_compute; reflexivity|]. split; [vm_compute; reflexivity|].
  split; [vm_compute; reflexivity|]. split; [vm_compute; discriminate|].
  split; [exact Hsw | exact (Hr Hclear)].
Defined.

(** ** Notifications *)



Lemma markSeen_id d id w n : n_id (markSeen d id w n) = n_id n.
Proof. unfold markSeen. destruct (_ && _); reflexivity. Qed.

(** A click never takes a notification away, never changes an id and
    never marks a notification unseen. *)
Theorem click_keeps_notifications (d : Z) (id : nat) (w : World) :
  let ns := notificationsRef (refs w) in
  let ns' := notificationsRef (refs (clickNotification d id w)) in
  map n_id ns' = map n_id ns
  /\ map arrivalSecond ns' = map arrivalSecond ns
  /\ Forall2 (fun n n' => n_seen n = true -> n_seen n' = true /\ clickedSecond n' = clickedSecond n)
       ns ns'.
Proof.
  cbn zeta. unfold clickNotification. destruct (gameStartedRef (refs w)); fields.
  - rewrite !map_map. repeat split.
    + apply map_ext. intros n. apply markSeen_id.
    + apply map_ext. intros n. unfold markSeen. destruct (_ && _); reflexivity.
    + induction (notificationsRef (refs w)) as [|n ns IH]; cbn [map]; constructor; [|exact IH].
      intros Hn. unfold markSeen. rewrite Hn, andb_false_r. auto.
  - repeat split. induction (notificationsRef (refs w)); constructor; auto.
Qed.

(** A view of the state that no phase of the tick changes is the same
    after the tick. *)
Lemma tick_frame {A} (f : World -> A) :
  (forall x, f (clearBlocksAfterFinish x) = f x) ->
  (forall x, f (logDistanceUnits x) = f x) ->
  (forall x, f (spawnFar x) = f x) ->
  (forall x, f (spawnLate x) = f x) ->
  (forall e x, f (spawnBurst e x) = f x) ->
  (forall e x, f (autopilotPendingStep e x) = f x) ->
  (forall e x, f (control e x) = f x) ->
  (forall i o x, f (trafficStep i o x).2 = f x) ->
  (forall i b x, f (blockHit i b x) = f x) ->
  (forall d x, f (finishLine d x) = f x) ->
  (forall d x, f (coast d x) = f x) ->
  (forall g x, f (with_loop g x) = f x) ->
  (forall g x, f (with_car g x) = f x) ->
  (forall g x, f (with_spawner g x) = f x) ->
  (forall v x, f (set_otherCars v x) = f x) ->
  forall d w, f (tick d w) = f w.
Proof.
  intros Hclear Hlog Hfar Hlate Hburst Hpend Hctl Htraf Hhit Hfin Hcoast Hloop Hcar Hsp Hoc d w.
  destruct (gameStartedRef (refs w)) eqn:Hs.
  - rewrite tick_started by exact Hs. unfold endOfStep. rewrite Hloop, Hcoast, Hfin.
    rewrite (blocks_frame f Hhit) by (intros; apply Hsp).
    rewrite (traffic_frame f Htraf) by (intros; apply Hoc).
    unfold move. rewrite Hcar, Hctl. unfold beforeControl. rewrite Hpend.
    assert (Hspawn : forall e x, f (spawnBlocks e x) = f x).
    { intros e x. unfold spawnBlocks. destruct (_ && _); rewrite Hburst, ?Hlate, ?Hfar; reflexivity. }
    rewrite Hspawn, Hlog, Hclear. apply Hloop.
  - rewrite tick_not_started by exact Hs. unfold endOfStep. rewrite Hloop, Hcar. apply Hloop.
Qed.

Ltac frame_tick :=
  apply tick_frame;
  [ intros; unfold clearBlocksAfterFinish, captureNotifications; frame
  | intros; unfold logDistanceUnits; frame
  | intros; unfold spawnFar, distanceToFinish, distanceTravelled; frame
  | intros; unfold spawnLate, distanceToFinish, distanceTravelled; frame
  | intros; unfold spawnBurst, distanceToFinish, distanceTravelled; frame
  | intros; unfold autopilotPendingStep; frame
  | intros; unfold control, autopilotControl, manualControl; frame
  | intros; unfold trafficStep; frame
  | intros; unfold blockHit; frame
  | intros;
    let Hc := fresh "Hc" in
    match goal with |- ?f (finishLine _ _) = _ =>
      assert (Hc : forall y, f (completeSimulation y) = f y)
        by (intros; unfold completeSimulation, captureNotifications, ensureModeByUnitComplete;
            frame)
    end;
    unfold finishLine, completeWhenSeen, crossLine;
    repeat (break_if; rewrite ?Hc; try reflexivity)
  | intros; unfold coast; frame
  | reflexivity | reflexivity | reflexivity | reflexivity ].

Lemma notificationView_tick d w : notificationView (tick d w) = notificationView w.
Proof. revert d w. frame_tick. Qed.

Lemma NotificationsOk_view w w' :
  notificationView w' = notificationView w -> NotificationsOk w -> NotificationsOk w'.
Proof. unfold notificationView, NotificationsOk. intros [= -> -> -> -> ->]. auto. Qed.

Lemma indexed_bound {A} (l : list A) i x : In (i, x) (indexed l) -> (i < length l)%nat.
Proof.
  unfold indexed. intros H. apply in_combine_l in H. apply in_seq in H. lia.
Qed.

Lemma existsb_eqb_false i l : existsb (Nat.eqb i) l = false -> i ∉ l.
Proof.
  intros H Hin. apply list_elem_of_In in Hin.
  assert (existsb (Nat.eqb i) l = true); [|congruence].
  apply existsb_exists. exists i. split; [exact Hin | apply Nat.eqb_refl].
Qed.

Lemma NotificationsOk_trigger d s w i t :
  (i < length notificationTimes)%nat -> showInstructions (ui w) = false ->
  NotificationsOk w ->
  NotificationsOk (triggerNotification d s w (i, t))
  /\ showInstructions (ui (triggerNotification d s w (i, t))) = false
  /\ shuffledIds (timerVars (triggerNotification d s w (i, t))) = shuffledIds (timerVars w).
Proof.
  intros Hi Hinstr H. pose proof H as (Hnd & Hall & Hmap & _). unfold triggerNotification.
  destruct (_ && _) eqn:E; [|split; [exact H | auto]].
  apply andb_prop in E as [_ E]. apply negb_true_iff, existsb_eqb_false in E.
  unfold NotificationsOk. fields. split; [|auto]. split; [|split; [|split]].
  - apply NoDup_cons. split; assumption.
  - constructor; assumption.
  - rewrite map_app, Hmap. cbn [rev]. rewrite map_app. reflexivity.
  - congruence.
Qed.

Lemma NotificationsOk_triggers d s entries : forall w,
  Forall (fun e => (e.1 < length notificationTimes)%nat) entries ->
  showInstructions (ui w) = false -> NotificationsOk w ->
  NotificationsOk (fold_left (triggerNotification d s) entries w)
  /\ showInstructions (ui (fold_left (triggerNotification d s) entries w)) = false
  /\ shuffledIds (timerVars (fold_left (triggerNotification d s) entries w))
     = shuffledIds (timerVars w).
Proof.
  induction entries as [|[i t] rest IH]; intros w Hall Hinstr H; cbn [fold_left]; [auto|].
  inversion Hall as [|? ? Hi Hrest]; subst. cbn [fst] in Hi.
  destruct (NotificationsOk_trigger d s w i t Hi Hinstr H) as (H1 & H2 & H3).
  destruct (IH _ Hrest H2 H1) as (? & ? & E).
  split; [assumption | split; [assumption | congruence]].
Qed.

Lemma NotificationsOk_timerInterval d w :
  NotificationsOk w ->
  NotificationsOk (timerInterval d w)
  /\ shuffledIds (timerVars (timerInterval d w)) = shuffledIds (timerVars w).
Proof.
  intros H. unfold timerInterval.
  destruct (timerCleared _); [auto|].
  destruct (clockRunning w) as [t0|] eqn:Hclock; [|auto].
  destruct (isCompleteRef _); [auto|].
  assert (Hinstr : showInstructions (ui w) = false).
  { destruct (showInstructions (ui w)) eqn:E; [|reflexivity].
    destruct H as (_ & _ & _ & Hstart). destruct (Hstart E) as [Hg _].
    unfold clockRunning in Hclock. rewrite Hg in Hclock.
    destruct (startTimeRef (refs w)); [rewrite andb_false_r in Hclock|]; discriminate. }
  destruct (NotificationsOk_triggers d ((d - t0) / 1000) (indexed notificationTimes) w)
    as (H1 & H2 & H3); [|exact Hinstr | exact H |].
  { apply List.Forall_forall. intros [i t] Hin. cbn [fst]. eapply indexed_bound, Hin. }
  revert H1 H3.
  generalize (fold_left (triggerNotification d ((d - t0) / 1000)) (indexed notificationTimes) w).
  intros w1 H1 H3.
  assert (E : notificationView (timeDeduction d (logSecond ((d - t0) / 1000) w1))
              = notificationView w1).
  { unfold timeDeduction, logSecond. frame. }
  split; [apply (NotificationsOk_view w1); assumption|].
  unfold notificationView in E. injection E as _ E _ _ _. congruence.
Qed.

Lemma NotificationsOk_step ids e w :
  (forall now d, e <> Frame now d) ->
  NotificationsOk w /\ shuffledIds (timerVars w) = ids ->
  NotificationsOk (step w e) /\ shuffledIds (timerVars (step w e)) = ids.
Proof.
  intros Hframe [H Hids]. destruct e; cbn [step].
  - exfalso. eapply Hframe. reflexivity.
  - destruct (NotificationsOk_timerInterval dateNow w H) as [? E]. split; [assumption|congruence].
  - auto.
  - auto.
  - unfold startGame. destruct (showInstructions (ui w)) eqn:E; [|auto].
    destruct H as (Hnd & Hall & Hmap & Hstart). destruct (Hstart E) as [Hg Hsh].
    unfold NotificationsOk. fields. rewrite Hsh. split; [|exact Hids].
    split; [constructor|]. split; [constructor|]. split; [reflexivity | discriminate].
  - unfold countdownDone. destruct (showInstructions (ui w)) eqn:E; [auto|].
    split; [|exact Hids]. destruct H as (Hnd & Hall & Hmap & Hstart).
    unfold NotificationsOk. fields. repeat split; try assumption; congruence.
  - split; [|unfold handleToggleAutopilot; repeat (break_if; try exact Hids)].
    apply (NotificationsOk_view w); [|exact H]. unfold handleToggleAutopilot. frame.
  - split; [|unfold clickNotification; destruct (gameStartedRef _); exact Hids].
    apply (NotificationsOk_view w); [|exact H].
    unfold clickNotification, notificationView.
    destruct (gameStartedRef (refs w)) eqn:Hg; fields; rewrite ?Hg; [|reflexivity].
    rewrite map_map.
    rewrite (map_ext _ n_id (markSeen_id dateNow id w)). reflexivity.
  - split; [|exact Hids]. apply (NotificationsOk_view w); [reflexivity | exact H].
Qed.

Lemma NotificationsOk_run ids es :
  NotificationsOk (run es (mounted ids)) /\ shuffledIds (timerVars (run es (mounted ids))) = ids.
Proof.
  apply (world_invariant_run (fun w => NotificationsOk w /\ shuffledIds (timerVars w) = ids)).
  - intros d w [H Hids]. pose proof (notificationView_tick d w) as E.
    split; [apply (NotificationsOk_view w); assumption|].
    unfold notificationView in E. injection E as _ E _ _ _. congruence.
  - intros a t w H. exact H.
  - intros e w. apply NotificationsOk_step.
  - unfold NotificationsOk, mounted. fields. repeat split; try constructor.
Qed.

Lemma NoDup_map_nth (ids shown : list nat) :
  NoDup ids -> NoDup shown -> Forall (fun i => (i < length ids)%nat) shown ->
  NoDup (map (fun i => nth i ids 0%nat) shown).
Proof.
  intros Hids Hnd Hall. apply NoDup_ListNoDup in Hids.
  induction shown as [|i rest IH]; cbn [map]; [constructor|].
  apply NoDup_cons in Hnd as [Hi Hrest]. inversion Hall as [|? ? Hlt Hall']; subst.
  apply NoDup_cons. split; [|apply IH; assumption].
  intros Hin. apply list_elem_of_In, in_map_iff in Hin as (j & Hj & Hjin).
  rewrite List.Forall_forall in Hall'. pose proof (Hall' j Hjin) as Hjlt.
  rewrite (List.NoDup_nth ids 0%nat) in Hids.
  specialize (Hids j i Hjlt Hlt Hj). subst j.
  apply Hi, list_elem_of_In, Hjin.
Qed.

Lemma NoDup_bounded_length (n : nat) (l : list nat) :
  NoDup l -> Forall (fun i => (i < n)%nat) l -> (length l <= n)%nat.
Proof.
  intros Hnd Hall. apply NoDup_ListNoDup in Hnd.
  rewrite <- (length_seq n 0). apply List.NoDup_incl_length; [exact Hnd|].
  intros i Hi. rewrite List.Forall_forall in Hall. apply in_seq. specialize (Hall i Hi). lia.
Qed.

(** With the five ids shuffled without repetition, no notification is
    delivered twice along a run from mount, whatever the timer does: the
    delivered ids are pairwise different and at most five. *)
Theorem notifications_arrive_once (ids : list nat) (es : list Event) :
  NoDup ids -> (length notificationTimes <= length ids)%nat ->
  NoDup (map n_id (notificationsRef (refs (run es (mounted ids)))))
  /\ (length (notificationsRef (refs (run es (mounted ids)))) <= length notificationTimes)%nat.
Proof.
  intros Hids Hlen. destruct (NotificationsOk_run ids es) as [(Hnd & Hall & Hmap & _) E].
  rewrite E in Hmap. split.
  - rewrite Hmap. apply NoDup_map_nth; [exact Hids | |].
    { apply NoDup_ListNoDup, List.NoDup_rev, NoDup_ListNoDup, Hnd. }
    apply Forall_rev. eapply Forall_impl; [exact Hall|]. cbn beta. intros i Hi. lia.
  - rewrite <- (length_map n_id), Hmap, length_map, length_rev.
    apply NoDup_bounded_length; assumption.
Qed.

Lemma notifications_arrive_once_witness :
  let ids := [1; 2; 3; 4; 5]%nat in
  let es := [StartGame; CountdownDone 1000; Timer 10000; Timer 10100; Timer 19000] in
  NoDup ids /\ (length notificationTimes <= length ids)%nat
  /\ map n_id (notificationsRef (refs (run es (mounted ids)))) = [1; 2]%nat
  /\ NoDup (map n_id (notificationsRef (refs (run es (mounted ids)))))
  /\ (length (notificationsRef (refs (run es (mounted ids)))) <= length notificationTimes)%nat.
Proof.
  assert (Hids : NoDup [1; 2; 3; 4; 5]%nat) by (apply (bool_decide_unpack _); vm_compute; exact I).
  split; [exact Hids|]. split; [vm_compute; lia|]. split; [vm_compute; reflexivity|].
  apply (notifications_arrive_once [1; 2; 3; 4; 5]%nat
           [StartGame; CountdownDone 1000; Timer 10000; Timer 10100; Timer 19000] Hids).
  vm_compute. lia.
Defined.

(** A timer callback delivers a notification only while the elapsed whole
    second is exactly one of the notification times: a notification whose
    second goes by without a callback is not delivered later. *)
Theorem notification_needs_its_second (d : Z) (w : World) :
  ~ In (elapsedSeconds d w) notificationTimes ->
  notificationsRef (refs (timerInterval d w)) = notificationsRef (refs w)
  /\ notificationsShown (timerVars (timerInterval d w)) = notificationsShown (timerVars w).
Proof.
  intros Hnot.
  assert (E : (notificationsRef (refs (timerInterval d w)),
               notificationsShown (timerVars (timerInterval d w)))
              = (notificationsRef (refs w), notificationsShown (timerVars w))).
  { unfold timerInterval. destruct (timerCleared _); [reflexivity|].
    unfold elapsedSeconds in Hnot.
    destruct (clockRunning w) as [t0|]; [|reflexivity].
    destruct (isCompleteRef _); [reflexivity|].
    set (f := fun x => (notificationsRef (refs x), notificationsShown (timerVars x))).
    change (f (timeDeduction d (logSecond ((d - t0) / 1000)
                 (fold_left (triggerNotification d ((d - t0) / 1000))
                    (indexed notificationTimes) w))) = f w).
    assert (Hd : forall x, f (timeDeduction d x) = f x)
      by (intros x; unfold f, timeDeduction; frame).
    assert (Hl : forall s x, f (logSecond s x) = f x)
      by (intros s x; unfold f, logSecond; frame).
    rewrite Hd, Hl.
    assert (Hfold : forall entries x,
              Forall (fun e => In e.2 notificationTimes) entries ->
              f (fold_left (triggerNotification d ((d - t0) / 1000)) entries x) = f x).
    { induction entries as [|[i t] rest IH]; intros x Hall; cbn [fold_left]; [reflexivity|].
      inversion Hall as [|? ? Hin Hrest]; subst. cbn [snd] in Hin.
      rewrite IH by exact Hrest. unfold triggerNotification. cbn beta iota.
      destruct (Z.eqb_spec ((d - t0) / 1000) t) as [E|_]; [|reflexivity].
      rewrite E in Hnot. contradiction. }
    apply Hfold. apply List.Forall_forall. intros [i t] Hin. cbn [snd].
    unfold indexed in Hin. apply in_combine_r in Hin. exact Hin. }
  injection E as -> ->. split; reflexivity.
Qed.

Lemma notification_needs_its_second_witness :
  let w := run [StartGame; CountdownDone 1000; Timer 9900] (mounted [1; 2; 3; 4; 5]%nat) in
  ~ In (elapsedSeconds 11000 w) notificationTimes
  /\ notificationsRef (refs (timerInterval 11000 w)) = []
  /\ notificationsShown (timerVars (timerInterval 11000 w)) = notificationsShown (timerVars w).
Proof.
  assert (Hnot : ~ In (elapsedSeconds 11000
                         (run [StartGame; CountdownDone 1000; Timer 9900]
                            (mounted [1; 2; 3; 4; 5]%nat))) notificationTimes).
  { vm_compute. intuition discriminate. }
  split; [exact Hnot|].
  destruct (notification_needs_its_second 11000 _ Hnot) as [E1 E2].
  split; [rewrite E1; vm_compute; reflexivity | exact E2].
Defined.

(** ** The tick count over a whole run *)





Lemma last_cons_default {A} (l : list A) : forall a d,
  List.last (a :: l) d = List.last l a.
Proof.
  induction l as [|b l IH]; intros a d; [reflexivity|].
  change (List.last (a :: b :: l) d) with (List.last (b :: l) d).
  rewrite !IH. reflexivity.
Qed.




(** ** The time penalty of the 45-second build *)

Lemma Timed_deductions_from t0 s0 ts : forall l s t k,
  (0 < t0)%Z -> (0 <= k)%Z -> l = (t0 + 1000 * k)%Z -> s = Z.max 0 (s0 - 10 * k) ->
  (l <= t < l + 1000)%Z -> ascendingZ t ts ->
  let k' := ((List.last ts t - t0) / 1000)%Z in
  Timed_deductions ts (l, s) = ((t0 + 1000 * k')%Z, Z.max 0 (s0 - 10 * k')).
Proof.
  induction ts as [|t' ts IH]; intros l s t k Ht0 Hk Hl Hs Ht Hasc; cbn zeta.
  - cbn [List.last Timed_deductions fold_left]. subst l s.
    replace ((t - t0) / 1000)%Z with k; [reflexivity|].
    apply (Z.div_unique _ _ _ (t - (t0 + 1000 * k))%Z); lia.
  - destruct Hasc as [Hle Hasc]. rewrite last_cons_default.
    unfold Timed_deductions. cbn [fold_left]. fold (Timed_deductions ts).
    unfold Timed.timeDeduction, Timed.TIME_PENALTY.
    destruct (Z.eqb_spec l 0) as [E|_]; [lia|].
    pose proof (Z.div_mod (t' - l) 1000 ltac:(lia)) as Hdm.
    pose proof (Z.mod_pos_bound (t' - l) 1000 ltac:(lia)) as Hmod.
    assert (Hq : (0 <= (t' - l) / 1000)%Z) by (apply Z.div_pos; lia).
    destruct (Z.leb_spec 1000 (t' - l)) as [Hge|Hlt].
    + apply (IH _ _ t' (k + (t' - l) / 1000)%Z); try assumption; lia.
    + assert ((t' - l) / 1000 = 0)%Z by (apply Z.div_small; lia).
      apply (IH _ _ t' k); try assumption; lia.
Qed.

(** In the 45-second build the time penalty follows the wall clock alone:
    over timer callbacks whose time readings do not go back, the score
    loses ten points for every whole second between the first callback
    and the last, however the callbacks were spaced. *)
Theorem Timed_penalty_follows_the_clock (t0 s0 : Z) (ts : list Z) :
  (0 < t0)%Z -> (0 <= s0)%Z -> ascendingZ t0 ts ->
  let seconds := ((List.last ts t0 - t0) / 1000)%Z in
  Timed_deductions (t0 :: ts) (0%Z, s0)
  = ((t0 + 1000 * seconds)%Z, Z.max 0 (s0 - Timed.TIME_PENALTY * seconds)).
Proof.
  intros Ht0 Hs0 Hasc. cbn zeta.
  unfold Timed_deductions. cbn [fold_left]. fold (Timed_deductions ts).
  assert (E : Timed.timeDeduction t0 (0%Z, s0) = (t0, s0)).
  { unfold Timed.timeDeduction. cbn [Z.eqb]. rewrite Z.sub_diag. reflexivity. }
  rewrite E. apply (Timed_deductions_from t0 s0 ts t0 s0 t0 0%Z); try assumption; lia.
Qed.

Lemma Timed_penalty_follows_the_clock_witness :
  (0 < 1100)%Z /\ (0 <= 1000)%Z /\ ascendingZ 1100 [1200; 4750; 4800]%Z
  /\ Timed_deductions [1100; 1200; 4750; 4800]%Z (0, 1000)%Z = (4100, 970)%Z
  /\ Timed_deductions [1100; 4800]%Z (0, 1000)%Z = (4100, 970)%Z.
Proof.
  split; [lia|]. split; [lia|]. split; [cbn; lia|]. split.
  - rewrite (Timed_penalty_follows_the_clock 1100 1000 [1200; 4750; 4800]%Z);
      [vm_compute; reflexivity | lia | lia | cbn; lia].
  - rewrite (Timed_penalty_follows_the_clock 1100 1000 [4800]%Z);
      [vm_compute; reflexivity | lia | lia | cbn; lia].
Defined.

(** ** The instruments *)









(** The stage, scaled, fits the wrapper with the margin in both
    directions, and fills it in one of them. *)
Theorem scaled_stage_fits (w h : Q) :
  let s := calculateScale w h in
  s * 1067 <= w * (98 # 100) /\ s * 600 <= h * (98 # 100)
  /\ (s * 1067 == w * (98 # 100) \/ s * 600 == h * (98 # 100)).
Proof.
  cbn zeta. unfold calculateScale.
  destruct (Q.min_spec (w * (98 # 100) / 1067) (h * (98 # 100) / 600)) as [[Hlt E]|[Hle E]];
    rewrite E.
  - assert (E1 : w * (98 # 100) / 1067 * 1067 == w * (98 # 100)) by (field).
    assert (E2 : h * (98 # 100) / 600 * 600 == h * (98 # 100)) by (field).
    repeat split; [lra | | left; exact E1].
    rewrite <- E2. apply Qmult_le_compat_r; [lra | discriminate].
  - assert (E1 : w * (98 # 100) / 1067 * 1067 == w * (98 # 100)) by (field).
    assert (E2 : h * (98 # 100) / 600 * 600 == h * (98 # 100)) by (field).
    repeat split; [ | lra | right; exact E2].
    rewrite <- E1. apply Qmult_le_compat_r; [lra | discriminate].
Qed.

(** The interval of the countdown shows 2, 1 and GO (0), and schedules the
    start of the run at the third callback only, however long the interval
    keeps firing before it is cleared. *)
Theorem countdown_schedules_one_start (n : nat) :
  let c := Nat.iter n countdownInterval countdownStart in
  count c = (3 - Z.of_nat n)%Z
  /\ countdown c = Some (Z.max 0 (3 - Z.of_nat n))
  /\ startsScheduled c = (if (3 <=? n)%nat then 1 else 0)%nat.
Proof.
  cbn zeta. induction n as [|n IH]; [repeat split|].
  rewrite Nat.iter_succ. destruct IH as (Hc & Hd & Hs).
  generalize dependent (Nat.iter n countdownInterval countdownStart).
  intros c Hc Hd Hs. unfold countdownInterval. rewrite Hc.
  destruct (Z.ltb_spec 0 (3 - Z.of_nat n - 1)); cbn [count countdown startsScheduled].
  - rewrite Hs. repeat split; try (f_equal; lia); try lia.
    destruct (Nat.leb_spec 3 n); [lia|]. destruct (Nat.leb_spec 3 (S n)); [lia | reflexivity].
  - destruct (Z.eqb_spec (3 - Z.of_nat n - 1) 0); cbn [count countdown startsScheduled];
      rewrite ?Hs, ?Hd.
    + repeat split; try (f_equal; lia); try lia.
      destruct (Nat.leb_spec 3 n); [lia|]. destruct (Nat.leb_spec 3 (S n)); [reflexivity | lia].
    + repeat split; try (f_equal; lia); try lia.
      destruct (Nat.leb_spec 3 n); destruct (Nat.leb_spec 3 (S n)); try lia; reflexivity.
Qed.

(** ** The variable-step build *)





(** ** The per-second log *)

Lemma noRepeat_snoc l x :
  noRepeat l -> (l = [] \/ List.last l 0%Z <> x) -> noRepeat (l ++ [x]).
Proof.
  induction l as [|a [|b l] IH]; intros H Hl; [exact I | |].
  - cbn. split; [|exact I]. destruct Hl as [Hl|Hl]; [discriminate | exact Hl].
  - destruct H as [Hab H]. change (a <> b /\ noRepeat ((b :: l) ++ [x])).
    split; [exact Hab|]. apply IH; [exact H|]. right.
    destruct Hl as [Hl|Hl]; [discriminate | exact Hl].
Qed.

Lemma SecondsOk_view w w' : secondsView w' = secondsView w -> SecondsOk w -> SecondsOk w'.
Proof. unfold secondsView, SecondsOk. intros [= -> ->]. auto. Qed.

Lemma secondsView_tick d w : secondsView (tick d w) = secondsView w.
Proof. revert d w. frame_tick. Qed.

Lemma SecondsOk_logSecond s w : SecondsOk w -> SecondsOk (logSecond s w).
Proof.
  intros [Hn Hl]. unfold logSecond.
  destruct (Z.eqb_spec s (lastSecondLogged (timerVars w))) as [E|E]; cbn [negb];
    [split; assumption|].
  unfold SecondsOk. fields. rewrite map_app. cbn [map second]. split.
  - apply noRepeat_snoc; [exact Hn|].
    destruct Hl as [Hl|Hl]; [left; rewrite Hl; reflexivity | right; congruence].
  - right. apply last_last.
Qed.

Lemma SecondsOk_step e w :
  (forall now d, e <> Frame now d) -> SecondsOk w -> SecondsOk (step w e).
Proof.
  intros Hframe H. destruct e; cbn [step].
  - exfalso. eapply Hframe. reflexivity.
  - unfold timerInterval. destruct (timerCleared _); [exact H|].
    destruct (clockRunning w) as [t0|]; [|exact H].
    destruct (isCompleteRef _); [exact H|].
    apply (SecondsOk_view (logSecond ((dateNow - t0) / 1000)
             (fold_left (triggerNotification dateNow ((dateNow - t0) / 1000))
                (indexed notificationTimes) w))).
    { unfold timeDeduction. frame. }
    apply SecondsOk_logSecond. apply (SecondsOk_view w); [|exact H].
    apply fold_left_frame. intros a [i t]. unfold triggerNotification. frame.
  - exact H.
  - exact H.
  - unfold startGame. destruct (showInstructions (ui w)); [|exact H].
    unfold SecondsOk. fields. split; [exact I | left; reflexivity].
  - apply (SecondsOk_view w); [|exact H]. unfold countdownDone. frame.
  - apply (SecondsOk_view w); [|exact H]. unfold handleToggleAutopilot. frame.
  - apply (SecondsOk_view w); [|exact H]. unfold clickNotification. frame.
  - exact H.
Qed.

(** The per-second log of the mode never has two neighbouring entries for
    the same second, although the timer fires ten times a second: along
    any run from mount, whatever the clock does. *)
Theorem mode_by_second_has_no_repeats (ids : list nat) (es : list Event) :
  noRepeat (map second (modeBySecond (data (run es (mounted ids))))).
Proof.
  apply (world_invariant_run SecondsOk).
  - intros d w H. apply (SecondsOk_view w); [apply secondsView_tick | exact H].
  - intros a t w H. exact H.
  - apply SecondsOk_step.
  - unfold SecondsOk, mounted. fields. split; [exact I | left; reflexivity].
Qed.

(** ** Open sessions of the notifications *)

Lemma Sessions_last_snoc (ss : list Sessions.Session) s :
  List.last (map Some (ss ++ [s])) None = Some s.
Proof. rewrite map_app. cbn [map]. apply last_last. Qed.










(** While the run is on, the effect of deselecting leaves no session
    open, on any notification: also those of a notification that was left
    by selecting another one. *)
Theorem deselecting_closes_every_session (gameStarted : bool) (startTime : option Z)
    (autopilot : bool) (dateNow t0 : Z) (ns : list Sessions.Notification) :
  Sessions.running gameStarted startTime = Some t0 ->
  Forall (fun n => Sessions.hasOpenSession n = false)
    (Sessions.effect None gameStarted startTime autopilot dateNow ns).
Proof.
  intros Hr. unfold Sessions.effect. rewrite Hr. apply Forall_map, Forall_forall.
  intros n _. unfold Sessions.closeOne, Sessions.hasOpenSession at 1.
  destruct (List.last (map Some (Sessions.openSessions n)) None) as [s|] eqn:El.
  - destruct (Sessions.closeTime s) eqn:Hc.
    + unfold Sessions.hasOpenSession. rewrite El, Hc. reflexivity.
    + unfold Sessions.hasOpenSession. cbn [Sessions.openSessions].
      rewrite Sessions_last_snoc. reflexivity.
  - unfold Sessions.hasOpenSession. rewrite El. reflexivity.
Qed.

Lemma deselecting_closes_every_session_witness :
  let ns := fold_left Sessions.step
              [Sessions.Arrive 3%nat; Sessions.Arrive 1%nat;
               Sessions.Effect (Some 3%nat) true (Some 1000%Z) true 10500%Z;
               Sessions.Effect (Some 1%nat) true (Some 1000%Z) false 12000%Z] [] in
  map Sessions.hasOpenSession ns = [true; true]
  /\ Forall (fun n => Sessions.hasOpenSession n = false)
       (Sessions.effect None true (Some 1000%Z) false 15250%Z ns)
  /\ map Sessions.totalOpenDuration (Sessions.effect None true (Some 1000%Z) false 15250%Z ns)
     = [4750; 3250]%Z.
Proof.
  cbn zeta. split; [reflexivity|]. split; [|reflexivity].
  apply (deselecting_closes_every_session true (Some 1000%Z) false 15250%Z 1000%Z). reflexivity.
Defined.
